(** * toshi.database: resilient pool, transaction scope, schema migration

    A shallow embedding of [toshi/database.py].  Coroutines are modelled in
    an error-and-state monad: every [await] is a sequencing point, a Python
    exception is the [Raise] outcome (the state reached so far is kept, as
    in Python), and a [while True:] loop is a fixpoint over a fuel
    argument whose exhaustion is the separate outcome [OutOfFuel]. *)

From Stdlib Require Import String Ascii List ZArith Lia Bool Arith.
From Stdlib Require Import DecimalString.
Import ListNotations.
#[local] Open Scope string_scope.
#[local] Open Scope list_scope.

(** ** Python values and exceptions *)

(** The values that travel through the code as query arguments. *)
Inductive pyval : Type :=
| PyNone
| PyBool (b : bool)
| PyInt (z : Z)
| PyStr (s : string).

(** What [connection.execute] answers: asyncpg answers the status string
    of the last command, other drivers a sequence of status lines. *)
Inductive response : Type :=
| RespNone
| RespStatus (s : string)
| RespLines (l : list string).

Inductive exn : Type :=
| DatabaseError (msg : string)           (* toshi.errors.DatabaseError(msg) *)
| DatabaseErrorResp (resp : response)    (* toshi.errors.DatabaseError(resp) *)
| UndefinedTableError                    (* asyncpg.exceptions *)
| ConnectionDoesNotExistError            (* asyncpg.exceptions *)
| DriverError (msg : string)             (* any other Exception of the driver *)
| AssertionError (msg : string)
| TypeError (msg : string)
| ValueError (msg : string)
| AttributeError (msg : string)
| OSError (msg : string)
| CallbackError (msg : string)           (* an Exception raised by user code *)
| FuturesCancelledError                  (* asyncio.CancelledError up to Python 3.7:
                                            concurrent.futures.CancelledError *)
| CancelledError                         (* asyncio.CancelledError from Python 3.8 *)
| KeyboardInterrupt
| SystemExit (code : Z).

(** [except Exception] catches everything but the classes that derive
    from [BaseException] only: [SystemExit] and [KeyboardInterrupt] in every
    version of Python, and the [CancelledError] of asyncio from Python 3.8.
    Up to Python 3.7 a cancelled task gets the [CancelledError] of
    [concurrent.futures], which is an [Exception]. *)
Definition is_Exception (e : exn) : bool :=
  match e with
  | CancelledError | KeyboardInterrupt | SystemExit _ => false
  | _ => true
  end.

(** ** The monad of coroutines *)

Inductive result (A : Type) : Type :=
| Ok (a : A)
| Raise (e : exn)
| OutOfFuel.
Arguments Ok {A} a.
Arguments Raise {A} e.
Arguments OutOfFuel {A}.

Definition M (S A : Type) : Type := S -> result A * S.

Definition ret {S A} (a : A) : M S A := fun s => (Ok a, s).

Definition bind {S A B} (m : M S A) (k : A -> M S B) : M S B :=
  fun s =>
    match m s with
    | (Ok a, s1) => k a s1
    | (Raise e, s1) => (Raise e, s1)
    | (OutOfFuel, s1) => (OutOfFuel, s1)
    end.

Definition raise {S A} (e : exn) : M S A := fun s => (Raise e, s).
Definition diverge {S A} : M S A := fun s => (OutOfFuel, s).
Definition get {S} : M S S := fun s => (Ok s, s).
Definition gets {S A} (f : S -> A) : M S A := fun s => (Ok (f s), s).
Definition modify {S} (f : S -> S) : M S unit := fun s => (Ok tt, f s).

(** [try: m  except <classes selected by h>: handler]. *)
Definition try_except {S A} (m : M S A) (h : exn -> option (M S A)) : M S A :=
  fun s =>
    match m s with
    | (Raise e, s1) =>
        match h e with
        | Some handler => handler s1
        | None => (Raise e, s1)
        end
    | r => r
    end.

(** [try: m  finally: f].  The finally block runs whether [m] returned or
    raised; an exception of the finally block replaces the pending one. *)
Definition try_finally {S A} (m : M S A) (f : M S unit) : M S A :=
  fun s =>
    match m s with
    | (OutOfFuel, s1) => (OutOfFuel, s1)
    | (r, s1) =>
        match f s1 with
        | (Ok _, s2) => (r, s2)
        | (Raise e, s2) => (Raise e, s2)
        | (OutOfFuel, s2) => (OutOfFuel, s2)
        end
    end.

Declare Scope coro_scope.
Delimit Scope coro_scope with coro.
Notation "x <- m ;; k" := (bind m (fun x => k))
  (at level 61, m at next level, right associativity) : coro_scope.
Notation "m ;;; k" := (bind m (fun _ => k))
  (at level 61, right associativity) : coro_scope.
#[local] Open Scope coro_scope.

(** ** String formatting *)

(** [str(n)] for an int. *)
Definition str_of_nat (n : nat) : string :=
  NilZero.string_of_uint (Nat.to_uint n).

Definition str_of_Z (z : Z) : string :=
  match z with
  | Zneg p => "-" ++ str_of_nat (Pos.to_nat p)
  | _ => str_of_nat (Z.to_nat z)
  end.

Fixpoint zeros (n : nat) : string :=
  match n with
  | O => ""
  | S n' => String "0" (zeros n')
  end.

(** ["{:08}".format(z)]: sign-aware zero padding to a width of 8. *)
Definition format_08 (z : Z) : string :=
  match z with
  | Zneg p =>
      let digits := str_of_nat (Pos.to_nat p) in
      "-" ++ zeros (7 - String.length digits) ++ digits
  | _ =>
      let digits := str_of_nat (Z.to_nat z) in
      zeros (8 - String.length digits) ++ digits
  end.

(** [sep.join(parts)]. *)
Fixpoint join (sep : string) (parts : list string) : string :=
  match parts with
  | [] => ""
  | [p] => p
  | p :: rest => p ++ sep ++ join sep rest
  end.

(** ** SafePool *)

Module SafePool.

Section Driver.

(** The driver's pool ([asyncpg.pool.Pool]) is outside the repository: its
    state, its connections and its operations are parameters. *)
Variable pool : Type.
Variable connection : Type.
Variable super_acquire : option nat -> M pool connection.
Variable release : connection -> M pool unit.
Variable is_closed : connection -> pool -> bool.

(** [SafePool._acquire(timeout)]. *)
Fixpoint _acquire (fuel : nat) (timeout : option nat) : M pool connection :=
  match fuel with
  | O => diverge
  | S fuel' =>
      con <- super_acquire timeout ;;
      closed <- gets (is_closed con) ;;
      if closed
      then release con ;;; _acquire fuel' timeout
      else ret con
  end.

(** [discards timeout p cons p']: starting in [p], the driver hands back
    the connections [cons], each of them closed, and each is released,
    which leads to [p']. *)
Inductive discards (timeout : option nat) : pool -> list connection -> pool -> Prop :=
| discards_nil : forall p, discards timeout p [] p
| discards_cons : forall p con p1 p2 cons p',
    super_acquire timeout p = (Ok con, p1) ->
    is_closed con p1 = true ->
    release con p1 = (Ok tt, p2) ->
    discards timeout p2 cons p' ->
    discards timeout p (con :: cons) p'.

End Driver.

Arguments _acquire {pool connection}.
Arguments discards {pool connection}.

(** A driver pool for tests: a queue of idle connections, of which some
    were closed by the server while idle. *)
Record test_connection : Type := { con_id : nat; con_closed : bool }.
Record test_pool : Type := { idle : list test_connection; released : list nat }.

Definition test_acquire (_ : option nat) : M test_pool test_connection :=
  fun p =>
    match idle p with
    | [] => (Raise (DriverError "TimeoutError"), p)
    | c :: rest => (Ok c, {| idle := rest; released := released p |})
    end.

Definition test_release (c : test_connection) : M test_pool unit :=
  modify (fun p => {| idle := idle p; released := released p ++ [con_id c] |}).

Definition test_is_closed (c : test_connection) (_ : test_pool) : bool :=
  con_closed c.

End SafePool.

(** ** Schema migration: [create_tables] and [wait_for_migration] *)

Module Migration.

(** The statements the two functions send through [con.execute]. *)
Inductive statement : Type :=
| CreateVersionTable    (* "CREATE TABLE database_version (version_number INTEGER)" *)
| InsertVersionZero     (* "INSERT INTO database_version (version_number) VALUES (0)" *)
| UpdateVersion (v : Z) (* "UPDATE database_version SET version_number = $1", v *)
| Script (sql : string). (* the text read from a script file *)

(** A call on the connection; [Fetchrow] is
    [con.fetchrow("SELECT version_number FROM database_version LIMIT 1")]. *)
Inductive call : Type :=
| Fetchrow
| Execute (q : statement).

Inductive log_entry : Type :=
| LogInfo (msg : string)
| LogWarning (msg : string).

(** The database behind the connection: the rows of [database_version]
    when that table exists, and whatever else the scripts created. *)
Record database : Type := {
  version_table : option (list Z);
  objects : list string
}.

Record world : Type := {
  db : database;
  clock : nat;              (* the number of [asyncio.sleep] calls so far *)
  calls : list call;        (* what was sent through the connection, in order *)
  log : list log_entry
}.

Definition with_version_table (t : option (list Z)) (d : database) : database :=
  {| version_table := t; objects := objects d |}.

Definition with_db (d : database) (w : world) : world :=
  {| db := d; clock := clock w; calls := calls w; log := log w |}.

Definition sent (c : call) (w : world) : world :=
  {| db := db w; clock := clock w; calls := calls w ++ [c]; log := log w |}.

Definition logged (e : log_entry) (w : world) : world :=
  {| db := db w; clock := clock w; calls := calls w; log := log w ++ [e] |}.

(** The version a [Fetchrow] reads. *)
Definition recorded_version (d : database) : option Z :=
  match version_table d with
  | Some (v :: _) => Some v
  | _ => None
  end.

Definition bootstrap_path : string := "sql/create_tables.sql".

(** ["sql/migrate_{:08}.sql".format(version)]. *)
Definition migrate_path (version : Z) : string :=
  "sql/migrate_" ++ format_08 version ++ ".sql".

Definition waiting_message : string := "waiting for database migration...".
Definition missing_message : string :=
  "Missing sql/create_tables.sql: cannot initialise database".
Definition version_not_set_message : string :=
  "Warning, migration scripts exist but database version has not been set in create_tables.sql".

Section Environment.

(** The script directory, what the server does with the text of a script
    (an error or not, and the database afterwards), and what the other
    processes do to the database during the n-th sleep. *)
Variable fs : string -> option string.
Variable run_script : string -> database -> option exn * database.
Variable peer : nat -> database -> database.

(** [os.path.exists(path)]. *)
Definition path_exists (path : string) : bool :=
  match fs path with
  | Some _ => true
  | None => false
  end.

(** [open(path).read()]. *)
Definition read_file (path : string) : M world string :=
  match fs path with
  | Some text => ret text
  | None => raise (OSError "FileNotFoundError")
  end.

Definition log_info (msg : string) : M world unit := modify (logged (LogInfo msg)).
Definition log_warning (msg : string) : M world unit := modify (logged (LogWarning msg)).

(** [await con.fetchrow(...)]: the first row, or [None] on an empty table. *)
Definition fetchrow : M world (option Z) :=
  fun w =>
    let w1 := sent Fetchrow w in
    match version_table (db w) with
    | None => (Raise UndefinedTableError, w1)
    | Some [] => (Ok None, w1)
    | Some (v :: _) => (Ok (Some v), w1)
    end.

(** [row['version_number']]. *)
Definition version_number (row : option Z) : M world Z :=
  match row with
  | Some v => ret v
  | None => raise (TypeError "'NoneType' object is not subscriptable")
  end.

(** [await con.execute(q)]. *)
Definition execute (q : statement) : M world unit :=
  fun w =>
    let w1 := sent (Execute q) w in
    let d := db w in
    match q with
    | CreateVersionTable =>
        match version_table d with
        | Some _ => (Raise (DriverError "DuplicateTableError"), w1)
        | None => (Ok tt, with_db (with_version_table (Some []) d) w1)
        end
    | InsertVersionZero =>
        match version_table d with
        | None => (Raise UndefinedTableError, w1)
        | Some rows => (Ok tt, with_db (with_version_table (Some (rows ++ [0%Z])) d) w1)
        end
    | UpdateVersion v =>
        match version_table d with
        | None => (Raise UndefinedTableError, w1)
        | Some rows =>
            (Ok tt, with_db (with_version_table (Some (map (fun _ => v) rows)) d) w1)
        end
    | Script sql =>
        match run_script sql d with
        | (Some e, d') => (Raise e, with_db d' w1)
        | (None, d') => (Ok tt, with_db d' w1)
        end
    end.

(** [await asyncio.sleep(poll_frequency)]: the other processes run. *)
Definition sleep : M world unit :=
  modify (fun w =>
    {| db := peer (clock w) (db w); clock := S (clock w);
       calls := calls w; log := log w |}).

(** The probing loop of both functions:
    [while True: version += 1; if not exists: version -= 1; break]. *)
Fixpoint latest_script (fuel : nat) (version : Z) : M world Z :=
  match fuel with
  | O => diverge
  | S fuel' =>
      let version := (version + 1)%Z in
      if negb (path_exists (migrate_path version))
      then ret (version - 1)%Z
      else latest_script fuel' version
  end.

(** The loop of [create_tables] that applies the scripts; it ends with the
    version reached and the exception caught, if any. *)
Fixpoint apply_scripts (fuel : nat) (version : Z) : M world (Z * option exn) :=
  match fuel with
  | O => diverge
  | S fuel' =>
      let version := (version + 1)%Z in
      let fn := migrate_path version in
      if path_exists fn then
        log_info ("applying migration script: " ++ format_08 version) ;;;
        sql <- read_file fn ;;
        caught <- try_except (execute (Script sql) ;;; ret None)
                    (fun e => if is_Exception e then Some (ret (Some e)) else None) ;;
        match caught with
        | Some e => ret ((version - 1)%Z, Some e)
        | None => apply_scripts fuel' version
        end
      else ret ((version - 1)%Z, None)
  end.

(** The handler of [UndefinedTableError] in [create_tables]. *)
Definition fresh_database (fuel : nat) : M world unit :=
  execute CreateVersionTable ;;;
  execute InsertVersionZero ;;;
  sql <- read_file bootstrap_path ;;
  execute (Script sql) ;;;
  version <- latest_script fuel 0%Z ;;
  if (0 <? version)%Z then
    row <- fetchrow ;;
    v <- version_number row ;;
    if negb (v =? version)%Z then
      log_warning version_not_set_message ;;;
      log_warning ("DB version: " ++ str_of_Z v ++ ", latest migration script: "
                   ++ str_of_Z version)
    else ret tt
  else ret tt.

(** [create_tables(con)]. *)
Definition create_tables (fuel : nat) : M world unit :=
  if negb (path_exists bootstrap_path) then log_warning missing_message
  else
    existing <- try_except
        (row <- fetchrow ;;
         version <- version_number row ;;
         log_info ("got database version: " ++ str_of_Z version) ;;;
         ret (Some version))
        (fun e =>
           match e with
           | UndefinedTableError => Some (fresh_database fuel ;;; ret None)
           | _ => None
           end) ;;
    match existing with
    | None => ret tt
    | Some version =>
        reached <- apply_scripts fuel version ;;
        execute (UpdateVersion (fst reached)) ;;;
        match snd reached with
        | Some e => raise e
        | None => ret tt
        end
    end.

(** The polling loop of [wait_for_migration]. *)
Fixpoint poll (fuel : nat) (version : Z) : M world unit :=
  match fuel with
  | O => diverge
  | S fuel' =>
      matched <- try_except
          (row <- fetchrow ;;
           v <- version_number row ;;
           ret (version =? v)%Z)
          (fun e =>
             match e with
             | UndefinedTableError => Some (ret false)
             | _ => None
             end) ;;
      if matched then ret tt
      else log_info waiting_message ;;; sleep ;;; poll fuel' version
  end.

(** [wait_for_migration(con, poll_frequency)]. *)
Definition wait_for_migration (fuel : nat) : M world unit :=
  if negb (path_exists bootstrap_path) then log_warning missing_message
  else
    version <- latest_script fuel 0%Z ;;
    poll fuel version ;;;
    log_info ("got database version: " ++ str_of_Z version).

(** The database after [k] sleeps that start at time [t] in database [d]. *)
Fixpoint db_after (k : nat) (t : nat) (d : database) : database :=
  match k with
  | O => d
  | S k' => db_after k' (S t) (peer t d)
  end.

(** The scripts numbered [V+1 .. V+length texts] exist and hold [texts]. *)
Definition scripts_present (V : Z) (texts : list string) : Prop :=
  forall i text,
    nth_error texts i = Some text ->
    fs (migrate_path (V + 1 + Z.of_nat i)) = Some text.

(** The world once the script after [V] is announced in the log. *)
Definition announced (V : Z) (w : world) : world :=
  logged (LogInfo ("applying migration script: " ++ format_08 (V + 1))) w.

(** The world after the scripts [texts], numbered from [V+1], have each
    been announced and run. *)
Fixpoint ran (texts : list string) (V : Z) (w : world) : world :=
  match texts with
  | [] => w
  | text :: rest =>
      ran rest (V + 1)
        (with_db (snd (run_script text (db w)))
           (sent (Execute (Script text)) (announced V w)))
  end.

(** The database after the scripts [texts] have run on [d], one after the
    other. *)
Definition db_through (texts : list string) (d : database) : database :=
  fold_left (fun d text => snd (run_script text d)) texts d.

(** The server accepts every script of [texts] when its turn comes, on the
    database the scripts before it have left. *)
Fixpoint accepted (texts : list string) (d : database) : bool :=
  match texts with
  | [] => true
  | text :: rest =>
      match run_script text d with
      | (None, d') => accepted rest d'
      | (Some _, _) => false
      end
  end.

(** The database after [UPDATE database_version SET version_number = v]. *)
Definition updated (v : Z) (d : database) : database :=
  with_version_table (option_map (map (fun _ => v)) (version_table d)) d.


(** The first four calls of [create_tables] on a fresh database. *)
Definition fresh_calls (boot : string) : list call :=
  [Fetchrow; Execute CreateVersionTable; Execute InsertVersionZero;
   Execute (Script boot)].

(** The version table is missing, or its version is not [expected]. *)
Definition not_ready (expected : Z) (d : database) : Prop :=
  version_table d = None \/
  exists v, recorded_version d = Some v /\ v <> expected.

(** One unsuccessful round of the polling loop. *)
Definition waited (w : world) : world :=
  {| db := peer (clock w) (db w); clock := S (clock w);
     calls := calls w ++ [Fetchrow];
     log := log w ++ [LogInfo waiting_message] |}.

End Environment.

(** A script directory and a server for tests: the script
    ["sql/migrate_0000000k.sql"] holds the text [k]; the bootstrap script
    holds ["bootstrap"]; a script fails on the server when its text is
    listed as broken, and is otherwise recorded in [objects]. *)
Definition test_fs (n : nat) (path : string) : option string :=
  if String.eqb path bootstrap_path then Some "bootstrap"
  else
    let hit k := String.eqb path (migrate_path (Z.of_nat k)) in
    match find hit (seq 1 n) with
    | Some k => Some (str_of_nat k)
    | None => None
    end.

Definition test_server (broken : list string) (sql : string) (d : database)
  : option exn * database :=
  if existsb (String.eqb sql) broken
  then (Some (DriverError ("syntax error in " ++ sql)), d)
  else (None, {| version_table := version_table d; objects := objects d ++ [sql] |}).

(** Another process that creates the version table during the first sleep
    and then raises the version by one during every later sleep. *)
Definition test_peer (t : nat) (d : database) : database :=
  match version_table d with
  | None => with_version_table (Some [0%Z]) d
  | Some rows => with_version_table (Some (map (fun v => (v + 1)%Z) rows)) d
  end.

Definition empty_database : database := {| version_table := None; objects := [] |}.

Definition at_version (v : Z) : database :=
  {| version_table := Some [v]; objects := [] |}.

Definition start (d : database) : world :=
  {| db := d; clock := 0; calls := []; log := [] |}.

End Migration.

(** ** The transaction scope: [HandlerDatabasePoolContext] *)

Module Scope.

(** Pools and connections are driver objects; the code compares pools by
    identity ([is]) and otherwise only passes them around. *)
Definition Pool : Type := nat.
Definition Connection : Type := nat.

(** [connection.transaction()]. *)
Inductive Transaction : Type :=
| transaction_on (con : Connection).

(** The calls that leave the scope, in the order they are made. *)
Inductive event : Type :=
| Acquire (p : Pool) (timeout : option nat)
| Release (p : Pool) (con : option Connection)
| ClosePool (p : Pool)
| CreatePool (config : option nat)
| Start (tx : Transaction)
| Commit (tx : Transaction)
| Rollback (tx : Transaction)
| ConExecute (con : Connection) (query : string) (args : list pyval)
| ConExecuteMany (con : Connection) (command : string) (args : list (list pyval))
| ConFetch (con : Connection) (query : string) (args : list pyval)
| ConFetchval (con : Connection) (query : string) (args : list pyval) (column : nat)
| ConFetchrow (con : Connection) (query : string) (args : list pyval)
| Fired (callback : nat)
| LogException (msg : string).

Record world : Type := {
  registry : option Pool;        (* _global_database_pool *)
  events : list event;
  server : Migration.world       (* the database the pools connect to *)
}.

(** What the driver answers to each call, given everything that happened
    before it. *)
Record driver : Type := {
  acquire_result : world -> Pool -> option nat -> result Connection;
  release_result : world -> Pool -> option Connection -> option exn;
  close_result : world -> Pool -> option exn;
  create_pool_result : world -> option nat -> result Pool;
  start_result : world -> Transaction -> option exn;
  commit_result : world -> Transaction -> option exn;
  rollback_result : world -> Transaction -> option exn;
  execute_result : world -> Connection -> string -> list pyval -> result response;
  executemany_result : world -> Connection -> string -> list (list pyval) -> option exn;
  fetch_result : world -> Connection -> string -> list pyval -> result (list (list pyval));
  fetchval_result : world -> Connection -> string -> list pyval -> nat -> result pyval;
  fetchrow_result : world -> Connection -> string -> list pyval -> result (option (list pyval))
}.

(** What a commit callback does when it runs: it may register callbacks on
    the scope, and it returns or raises.  A coroutine function runs its
    body when its coroutine is awaited. *)
Record callback_body : Type := {
  is_coroutine : bool;
  registers : list nat;
  fails : option exn
}.

(** The slots of [HandlerDatabasePoolContext]. *)
Record scope : Type := {
  timeout : option nat;
  connection : option Connection;
  transaction : option Transaction;
  autocommit : bool;
  pool : Pool;
  done : bool;
  callbacks : list nat
}.

Record env : Type := {
  self : scope;
  outside : world
}.

(** [HandlerDatabasePoolContext(pool, autocommit, timeout)]. *)
Definition __init__ (pool : Pool) (autocommit : bool) (timeout : option nat) : scope :=
  {| timeout := timeout; connection := None; transaction := None;
     autocommit := autocommit; pool := pool; done := false; callbacks := [] |}.

(** [self.acquire(autocommit)]. *)
Definition acquire (s : scope) (autocommit' : option bool) : scope :=
  let autocommit' :=
    match autocommit' with
    | None => autocommit s
    | Some b => b
    end in
  __init__ (pool s) autocommit' (timeout s).

Definition set_connection (c : option Connection) (s : scope) : scope :=
  {| timeout := timeout s; connection := c; transaction := transaction s;
     autocommit := autocommit s; pool := pool s; done := done s;
     callbacks := callbacks s |}.

Definition set_transaction (t : option Transaction) (s : scope) : scope :=
  {| timeout := timeout s; connection := connection s; transaction := t;
     autocommit := autocommit s; pool := pool s; done := done s;
     callbacks := callbacks s |}.

Definition set_pool (p : Pool) (s : scope) : scope :=
  {| timeout := timeout s; connection := connection s; transaction := transaction s;
     autocommit := autocommit s; pool := p; done := done s;
     callbacks := callbacks s |}.

Definition set_done (b : bool) (s : scope) : scope :=
  {| timeout := timeout s; connection := connection s; transaction := transaction s;
     autocommit := autocommit s; pool := pool s; done := b;
     callbacks := callbacks s |}.

Definition set_callbacks (l : list nat) (s : scope) : scope :=
  {| timeout := timeout s; connection := connection s; transaction := transaction s;
     autocommit := autocommit s; pool := pool s; done := done s;
     callbacks := l |}.

Definition emit (ev : event) (w : world) : world :=
  {| registry := registry w; events := events w ++ [ev]; server := server w |}.

Definition set_registry (r : option Pool) (w : world) : world :=
  {| registry := r; events := events w; server := server w |}.

Definition outcome (o : option exn) : result unit :=
  match o with
  | Some e => Raise e
  | None => Ok tt
  end.

Definition on_world {A} (m : M world A) : M env A :=
  fun e =>
    let (r, w) := m (outside e) in
    (r, {| self := self e; outside := w |}).

Definition on_server {A} (m : M Migration.world A) : M world A :=
  fun w =>
    let (r, sv) := m (server w) in
    (r, {| registry := registry w; events := events w; server := sv |}).

Definition update_self (f : scope -> scope) : M env unit :=
  modify (fun e => {| self := f (self e); outside := outside e |}).

Definition read_self {A} (f : scope -> A) : M env A :=
  gets (fun e => f (self e)).

(** An element of a list or tuple that is given to [update]. *)
Inductive pyelem : Type :=
| ElemSeq (l : list pyval)     (* a tuple or a list of values *)
| ElemVal (v : pyval).         (* a value that is neither *)

(** The arguments of [update]: a dict (or the ItemsView of one), a list or
    tuple of whatever elements, [None], or some other object. *)
Inductive pyarg : Type :=
| ArgDict (items : list (string * pyval))
| ArgList (elems : list pyelem)
| ArgNone
| ArgOther (v : pyval).

(** The list or tuple of the pairs [items]. *)
Definition pairs (items : list (string * pyval)) : list pyelem :=
  map (fun kv => ElemSeq [PyStr (fst kv); snd kv]) items.

(** [isinstance(a, dict)] turns [a] into [a.items()], and
    [isinstance(a, (list, tuple, ItemsView))] then lets it through,
    whatever its elements are. *)
Definition as_items (a : pyarg) : option (list pyelem) :=
  match a with
  | ArgDict items => Some (pairs items)
  | ArgList elems => Some elems
  | ArgNone => None
  | ArgOther _ => None
  end.

(** ["{}".format(k)]. *)
Definition format_value (k : pyval) : string :=
  match k with
  | PyNone => "None"
  | PyBool true => "True"
  | PyBool false => "False"
  | PyInt z => str_of_Z z
  | PyStr s => s
  end.

(** The [ValueError] of unpacking a sequence of [n] elements into two
    names. *)
Definition unpack_error (n : nat) : exn :=
  if Nat.ltb n 2
  then ValueError ("not enough values to unpack (expected 2, got " ++ str_of_nat n ++ ")")
  else ValueError "too many values to unpack (expected 2)".

(** [type(v).__name__]. *)
Definition type_name (v : pyval) : string :=
  match v with
  | PyNone => "NoneType"
  | PyBool _ => "bool"
  | PyInt _ => "int"
  | PyStr _ => "str"
  end.

(** [k, v = x], the unpacking in [for k, v in ...]: a sequence of two
    elements gives them, a str of two characters gives these, a sequence or
    str of another length raises [ValueError], and a value that cannot be
    iterated raises [TypeError] (with the text of Python 3.7 and later).
    The key is kept as the text that ["{}".format(k)] makes of it, which is
    all that [update] does with it. *)
Definition unpack (x : pyelem) : exn + string * pyval :=
  match x with
  | ElemSeq [k; v] => inr (format_value k, v)
  | ElemSeq l => inl (unpack_error (length l))
  | ElemVal (PyStr (String a (String b EmptyString))) =>
      inr (String a EmptyString, PyStr (String b EmptyString))
  | ElemVal (PyStr s) => inl (unpack_error (String.length s))
  | ElemVal v =>
      inl (TypeError ("cannot unpack non-iterable " ++ type_name v ++ " object"))
  end.

(** The two [for k, v in ...] loops of [update]: each unpacks an element,
    appends ["{} = ${}".format(k, qnum)] to the statements and [v] to the
    argument list, and increments [qnum]; an element that cannot be
    unpacked ends the loop with its exception. *)
Fixpoint render (items : list pyelem) (stmts : list string)
  (qnum : nat) (arglist : list pyval) : exn + list string * nat * list pyval :=
  match items with
  | [] => inr (stmts, qnum, arglist)
  | x :: rest =>
      match unpack x with
      | inl e => inl e
      | inr (k, v) =>
          render rest (stmts ++ [(k ++ " = $" ++ str_of_nat qnum)%string]) (S qnum)
            (arglist ++ [v])
      end
  end.

(** [resp and resp[0].startswith("ERROR:")]. *)
Definition reports_error (resp : response) : bool :=
  match resp with
  | RespNone => false
  | RespStatus EmptyString => false
  | RespStatus (String c _) => String.prefix "ERROR:" (String c EmptyString)
  | RespLines [] => false
  | RespLines (line :: _) => String.prefix "ERROR:" line
  end.

Section Runtime.

Variable drv : driver.
Variable body_of : nat -> callback_body.
Variable fs : string -> option string.
Variable run_script : string -> Migration.database -> option exn * Migration.database.
Variable peer : nat -> Migration.database -> Migration.database.

(** *** The driver and the registry *)

Definition pool_acquire (p : Pool) (t : option nat) : M world Connection :=
  fun w => (acquire_result drv w p t, emit (Acquire p t) w).

Definition pool_release (p : Pool) (con : option Connection) : M world unit :=
  fun w => (outcome (release_result drv w p con), emit (Release p con) w).

Definition pool_close (p : Pool) : M world unit :=
  fun w => (outcome (close_result drv w p), emit (ClosePool p) w).

Definition create_pool (config : option nat) : M world Pool :=
  fun w => (create_pool_result drv w config, emit (CreatePool config) w).

Definition tx_start (tx : Transaction) : M world unit :=
  fun w => (outcome (start_result drv w tx), emit (Start tx) w).

Definition tx_commit (tx : Transaction) : M world unit :=
  fun w => (outcome (commit_result drv w tx), emit (Commit tx) w).

Definition tx_rollback (tx : Transaction) : M world unit :=
  fun w => (outcome (rollback_result drv w tx), emit (Rollback tx) w).

Definition con_execute (con : Connection) (query : string) (args : list pyval)
  : M world response :=
  fun w => (execute_result drv w con query args, emit (ConExecute con query args) w).

Definition con_executemany (con : Connection) (command : string)
  (args : list (list pyval)) : M world unit :=
  fun w => (outcome (executemany_result drv w con command args),
            emit (ConExecuteMany con command args) w).

Definition con_fetch (con : Connection) (query : string) (args : list pyval)
  : M world (list (list pyval)) :=
  fun w => (fetch_result drv w con query args, emit (ConFetch con query args) w).

Definition con_fetchval (con : Connection) (query : string) (args : list pyval)
  (column : nat) : M world pyval :=
  fun w => (fetchval_result drv w con query args column,
            emit (ConFetchval con query args column) w).

Definition con_fetchrow (con : Connection) (query : string) (args : list pyval)
  : M world (option (list pyval)) :=
  fun w => (fetchrow_result drv w con query args, emit (ConFetchrow con query args) w).

Definition log_exception (msg : string) : M world unit :=
  modify (emit (LogException msg)).

(** [get_database_pool()]. *)
Definition get_database_pool : M world Pool :=
  fun w =>
    match registry w with
    | Some p => (Ok p, w)
    | None => (Raise (AssertionError "database not prepared before use"), w)
    end.

(** [set_database_pool(connection)]. *)
Definition set_database_pool (p : option Pool) : M world unit :=
  modify (set_registry p).

(** [_prepare_global_pool()]. *)
Definition _prepare_global_pool : M world Pool :=
  g <- gets registry ;;
  match g with
  | None =>
      p <- create_pool None ;;
      modify (set_registry (Some p)) ;;;
      ret p
  | Some p => ret p
  end.

(** [prepare_database(config, handle_migration)]; [async with
    pool.acquire() as con] releases the connection when the block is left. *)
Definition prepare_database (fuel : nat) (config : option nat)
  (handle_migration : option bool) : M world Pool :=
  p <- match config with
       | None => _prepare_global_pool
       | Some c => create_pool (Some c)
       end ;;
  con <- pool_acquire p None ;;
  try_finally
    (match handle_migration, config with
     | Some true, _ | None, None =>
         on_server (Migration.create_tables fs run_script fuel)
     | _, _ =>
         on_server (Migration.wait_for_migration fs peer fuel)
     end)
    (pool_release p (Some con)) ;;;
  ret p.

(** [self.connection.<attribute>]: the connection of the scope; [None] has
    no attributes. *)
Definition the_connection (attribute : string) : M env Connection :=
  c <- read_self connection ;;
  match c with
  | Some con => ret con
  | None =>
      raise (AttributeError
               ("'NoneType' object has no attribute '" ++ attribute ++ "'"))
  end.

(** *** Entry and exit *)

(** The recovery of the global pool in [__aenter__]. *)
Definition recover (fuel : nat) : M env unit :=
  try_except
    (old <- read_self pool ;;
     on_world (pool_close old) ;;;
     p <- on_world (prepare_database fuel None (Some false)) ;;
     update_self (set_pool p) ;;;
     t <- read_self timeout ;;
     con <- on_world (pool_acquire p t) ;;
     update_self (set_connection (Some con)))
    (fun _ => Some
       (on_world (log_exception "Unable to recover global database pool") ;;;
        raise (SystemExit 1))).

(** [__aenter__]. *)
Definition __aenter__ (fuel : nat) : M env unit :=
  c <- read_self connection ;;
  match c with
  | Some _ => raise (DatabaseError "Connection already in progress")
  | None =>
      try_except
        (p <- read_self pool ;;
         t <- read_self timeout ;;
         con <- on_world (pool_acquire p t) ;;
         update_self (set_connection (Some con)))
        (fun e =>
           match e with
           | ConnectionDoesNotExistError => Some
               (on_world (log_exception "Error acquiring connection") ;;;
                p <- read_self pool ;;
                g <- on_world get_database_pool ;;
                if Nat.eqb p g then
                  on_world (set_database_pool None) ;;;
                  recover fuel
                else raise e)
           | _ => None
           end) ;;;
      con <- the_connection "transaction" ;;
      update_self (set_transaction (Some (transaction_on con))) ;;;
      on_world (tx_start (transaction_on con))
  end.

(** [on_commit(callback)]. *)
Definition on_commit (callback : nat) : M env unit :=
  update_self (fun s =>
    if existsb (Nat.eqb callback) (callbacks s) then s
    else set_callbacks (callbacks s ++ [callback]) s).

(** The body of a callback. *)
Definition run_body (callback : nat) : M env unit :=
  on_world (modify (emit (Fired callback))) ;;;
  fold_right (fun c k => on_commit c ;;; k) (ret tt) (registers (body_of callback)) ;;;
  match fails (body_of callback) with
  | Some e => raise e
  | None => ret tt
  end.

(** [f = callback()]: a coroutine function answers a coroutine, any other
    function runs. *)
Definition call (callback : nat) : M env (option nat) :=
  if is_coroutine (body_of callback) then ret (Some callback)
  else run_body callback ;;; ret None.

(** [for callback in callbacks: f = callback(); if iscoroutine(f): await f]. *)
Fixpoint run_callbacks (l : list nat) : M env unit :=
  match l with
  | [] => ret tt
  | callback :: rest =>
      f <- call callback ;;
      match f with
      | Some coroutine => run_body coroutine
      | None => ret tt
      end ;;;
      run_callbacks rest
  end.

(** [commit(create_new_transaction)]. *)
Definition commit (create_new_transaction : bool) : M env unit :=
  t <- read_self transaction ;;
  match t with
  | Some tx =>
      try_finally
        (pending <- read_self callbacks ;;
         update_self (set_callbacks []) ;;;
         on_world (tx_commit tx) ;;;
         run_callbacks pending)
        (if create_new_transaction then
           con <- the_connection "transaction" ;;
           update_self (set_transaction (Some (transaction_on con))) ;;;
           on_world (tx_start (transaction_on con))
         else
           update_self (set_done true) ;;;
           update_self (set_transaction None))
  | None => raise (DatabaseError "No transaction to commit")
  end.

(** [__aexit__(extype, ex, tb)]. *)
Definition __aexit__ (extype : option exn) : M env unit :=
  try_finally
    (t <- read_self transaction ;;
     match t with
     | Some tx =>
         a <- read_self autocommit ;;
         if (match extype with Some _ => true | None => false end) || negb a
         then on_world (tx_rollback tx)
         else if a then commit false
         else ret tt
     | None => ret tt
     end)
    (con <- read_self connection ;;
     update_self (set_transaction None) ;;;
     update_self (set_connection None) ;;;
     update_self (set_done true) ;;;
     p <- read_self pool ;;
     on_world (pool_release p con)).

(** *** Queries *)

Definition execute (query : string) (args : list pyval) : M env response :=
  t <- read_self transaction ;;
  match t with
  | Some _ => con <- the_connection "execute" ;; on_world (con_execute con query args)
  | None => raise (DatabaseError "No transaction in progress")
  end.

Definition executemany (command : string) (args : list (list pyval)) : M env unit :=
  t <- read_self transaction ;;
  match t with
  | Some _ => con <- the_connection "executemany" ;;
      on_world (con_executemany con command args)
  | None => raise (DatabaseError "No transaction in progress")
  end.

Definition fetch (query : string) (args : list pyval) : M env (list (list pyval)) :=
  t <- read_self transaction ;;
  match t with
  | Some _ => con <- the_connection "fetch" ;; on_world (con_fetch con query args)
  | None => raise (DatabaseError "No transaction in progress")
  end.

Definition fetchval (query : string) (args : list pyval) (column : nat) : M env pyval :=
  t <- read_self transaction ;;
  match t with
  | Some _ => con <- the_connection "fetchval" ;;
      on_world (con_fetchval con query args column)
  | None => raise (DatabaseError "No transaction in progress")
  end.

Definition fetchrow (query : string) (args : list pyval)
  : M env (option (list pyval)) :=
  t <- read_self transaction ;;
  match t with
  | Some _ => con <- the_connection "fetchrow" ;; on_world (con_fetchrow con query args)
  | None => raise (DatabaseError "No transaction in progress")
  end.

(** The end of [update]: send the statement and look at the answer. *)
Definition send (query : string) (arglist : list pyval) : M env response :=
  con <- the_connection "execute" ;;
  resp <- on_world (con_execute con query arglist) ;;
  if reports_error resp then raise (DatabaseErrorResp resp)
  else ret resp.

(** [update(tablename, update_args, query_args)]. *)
Definition update (tablename : string) (update_args query_args : pyarg)
  : M env response :=
  t <- read_self transaction ;;
  match t with
  | None => raise (DatabaseError "No transaction in progress")
  | Some _ =>
      let query := ("UPDATE " ++ tablename ++ " SET ")%string in
      match as_items update_args with
      | None => raise (DatabaseError "expected dict or list for update_args")
      | Some items =>
          match render items [] 1 [] with
          | inl e => raise e
          | inr (setstmts, qnum, arglist) =>
              let query := (query ++ join ", " setstmts)%string in
              match as_items query_args with
              | Some conditions =>
                  let query := (query ++ " WHERE ")%string in
                  match render conditions [] qnum arglist with
                  | inl e => raise e
                  | inr (wherestmts, _, arglist) =>
                      let query := (query ++ join " AND " wherestmts)%string in
                      send query arglist
                  end
              | None =>
                  match query_args with
                  | ArgNone => send query arglist
                  | _ =>
                      raise (DatabaseError
                               "expected dict or list or None for query_args")
                  end
              end
          end
      end
  end.

End Runtime.

(** *** The statement of [update], in the words of its description *)

(** [k = $i] for each item, numbered from [first]. *)
Definition numbered (first : nat) (items : list (string * pyval)) : list string :=
  map (fun ik => (fst (snd ik) ++ " = $" ++ str_of_nat (fst ik))%string)
      (combine (seq first (length items)) items).

(** [UPDATE table SET k1 = $1, k2 = $2, ...] followed, with conditions, by
    [ WHERE c1 = $n AND c2 = $n+1 ...]. *)
Definition update_statement (table : string) (assignments : list (string * pyval))
  (conditions : option (list (string * pyval))) : string :=
  ("UPDATE " ++ table ++ " SET " ++ join ", " (numbered 1 assignments) ++
   match conditions with
   | Some c => " WHERE " ++ join " AND " (numbered (1 + length assignments) c)
   | None => ""
   end)%string.

(** All assignment values, then all condition values. *)
Definition bound_values (assignments : list (string * pyval))
  (conditions : option (list (string * pyval))) : list pyval :=
  map snd assignments ++
  match conditions with
  | Some c => map snd c
  | None => []
  end.

(** The pairs that the elements stand for, or the exception of the first
    element that cannot be unpacked. *)
Fixpoint unpack_all (elems : list pyelem) : exn + list (string * pyval) :=
  match elems with
  | [] => inr []
  | x :: rest =>
      match unpack x with
      | inl e => inl e
      | inr kv =>
          match unpack_all rest with
          | inl e => inl e
          | inr items => inr (kv :: items)
          end
      end
  end.

(** What [update] makes of an argument: it accepts it and reads pairs from
    it, or an element of it cannot be unpacked, or it is of no type that
    [update] takes. *)
Inductive reading (A : Type) : Type :=
| Accepted (a : A)
| Unpacking (e : exn)
| Rejected.
Arguments Accepted {A} a.
Arguments Unpacking {A} e.
Arguments Rejected {A}.

(** The assignments that [update_args] stands for. *)
Definition read_items (a : pyarg) : reading (list (string * pyval)) :=
  match as_items a with
  | None => Rejected
  | Some elems =>
      match unpack_all elems with
      | inl e => Unpacking e
      | inr items => Accepted items
      end
  end.

(** The conditions that [query_args] stands for; [None] stands for no
    condition. *)
Definition read_conditions (a : pyarg) : reading (option (list (string * pyval))) :=
  match a with
  | ArgNone => Accepted None
  | _ =>
      match read_items a with
      | Accepted items => Accepted (Some items)
      | Unpacking e => Unpacking e
      | Rejected => Rejected
      end
  end.

(** *** Reading the events *)

(** What [on_commit] makes of the callback list. *)
Definition register (c : nat) (l : list nat) : list nat :=
  if existsb (Nat.eqb c) l then l else l ++ [c].

Definition register_all (cs l : list nat) : list nat :=
  fold_left (fun acc c => register c acc) cs l.

(** Running the callbacks [pending] in order while [registered] is the
    callback list of the scope: the callbacks that ran, the callback list
    afterwards, and the exception that stopped the run, if any. *)
Fixpoint callbacks_run (body_of : nat -> callback_body) (pending registered : list nat)
  : list nat * list nat * option exn :=
  match pending with
  | [] => ([], registered, None)
  | c :: rest =>
      let registered' := register_all (registers (body_of c)) registered in
      match fails (body_of c) with
      | Some e => ([c], registered', Some e)
      | None =>
          let '(ran, after, stopped) := callbacks_run body_of rest registered' in
          (c :: ran, after, stopped)
      end
  end.

Definition add_events (evs : list event) (w : world) : world :=
  {| registry := registry w; events := events w ++ evs; server := server w |}.

Definition is_release (ev : event) : bool :=
  match ev with
  | Release _ _ => true
  | _ => false
  end.

Definition is_commit (ev : event) : bool :=
  match ev with
  | Commit _ => true
  | _ => false
  end.

(** The callbacks that ran, in order. *)
Fixpoint fired (evs : list event) : list nat :=
  match evs with
  | [] => []
  | Fired c :: rest => c :: fired rest
  | _ :: rest => fired rest
  end.

(** The scope and the world after the failed acquisition is logged. *)
Definition after_failed_acquire (e : env) : env :=
  {| self := self e;
     outside := add_events [Acquire (pool (self e)) (timeout (self e));
                            LogException "Error acquiring connection"] (outside e) |}.

(** *** A driver and callbacks for tests *)

(** Acquisition fails with [ConnectionDoesNotExistError] on the pools
    listed as dead; the n-th commit fails when n is listed; every statement
    is answered by [answer]; new pools and connections are numbered by the
    number of events so far. *)
Definition test_driver (dead : list Pool) (failing_commits : list nat)
  (answer : response) : driver :=
  {| acquire_result := fun w p _ =>
       if existsb (Nat.eqb p) dead then Raise ConnectionDoesNotExistError
       else Ok (length (events w));
     release_result := fun _ _ _ => None;
     close_result := fun _ _ => None;
     create_pool_result := fun w _ => Ok (length (events w));
     start_result := fun _ _ => None;
     commit_result := fun w _ =>
       if existsb (Nat.eqb (S (length (filter is_commit (events w))))) failing_commits
       then Some (DriverError "could not serialize access")
       else None;
     rollback_result := fun _ _ => None;
     execute_result := fun _ _ _ _ => Ok answer;
     executemany_result := fun _ _ _ _ => None;
     fetch_result := fun _ _ _ _ => Ok [];
     fetchval_result := fun _ _ _ _ _ => Ok PyNone;
     fetchrow_result := fun _ _ _ _ => Ok None |}.

(** Callback 1 registers callback 3 when it runs; callback 2 is a
    coroutine function; callback 9 raises; the others only run. *)
Definition test_callbacks (c : nat) : callback_body :=
  match c with
  | 1 => {| is_coroutine := false; registers := [3]; fails := None |}
  | 2 => {| is_coroutine := true; registers := []; fails := None |}
  | 9 => {| is_coroutine := false; registers := [];
            fails := Some (CallbackError "callback 9") |}
  | _ => {| is_coroutine := false; registers := []; fails := None |}
  end.

Definition quiet_world (r : option Pool) : world :=
  {| registry := r; events := []; server := Migration.start Migration.empty_database |}.

(** A scope on [pool] that holds [con] with a transaction in progress. *)
Definition entered (p : Pool) (a : bool) (con : Connection) (cbs : list nat) : scope :=
  {| timeout := None; connection := Some con;
     transaction := Some (transaction_on con);
     autocommit := a; pool := p; done := false; callbacks := cbs |}.

End Scope.

(** ** Pool construction: [create_pool] *)

Module PoolSetup.

(** [min_size] and [max_size] are ints, or strings when they come from a
    ConfigParser. *)
Inductive size_arg : Type :=
| SizeInt (n : Z)
| SizeStr (s : string).

(** An [ssl.SSLContext], as far as the module configures one. *)
Record ssl_context : Type := {
  check_hostname : bool;
  verify_certificates : bool       (* [verify_mode] is not [ssl.CERT_NONE] *)
}.

(** [SSL_CTX]: the default context with [check_hostname = False] and
    [verify_mode = ssl.CERT_NONE]. *)
Definition SSL_CTX : ssl_context :=
  {| check_hostname := false; verify_certificates := false |}.

(** The [ssl] argument: [None], a bool, or a context. *)
Inductive ssl_arg : Type :=
| SslNone
| SslBool (b : bool)
| SslContext (ctx : ssl_context).

(** The values of the keyword arguments handed on to the pool. *)
Inductive kwvalue : Type :=
| KwNone
| KwObject (id : nat)              (* a class, a hook, a number, ... *)
| KwContext (ctx : ssl_context).

(** [connect_kwargs], a dict: [d[k] = v] replaces the value of a key that
    is there and appends a new key otherwise. *)
Definition kwargs : Type := list (string * kwvalue).

Fixpoint dict_set (k : string) (v : kwvalue) (d : kwargs) : kwargs :=
  match d with
  | [] => [(k, v)]
  | (k', v') :: rest =>
      if String.eqb k k' then (k, v) :: rest
      else (k', v') :: dict_set k v rest
  end.

Fixpoint dict_get (k : string) (d : kwargs) : option kwvalue :=
  match d with
  | [] => None
  | (k', v') :: rest => if String.eqb k k' then Some v' else dict_get k rest
  end.

(** What the installed asyncpg has: the slot [_connection_class] (0.11),
    the class [PoolConnectionHolder] (0.10), the slot [_init] (0.9). *)
Record asyncpg_version : Type := {
  has_connection_class_slot : bool;
  has_PoolConnectionHolder : bool;
  has_init_slot : bool
}.

(** The call [SafePool(dsn, min_size=..., max_size=..., max_queries=...,
    loop=..., setup=..., **connect_kwargs)] that [create_pool] ends with. *)
Record pool_call : Type := {
  call_dsn : kwvalue;
  call_min_size : Z;
  call_max_size : Z;
  call_max_queries : kwvalue;
  call_loop : kwvalue;
  call_setup : kwvalue;
  call_kwargs : kwargs
}.

(** What [create_pool] has when it gets to its last line: the arguments
    of the call, unless [int] has raised [ValueError] on a size. *)
Inductive outcome (A : Type) : Type :=
| Built (a : A)
| NotAnInt (literal : string).
Arguments Built {A} a.
Arguments NotAnInt {A} literal.

Section Python.

(** [int(s)] for a string: the integer, or nothing when it raises
    [ValueError]; [repr(s)], which the message of that error holds. *)
Variable int_of_str : string -> option Z.
Variable repr : string -> string.
Variable asyncpg : asyncpg_version.

(** [SafePool(...)], that is [asyncpg.pool.Pool.__init__], which is not of
    this repository: it answers the pool, or raises, as it does for a
    [max_size] that is not positive or a negative [min_size]. *)
Variable pool_object : Type.
Variable SafePool : pool_call -> result pool_object.

(** [if isinstance(size, str): size = int(size)]. *)
Definition as_int (size : size_arg) : outcome Z :=
  match size with
  | SizeInt n => Built n
  | SizeStr s =>
      match int_of_str s with
      | Some n => Built n
      | None => NotAnInt s
      end
  end.

(** The [try: ... except: ...] block that probes the asyncpg version. *)
Definition version_kwargs (max_inactive_connection_lifetime init connection_class : kwvalue)
  (connect_kwargs : kwargs) : kwargs :=
  let connect_kwargs :=
    if has_connection_class_slot asyncpg
    then dict_set "connection_class" connection_class connect_kwargs
    else connect_kwargs in
  if has_PoolConnectionHolder asyncpg then
    dict_set "init" init
      (dict_set "max_inactive_connection_lifetime" max_inactive_connection_lifetime
         connect_kwargs)
  else if has_init_slot asyncpg then dict_set "init" init connect_kwargs
  else connect_kwargs.

(** [if ssl: if ssl is True: ssl = SSL_CTX; connect_kwargs['ssl'] = ssl]. *)
Definition ssl_kwargs (ssl : ssl_arg) (connect_kwargs : kwargs) : kwargs :=
  match ssl with
  | SslNone => connect_kwargs
  | SslBool false => connect_kwargs
  | SslBool true => dict_set "ssl" (KwContext SSL_CTX) connect_kwargs
  | SslContext ctx => dict_set "ssl" (KwContext ctx) connect_kwargs
  end.

(** [create_pool(dsn, *, min_size, max_size, max_queries,
    max_inactive_connection_lifetime, setup, loop, init, ssl,
    connection_class, **connect_kwargs)] up to its last line: the arguments
    that [SafePool] is called with. *)
Definition pool_arguments (dsn : kwvalue) (min_size max_size : size_arg)
  (max_queries max_inactive_connection_lifetime setup loop init : kwvalue)
  (ssl : ssl_arg) (connection_class : kwvalue) (connect_kwargs : kwargs)
  : outcome pool_call :=
  let connect_kwargs :=
    version_kwargs max_inactive_connection_lifetime init connection_class
      connect_kwargs in
  match as_int min_size with
  | Built min_size =>
      match as_int max_size with
      | Built max_size =>
          let min_size := if (max_size <? min_size)%Z then max_size else min_size in
          let connect_kwargs := ssl_kwargs ssl connect_kwargs in
          Built {| call_dsn := dsn; call_min_size := min_size; call_max_size := max_size;
                call_max_queries := max_queries; call_loop := loop;
                call_setup := setup; call_kwargs := connect_kwargs |}
      | NotAnInt literal => NotAnInt literal
      end
  | NotAnInt literal => NotAnInt literal
  end.

(** The [ValueError] of [int(literal)]. *)
Definition int_error (literal : string) : exn :=
  ValueError ("invalid literal for int() with base 10: " ++ repr literal).

(** [create_pool(...)]: its last line is [return SafePool(dsn, min_size=...,
    max_size=..., max_queries=..., loop=..., setup=..., **connect_kwargs)]. *)
Definition create_pool (dsn : kwvalue) (min_size max_size : size_arg)
  (max_queries max_inactive_connection_lifetime setup loop init : kwvalue)
  (ssl : ssl_arg) (connection_class : kwvalue) (connect_kwargs : kwargs)
  : result pool_object :=
  match pool_arguments dsn min_size max_size max_queries
          max_inactive_connection_lifetime setup loop init ssl connection_class
          connect_kwargs with
  | Built call => SafePool call
  | NotAnInt literal => Raise (int_error literal)
  end.

End Python.

(** [int] on the strings of decimal digits, for tests. *)
Definition test_int (s : string) : option Z :=
  match s with
  | EmptyString => None
  | _ =>
      match NilEmpty.uint_of_string s with
      | Some d => Some (Z.of_nat (Nat.of_uint d))
      | None => None
      end
  end.

Definition asyncpg_0_12 : asyncpg_version :=
  {| has_connection_class_slot := true; has_PoolConnectionHolder := true;
     has_init_slot := true |}.

(** [repr] on the strings that need no escape, for tests. *)
Definition test_repr (s : string) : string := "'" ++ s ++ "'".

(** A pool constructor for tests, with the checks of sizes that asyncpg
    makes; the pool is the call that made it. *)
Definition test_SafePool (call : pool_call) : result pool_call :=
  if (call_max_size call <=? 0)%Z
  then Raise (ValueError "max_size is expected to be greater than zero")
  else if (call_min_size call <? 0)%Z
  then Raise (ValueError "min_size is expected to be greater or equal to zero")
  else if (call_max_size call <? call_min_size call)%Z
  then Raise (ValueError "min_size is greater than max_size")
  else Ok call.

End PoolSetup.

(** ** Request handlers: [with_database] and [DatabaseMixin] *)

Module Handlers.

(** An object with the mixin: [_dbcontext] is unset until [db] is read. *)
Record handler : Type := {
  _dbcontext : option Scope.scope
}.

Record henv : Type := {
  this : handler;
  around : Scope.world
}.

Section Runtime.

Variable drv : Scope.driver.
Variable body_of : nat -> Scope.callback_body.
Variable fs : string -> option string.
Variable run_script : string -> Migration.database -> option exn * Migration.database.
Variable peer : nat -> Migration.database -> Migration.database.

(** [DatabaseMixin.db]: the context of the handler, created on the default
    pool at the first read. *)
Definition db : M henv Scope.scope :=
  fun h =>
    match _dbcontext (this h) with
    | Some s => (Ok s, h)
    | None =>
        match Scope.get_database_pool (around h) with
        | (Ok p, w) =>
            let s := Scope.__init__ p false None in
            (Ok s, {| this := {| _dbcontext := Some s |}; around := w |})
        | (Raise e, w) => (Raise e, {| this := this h; around := w |})
        | (OutOfFuel, w) => (OutOfFuel, {| this := this h; around := w |})
        end
    end.

(** A method of the context [self.db]: the context is one object, so what
    the method does to it is what the handler sees afterwards. *)
Definition on_db {A} (m : M Scope.env A) : M henv A :=
  s <- db ;;
  fun h =>
    let (r, e) := m {| Scope.self := s; Scope.outside := around h |} in
    (r, {| this := {| _dbcontext := Some (Scope.self e) |};
           around := Scope.outside e |}).

(** [with_database(fn)]: [async with self.db: r = fn(self, ...); if
    iscoroutine(r): r = await r; return r].  [__aexit__] answers [None], so
    an exception of the block is raised again after it.  The context that
    is left is the object that was entered: a handler reaches it through
    [self.db] and does not assign [_dbcontext], so it is the context the
    handler has after the block. *)
Definition with_database {A} (fuel : nat) (fn : M henv A) : M henv A :=
  on_db (Scope.__aenter__ drv fs run_script peer fuel) ;;;
  fun h =>
    match fn h with
    | (Ok r, h1) => (on_db (Scope.__aexit__ drv body_of None) ;;; ret r) h1
    | (Raise x, h1) => (on_db (Scope.__aexit__ drv body_of (Some x)) ;;; raise x) h1
    | (OutOfFuel, h1) => (OutOfFuel, h1)
    end.

End Runtime.

End Handlers.

(** ** What an operation leaves as it is *)

(** [keeps R m]: whatever [m] answers, the state it leaves is related by
    [R] to the state it started in. *)
Definition keeps {S A : Type} (R : S -> S -> Prop) (m : M S A) : Prop :=
  forall s, R s (snd (m s)).

Module Kept.

(** The registry is the same. *)
Definition registry (w w' : Scope.world) : Prop :=
  Scope.registry w' = Scope.registry w.

(** The same callbacks have run. *)
Definition fired (w w' : Scope.world) : Prop :=
  Scope.fired (Scope.events w') = Scope.fired (Scope.events w).

(** The database server is as it was. *)
Definition server (w w' : Scope.world) : Prop :=
  Scope.server w' = Scope.server w.

(** Nothing is taken from the events: they are the old ones and more. *)
Definition history (w w' : Scope.world) : Prop :=
  exists evs, Scope.events w' = Scope.events w ++ evs.

(** A relation on worlds, for a scope in its world. *)
Definition outside (R : Scope.world -> Scope.world -> Prop) (e e' : Scope.env) : Prop :=
  R (Scope.outside e) (Scope.outside e').

(** The scope has the same pending callbacks and no callback has run. *)
Definition callbacks (e e' : Scope.env) : Prop :=
  Scope.callbacks (Scope.self e') = Scope.callbacks (Scope.self e) /\
  fired (Scope.outside e) (Scope.outside e').

End Kept.

(** ** More servers, peers and drivers for tests *)

Module Doubles.

(** A server on which the process is interrupted while the script [sql]
    runs. *)
Definition interrupted_server (sql : string) (text : string) (d : Migration.database)
  : option exn * Migration.database :=
  if String.eqb text sql then (Some KeyboardInterrupt, d)
  else Migration.test_server [] text d.

(** A server on which a script creates the object of its name, and fails
    when that object exists already: what a script does depends on the
    database it finds. *)
Definition creating_server (sql : string) (d : Migration.database)
  : option exn * Migration.database :=
  if existsb (String.eqb sql) (Migration.objects d)
  then (Some (DriverError ("DuplicateTableError: " ++ sql)), d)
  else (None, {| Migration.version_table := Migration.version_table d;
                 Migration.objects := Migration.objects d ++ [sql] |}).

(** A runner on a fresh database, as another process sees it: the version
    table is created during the first sleep and gets its row during the
    second. *)
Definition bootstrapping_peer (t : nat) (d : Migration.database) : Migration.database :=
  match Migration.version_table d with
  | None => Migration.with_version_table (Some []) d
  | Some [] => Migration.with_version_table (Some [0%Z]) d
  | Some _ => d
  end.

(** No file exists. *)
Definition empty_fs (path : string) : option string := None.

(** The test driver, on a server that refuses to start a transaction. *)
Definition refusing_start (err : exn) : Scope.driver :=
  let d := Scope.test_driver [] [] RespNone in
  {| Scope.acquire_result := Scope.acquire_result d;
     Scope.release_result := Scope.release_result d;
     Scope.close_result := Scope.close_result d;
     Scope.create_pool_result := Scope.create_pool_result d;
     Scope.start_result := fun _ _ => Some err;
     Scope.commit_result := Scope.commit_result d;
     Scope.rollback_result := Scope.rollback_result d;
     Scope.execute_result := Scope.execute_result d;
     Scope.executemany_result := Scope.executemany_result d;
     Scope.fetch_result := Scope.fetch_result d;
     Scope.fetchval_result := Scope.fetchval_result d;
     Scope.fetchrow_result := Scope.fetchrow_result d |}.

(** The test driver, with pools whose acquisition raises [err]. *)
Definition refusing_acquire (err : exn) : Scope.driver :=
  let d := Scope.test_driver [] [] RespNone in
  {| Scope.acquire_result := fun _ _ _ => Raise err;
     Scope.release_result := Scope.release_result d;
     Scope.close_result := Scope.close_result d;
     Scope.create_pool_result := Scope.create_pool_result d;
     Scope.start_result := Scope.start_result d;
     Scope.commit_result := Scope.commit_result d;
     Scope.rollback_result := Scope.rollback_result d;
     Scope.execute_result := Scope.execute_result d;
     Scope.executemany_result := Scope.executemany_result d;
     Scope.fetch_result := Scope.fetch_result d;
     Scope.fetchval_result := Scope.fetchval_result d;
     Scope.fetchrow_result := Scope.fetchrow_result d |}.

(** The test driver, on a server that parses what it is sent: a statement
    that ends after [SET] is refused with a syntax error. *)
Definition parsing_driver : Scope.driver :=
  let d := Scope.test_driver [] [] RespNone in
  {| Scope.acquire_result := Scope.acquire_result d;
     Scope.release_result := Scope.release_result d;
     Scope.close_result := Scope.close_result d;
     Scope.create_pool_result := Scope.create_pool_result d;
     Scope.start_result := Scope.start_result d;
     Scope.commit_result := Scope.commit_result d;
     Scope.rollback_result := Scope.rollback_result d;
     Scope.execute_result := fun _ _ query _ =>
       if String.eqb (substring (String.length query - 5) 5 query) " SET "
       then Raise (DriverError "PostgresSyntaxError: syntax error at end of input")
       else Ok (RespStatus "UPDATE 1");
     Scope.executemany_result := Scope.executemany_result d;
     Scope.fetch_result := Scope.fetch_result d;
     Scope.fetchval_result := Scope.fetchval_result d;
     Scope.fetchrow_result := Scope.fetchrow_result d |}.

(** A handler that has not read [db] yet, in a quiet world. *)
Definition new_handler (r : option Scope.Pool) : Handlers.henv :=
  {| Handlers.this := {| Handlers._dbcontext := None |};
     Handlers.around := Scope.quiet_world r |}.

End Doubles.

(** * Proofs *)

(** ** SafePool *)

Section SafePoolFacts.

Variable pool : Type.
Variable connection : Type.
Variable super_acquire : option nat -> M pool connection.
Variable release : connection -> M pool unit.
Variable is_closed : connection -> pool -> bool.

Lemma _acquire_open fuel timeout :
  forall p con p',
    SafePool._acquire super_acquire release is_closed fuel timeout p = (Ok con, p') ->
    is_closed con p' = false.
Proof.
  induction fuel as [|fuel IH]; intros p con p' H; simpl in H.
  - discriminate.
  - unfold bind in H.
    destruct (super_acquire timeout p) as [[c| |] p1] eqn:Hacq; try discriminate.
    unfold gets in H.
    destruct (is_closed c p1) eqn:Hc.
    + destruct (release c p1) as [[[]| |] p2]; try discriminate.
      eapply IH; eassumption.
    + inversion H; subst. exact Hc.
Qed.

Lemma _acquire_retries timeout :
  forall p cons p1,
    SafePool.discards super_acquire release is_closed timeout p cons p1 ->
    forall con p2 fuel,
      super_acquire timeout p1 = (Ok con, p2) ->
      is_closed con p2 = false ->
      length cons < fuel ->
      SafePool._acquire super_acquire release is_closed fuel timeout p = (Ok con, p2).
Proof.
  induction 1 as [p|p c pa pb cons p' Hacq Hc Hrel _ IH];
    intros con p2 fuel Hlast Hopen Hfuel.
  - destruct fuel as [|fuel]; [simpl in Hfuel; lia|].
    simpl. unfold bind, gets. rewrite Hlast, Hopen. reflexivity.
  - destruct fuel as [|fuel]; [simpl in Hfuel; lia|].
    simpl. unfold bind, gets. rewrite Hacq, Hc, Hrel.
    apply IH; auto. simpl in Hfuel. lia.
Qed.

(** C1. Whatever the driver's pool does, a connection that
    [SafePool._acquire] returns is not closed; and when the driver hands
    back any number of closed connections before an open one, each closed
    one is released and, given fuel for the retries, the open one is what
    the caller gets. *)
Theorem C1_acquire_never_returns_closed (timeout : option nat) (p : pool) :
  (forall fuel con p',
      SafePool._acquire super_acquire release is_closed fuel timeout p = (Ok con, p') ->
      is_closed con p' = false) /\
  (forall cons p1 con p2 fuel,
      SafePool.discards super_acquire release is_closed timeout p cons p1 ->
      super_acquire timeout p1 = (Ok con, p2) ->
      is_closed con p2 = false ->
      length cons < fuel ->
      SafePool._acquire super_acquire release is_closed fuel timeout p = (Ok con, p2)).
Proof.
  split.
  - intros fuel con p' H. eapply _acquire_open; eassumption.
  - intros cons p1 con p2 fuel Hd Hacq Hopen Hfuel.
    eapply _acquire_retries; eassumption.
Qed.

End SafePoolFacts.

(** Three connections died while idle; the fourth acquisition is the one
    that reaches the caller, and the three dead ones were released. *)
Lemma C1_witness :
  let dead k := {| SafePool.con_id := k; SafePool.con_closed := true |} in
  let live k := {| SafePool.con_id := k; SafePool.con_closed := false |} in
  let p := {| SafePool.idle := [dead 1; dead 2; dead 3; live 4; dead 5];
              SafePool.released := [] |} in
  SafePool._acquire SafePool.test_acquire SafePool.test_release
    SafePool.test_is_closed 4 (Some 10) p
  = (Ok (live 4), {| SafePool.idle := [dead 5]; SafePool.released := [1; 2; 3] |}).
Proof.
  intros dead live p.
  refine (proj2 (C1_acquire_never_returns_closed _ _ SafePool.test_acquire
            SafePool.test_release SafePool.test_is_closed (Some 10) p)
            [dead 1; dead 2; dead 3]
            {| SafePool.idle := [live 4; dead 5]; SafePool.released := [1; 2; 3] |}
            (live 4) _ 4 _ _ _ _).
  - repeat (eapply SafePool.discards_cons; [reflexivity | reflexivity | reflexivity |]).
    apply SafePool.discards_nil.
  - reflexivity.
  - reflexivity.
  - simpl. lia.
Defined.

(** ** Schema migration *)

Section MigrationFacts.

Import Migration.

Variable fs : string -> option string.
Variable run_script : string -> database -> option exn * database.
Variable peer : nat -> database -> database.

Lemma scripts_present_tail V text texts :
  scripts_present fs V (text :: texts) -> scripts_present fs (V + 1) texts.
Proof.
  intros H i t Hi. specialize (H (S i) t Hi).
  replace (V + 1 + 1 + Z.of_nat i)%Z with (V + 1 + Z.of_nat (S i))%Z by lia.
  exact H.
Qed.

Lemma scripts_present_head V text texts :
  scripts_present fs V (text :: texts) -> fs (migrate_path (V + 1)) = Some text.
Proof.
  intros H. specialize (H 0 text eq_refl).
  replace (V + 1 + Z.of_nat 0)%Z with (V + 1)%Z in H by lia. exact H.
Qed.

Lemma latest_script_found texts :
  forall V fuel w,
    scripts_present fs V texts ->
    fs (migrate_path (V + 1 + Z.of_nat (length texts))) = None ->
    length texts < fuel ->
    latest_script fs fuel V w = (Ok (V + Z.of_nat (length texts))%Z, w).
Proof.
  induction texts as [|text texts IH]; intros V fuel w Hp Hgap Hfuel;
    (destruct fuel as [|fuel]; [simpl in Hfuel; lia|]); simpl latest_script.
  - simpl in Hgap. replace (V + 1 + 0)%Z with (V + 1)%Z in Hgap by lia.
    unfold path_exists. rewrite Hgap. simpl. unfold ret.
    f_equal. f_equal. lia.
  - unfold path_exists. rewrite (scripts_present_head _ _ _ Hp). cbn [negb].
    rewrite (IH (V + 1)%Z fuel w).
    + f_equal. f_equal. simpl length. lia.
    + eapply scripts_present_tail; eassumption.
    + simpl length in Hgap.
      replace (V + 1 + 1 + Z.of_nat (length texts))%Z
        with (V + 1 + Z.of_nat (S (length texts)))%Z by lia.
      exact Hgap.
    + simpl in Hfuel. lia.
Qed.

Lemma apply_scripts_step V w fuel text :
  fs (migrate_path (V + 1)) = Some text ->
  apply_scripts fs run_script (S fuel) V w
  = match run_script text (db w) with
    | (None, d') =>
        apply_scripts fs run_script fuel (V + 1)
          (with_db d' (sent (Execute (Script text)) (announced V w)))
    | (Some e, d') =>
        if is_Exception e
        then (Ok (V, Some e), with_db d' (sent (Execute (Script text)) (announced V w)))
        else (Raise e, with_db d' (sent (Execute (Script text)) (announced V w)))
    end.
Proof.
  intros Hfs. simpl apply_scripts. unfold path_exists, read_file. rewrite Hfs.
  unfold bind, log_info, modify, try_except, execute, ret, announced. simpl.
  destruct (run_script text (db w)) as [[e|] d'].
  - destruct (is_Exception e); simpl.
    + replace (V + 1 - 1)%Z with V by lia. reflexivity.
    + reflexivity.
  - reflexivity.
Qed.

Lemma apply_scripts_stop V w fuel :
  fs (migrate_path (V + 1)) = None ->
  apply_scripts fs run_script (S fuel) V w = (Ok (V, None), w).
Proof.
  intros Hfs. simpl apply_scripts. unfold path_exists. rewrite Hfs. unfold ret.
  replace (V + 1 - 1)%Z with V by lia. reflexivity.
Qed.

Lemma apply_scripts_good good :
  forall V w fuel rest,
    scripts_present fs V (good ++ rest) ->
    accepted run_script good (db w) = true ->
    apply_scripts fs run_script (length good + fuel) V w
    = apply_scripts fs run_script fuel (V + Z.of_nat (length good)) (ran run_script good V w).
Proof.
  induction good as [|text good IH]; intros V w fuel rest Hp Hok.
  - simpl. replace (V + 0)%Z with V by lia. reflexivity.
  - simpl app in Hp. simpl length. simpl Nat.add.
    rewrite (apply_scripts_step V w _ text (scripts_present_head _ _ _ Hp)).
    cbn [accepted] in Hok. simpl ran.
    destruct (run_script text (db w)) as [[e|] d']; [discriminate Hok|]. simpl snd.
    rewrite (IH (V + 1)%Z _ fuel rest).
    + replace (V + 1 + Z.of_nat (length good))%Z
        with (V + Z.of_nat (S (length good)))%Z by lia.
      reflexivity.
    + eapply scripts_present_tail; eassumption.
    + exact Hok.
Qed.

Lemma ran_calls texts :
  forall V w, calls (ran run_script texts V w) = calls w ++ map (fun t => Execute (Script t)) texts.
Proof.
  induction texts as [|t texts IH]; intros V w; simpl.
  - now rewrite app_nil_r.
  - rewrite IH. simpl. now rewrite <- app_assoc.
Qed.

Lemma ran_db texts :
  forall V w, db (ran run_script texts V w) = db_through run_script texts (db w).
Proof.
  induction texts as [|t texts IH]; intros V w; [reflexivity|].
  cbn [ran]. rewrite IH. reflexivity.
Qed.

Lemma update_version_recorded v w :
  recorded_version (db w) <> None ->
  execute run_script (UpdateVersion v) w
  = (Ok tt, with_db (updated v (db w)) (sent (Execute (UpdateVersion v)) w))
  /\ recorded_version (updated v (db w)) = Some v.
Proof.
  unfold updated, recorded_version, execute. simpl.
  destruct (version_table (db w)) as [[|v0 rows]|]; try congruence.
  intros _. split; reflexivity.
Qed.

Lemma create_tables_existing fuel w V :
  fs bootstrap_path <> None ->
  recorded_version (db w) = Some V ->
  create_tables fs run_script fuel w
  = (reached <- apply_scripts fs run_script fuel V ;;
     execute run_script (UpdateVersion (fst reached)) ;;;
     match snd reached with
     | Some e => raise e
     | None => ret tt
     end)
      (logged (LogInfo ("got database version: " ++ str_of_Z V)) (sent Fetchrow w)).
Proof.
  intros Hboot Hv. unfold create_tables, path_exists.
  destruct (fs bootstrap_path); [|congruence]. cbn [negb].
  unfold recorded_version in Hv.
  destruct (version_table (db w)) as [[|v rows]|] eqn:Ht; try discriminate.
  inversion Hv; subst v.
  unfold bind at 1. unfold try_except, bind at 1. unfold fetchrow. rewrite Ht.
  reflexivity.
Qed.

Lemma nth_error_middle (good : list string) bad later :
  nth_error (good ++ bad :: later) (length good) = Some bad.
Proof.
  induction good as [|g good IH]; simpl; auto.
Qed.

(** The run of [create_tables] on an existing database in which every
    script is accepted. *)
Lemma create_tables_all_run V w fuel texts :
  fs bootstrap_path <> None ->
  recorded_version (db w) = Some V ->
  scripts_present fs V texts ->
  fs (migrate_path (V + 1 + Z.of_nat (length texts))) = None ->
  accepted run_script texts (db w) = true ->
  recorded_version (db_through run_script texts (db w)) <> None ->
  length texts < fuel ->
  create_tables fs run_script fuel w
  = (Ok tt,
     with_db (updated (V + Z.of_nat (length texts)) (db_through run_script texts (db w)))
       (sent (Execute (UpdateVersion (V + Z.of_nat (length texts))))
          (ran run_script texts V
             (logged (LogInfo ("got database version: " ++ str_of_Z V))
                (sent Fetchrow w))))).
Proof.
  intros Hboot Hv Hp Hgap Hok Hrow Hfuel.
  set (w0 := logged (LogInfo ("got database version: " ++ str_of_Z V)) (sent Fetchrow w)).
  rewrite (create_tables_existing fuel w V Hboot Hv). fold w0.
  replace fuel with (length texts + S (fuel - length texts - 1)) by lia.
  set (f := fuel - length texts - 1).
  unfold bind at 1.
  rewrite (apply_scripts_good texts V w0 (S f) []);
    [|rewrite app_nil_r; exact Hp|exact Hok].
  rewrite apply_scripts_stop
    by (replace (V + Z.of_nat (length texts) + 1)%Z
          with (V + 1 + Z.of_nat (length texts))%Z by lia; exact Hgap).
  cbn [fst snd].
  assert (Hrec : recorded_version (db (ran run_script texts V w0)) <> None)
    by (rewrite ran_db; exact Hrow).
  destruct (update_version_recorded (V + Z.of_nat (length texts)) _ Hrec) as [Hex _].
  unfold bind. rewrite Hex, ran_db. reflexivity.
Qed.



(** C6. On a fresh database (no version table) with the bootstrap script
    present and accepted by the server, [create_tables] creates the version
    table, inserts the row 0, runs the bootstrap script on that database
    and no other script, and returns.  Without migration scripts nothing is
    logged and the version is not read again; with migration scripts the
    version is read once more, and two warnings are logged exactly when it
    differs from the number of the latest script. *)
Theorem C6_fresh_database_bootstrap (w : world) (fuel : nat) (boot : string)
  (d2 : database) (texts : list string) :
  fs bootstrap_path = Some boot ->
  version_table (db w) = None ->
  run_script boot (with_version_table (Some [0%Z]) (db w)) = (None, d2) ->
  scripts_present fs 0 texts ->
  fs (migrate_path (0 + 1 + Z.of_nat (length texts))) = None ->
  length texts < fuel ->
  (texts = [] ->
   create_tables fs run_script fuel w
   = (Ok tt, {| db := d2; clock := clock w;
                calls := calls w ++ fresh_calls boot; log := log w |})) /\
  (forall v, texts <> [] -> recorded_version d2 = Some v ->
   create_tables fs run_script fuel w
   = (Ok tt, {| db := d2; clock := clock w;
                calls := calls w ++ fresh_calls boot ++ [Fetchrow];
                log := log w ++
                  (if (v =? Z.of_nat (length texts))%Z then []
                   else [LogWarning version_not_set_message;
                         LogWarning ("DB version: " ++ str_of_Z v
                                     ++ ", latest migration script: "
                                     ++ str_of_Z (Z.of_nat (length texts)))]) |})).
Proof.
  intros Hboot Ht Hrun Hp Hgap Hfuel.
  assert (Hlat : forall w1, latest_script fs fuel 0%Z w1
                            = (Ok (Z.of_nat (length texts)), w1)).
  { intros w1. rewrite (latest_script_found texts 0%Z fuel w1 Hp Hgap Hfuel).
    do 2 f_equal. }
  unfold with_version_table in Hrun.
  unfold create_tables, fresh_database, path_exists, read_file.
  rewrite Hboot. cbn [negb].
  unfold bind, try_except, fetchrow, execute, ret, with_version_table, with_db, sent.
  rewrite Ht. cbn [db version_table objects clock calls log app].
  rewrite Ht. cbn [db version_table objects clock calls log app].
  rewrite Hrun. cbn [db version_table objects clock calls log app].
  rewrite Hlat. cbn [db version_table objects clock calls log app].
  unfold fresh_calls. rewrite <- !app_assoc. cbn [app].
  split.
  - intros ->. reflexivity.
  - intros v Hne Hv.
    destruct texts as [|t texts]; [congruence|].
    assert (Hpos : (0 <? Z.of_nat (length (t :: texts)))%Z = true)
      by (apply Z.ltb_lt; simpl length; lia).
    rewrite Hpos.
    unfold recorded_version in Hv.
    destruct (version_table d2) as [[|v0 rows]|] eqn:Hd2; try discriminate.
    inversion Hv; subst v0.
    unfold version_number, ret.
    cbn [db version_table objects clock calls log app]. rewrite Hd2.
    destruct (v =? Z.of_nat (length (t :: texts)))%Z; cbn [negb].
    + rewrite app_nil_r, <- !app_assoc. reflexivity.
    + unfold log_warning, modify, logged. cbn [db clock calls log].
      rewrite <- !app_assoc. reflexivity.
Qed.

Lemma poll_wait fuel expected w :
  not_ready expected (db w) ->
  poll peer (S fuel) expected w = poll peer fuel expected (waited peer w).
Proof.
  intros Hnr. simpl poll.
  unfold bind at 1. unfold try_except, bind at 1. unfold fetchrow.
  destruct Hnr as [Hnone | (v & Hv & Hne)].
  - rewrite Hnone. reflexivity.
  - unfold recorded_version in Hv.
    destruct (version_table (db w)) as [[|v0 rows]|]; try discriminate.
    inversion Hv; subst v0.
    unfold version_number, bind, ret.
    assert (Hneq : (expected =? v)%Z = false) by (apply Z.eqb_neq; congruence).
    rewrite Hneq. reflexivity.
Qed.




End MigrationFacts.


(** A fresh database: without migration scripts nothing is logged; with
    scripts 1 to 3 and a bootstrap script that leaves the version at 0,
    the two warnings are logged and [create_tables] still returns. *)
Lemma C6_witness :
  Migration.create_tables (Migration.test_fs 0) (Migration.test_server []) 1
    (Migration.start Migration.empty_database)
  = (Ok tt,
     {| Migration.db := {| Migration.version_table := Some [0%Z];
                           Migration.objects := ["bootstrap"] |};
        Migration.clock := 0;
        Migration.calls := Migration.fresh_calls "bootstrap";
        Migration.log := [] |}) /\
  Migration.create_tables (Migration.test_fs 3) (Migration.test_server []) 4
    (Migration.start Migration.empty_database)
  = (Ok tt,
     {| Migration.db := {| Migration.version_table := Some [0%Z];
                           Migration.objects := ["bootstrap"] |};
        Migration.clock := 0;
        Migration.calls := Migration.fresh_calls "bootstrap" ++ [Migration.Fetchrow];
        Migration.log :=
          [Migration.LogWarning Migration.version_not_set_message;
           Migration.LogWarning "DB version: 0, latest migration script: 3"] |}).
Proof.
  split.
  - refine (proj1 (C6_fresh_database_bootstrap (Migration.test_fs 0)
                     (Migration.test_server [])
                     (Migration.start Migration.empty_database) 1 "bootstrap"
                     {| Migration.version_table := Some [0%Z];
                        Migration.objects := ["bootstrap"] |}
                     [] _ _ _ _ _ _) _); try reflexivity.
    + intros [|i] text H; discriminate.
    + simpl. lia.
  - refine (proj2 (C6_fresh_database_bootstrap (Migration.test_fs 3)
                     (Migration.test_server [])
                     (Migration.start Migration.empty_database) 4 "bootstrap"
                     {| Migration.version_table := Some [0%Z];
                        Migration.objects := ["bootstrap"] |}
                     ["1"; "2"; "3"] _ _ _ _ _ _) 0%Z _ _); try reflexivity.
    + intros [|[|[|[|i]]]] text H; simpl in H; try discriminate;
        inversion H; reflexivity.
    + simpl. lia.
    + discriminate.
Defined.


(** ** The transaction scope *)

(** *** Strings, statements and the callback list *)

Section ScopeLists.

Import Scope.

Lemma string_app_assoc (a b c : string) : ((a ++ b) ++ c = a ++ (b ++ c))%string.
Proof.
  induction a as [|ch a IH]; simpl; [reflexivity | now rewrite IH].
Qed.

Lemma string_app_empty (a : string) : (a ++ "" = a)%string.
Proof.
  induction a as [|ch a IH]; simpl; [reflexivity | now rewrite IH].
Qed.

Lemma numbered_cons first k v items :
  numbered first ((k, v) :: items)
  = (k ++ " = $" ++ str_of_nat first)%string :: numbered (S first) items.
Proof. reflexivity. Qed.

Lemma render_numbered elems :
  forall items stmts qnum arglist,
    unpack_all elems = inr items ->
    render elems stmts qnum arglist
    = inr (stmts ++ numbered qnum items, qnum + length items, arglist ++ map snd items).
Proof.
  induction elems as [|x elems IH]; intros items stmts qnum arglist H.
  - inversion H. simpl. unfold numbered. simpl. now rewrite !app_nil_r, Nat.add_0_r.
  - cbn [unpack_all] in H. cbn [render].
    destruct (unpack x) as [e|[k v]]; [discriminate H|].
    destruct (unpack_all elems) as [e|rest]; [discriminate H|].
    inversion H; subst items.
    rewrite (IH rest _ _ _ eq_refl), numbered_cons. simpl length. simpl map.
    rewrite <- !app_assoc. simpl app.
    replace (S qnum + length rest) with (qnum + S (length rest)) by lia.
    reflexivity.
Qed.

Lemma render_unpacking elems :
  forall e stmts qnum arglist,
    unpack_all elems = inl e ->
    render elems stmts qnum arglist = inl e.
Proof.
  induction elems as [|x elems IH]; intros e stmts qnum arglist H.
  - discriminate H.
  - cbn [unpack_all] in H. cbn [render].
    destruct (unpack x) as [e0|[k v]]; [now inversion H|].
    destruct (unpack_all elems) as [e1|rest]; [|discriminate H].
    inversion H; subst e1. now apply IH.
Qed.

Lemma unpack_raises x e :
  unpack x = inl e -> (exists msg, e = TypeError msg) \/ (exists msg, e = ValueError msg).
Proof.
  assert (Hlen : forall n, exists msg, unpack_error n = ValueError msg).
  { intros n. unfold unpack_error. destruct (Nat.ltb n 2); eexists; reflexivity. }
  destruct x as [l|v]; cbn [unpack].
  - destruct l as [|k [|v [|w l]]]; intros H; inversion H;
      right; apply Hlen.
  - destruct v as [| b | z | s]; try (intros H; inversion H; left; eexists; reflexivity).
    destruct s as [|a [|b [|c s]]]; intros H; inversion H; right; apply Hlen.
Qed.

Lemma unpack_all_raises elems :
  forall e, unpack_all elems = inl e ->
            (exists msg, e = TypeError msg) \/ (exists msg, e = ValueError msg).
Proof.
  induction elems as [|x elems IH]; intros e H; [discriminate H|].
  cbn [unpack_all] in H.
  destruct (unpack x) as [e0|kv] eqn:Hx.
  - inversion H; subst e0. exact (unpack_raises x e Hx).
  - destruct (unpack_all elems) as [e1|rest]; [|discriminate H].
    inversion H; subst e1. now apply IH.
Qed.

Lemma unpack_all_pairs items : unpack_all (pairs items) = inr items.
Proof.
  induction items as [|[k v] items IH]; [reflexivity|].
  cbn [pairs map unpack_all unpack fst snd format_value].
  fold (pairs items). now rewrite IH.
Qed.

Lemma existsb_eqb_in c l : existsb (Nat.eqb c) l = true <-> In c l.
Proof.
  rewrite existsb_exists. split.
  - intros (x & Hin & Heq). apply Nat.eqb_eq in Heq. now subst.
  - intros Hin. exists c. split; [exact Hin | apply Nat.eqb_refl].
Qed.

Lemma register_in c l x : In x (register c l) <-> In x l \/ x = c.
Proof.
  unfold register. destruct (existsb (Nat.eqb c) l) eqn:Hex.
  - apply existsb_eqb_in in Hex. split; [auto|]. intros [H| ->]; assumption.
  - rewrite in_app_iff. simpl. intuition.
Qed.

Lemma register_NoDup c l : NoDup l -> NoDup (register c l).
Proof.
  intros Hl. unfold register. destruct (existsb (Nat.eqb c) l) eqn:Hex; [exact Hl|].
  assert (Hnot : ~ In c l).
  { intros Hin. apply existsb_eqb_in in Hin. congruence. }
  clear Hex. induction Hl as [|y l Hy Hl IH]; simpl.
  - constructor; [intros []|constructor].
  - constructor.
    + rewrite in_app_iff. simpl. intros [H|[H|[]]]; [auto|].
      apply Hnot. left. now subst.
    + apply IH. intros H. apply Hnot. now right.
Qed.

Lemma register_all_in cs :
  forall l x, In x (register_all cs l) <-> In x l \/ In x cs.
Proof.
  induction cs as [|c cs IH]; intros l x; simpl.
  - intuition.
  - rewrite IH, register_in. intuition.
Qed.

Lemma register_all_NoDup cs : forall l, NoDup l -> NoDup (register_all cs l).
Proof.
  induction cs as [|c cs IH]; intros l Hl; simpl; [exact Hl|].
  apply IH, register_NoDup, Hl.
Qed.

Lemma fired_app evs evs' : fired (evs ++ evs') = fired evs ++ fired evs'.
Proof.
  induction evs as [|ev evs IH]; simpl; [reflexivity|].
  destruct ev; simpl; rewrite ?IH; reflexivity.
Qed.

Lemma fired_map l : fired (map Fired l) = l.
Proof. induction l as [|c l IH]; simpl; [reflexivity | now rewrite IH]. Qed.

End ScopeLists.

Section CallbackRuns.

Import Scope.

Variable body_of : nat -> callback_body.

Lemma callbacks_run_all pending :
  forall registered ran after,
    callbacks_run body_of pending registered = (ran, after, None) -> ran = pending.
Proof.
  induction pending as [|c rest IH]; intros registered ran after H; simpl in H.
  - now inversion H.
  - destruct (fails (body_of c)); [discriminate|].
    destruct (callbacks_run body_of rest _) as [[ran' after'] stopped'] eqn:Hrun.
    inversion H; subst. f_equal. eapply IH. exact Hrun.
Qed.

Lemma callbacks_run_after pending :
  forall registered ran after stopped,
    callbacks_run body_of pending registered = (ran, after, stopped) ->
    forall x, In x after <->
              In x registered \/ exists p, In p ran /\ In x (registers (body_of p)).
Proof.
  induction pending as [|c rest IH]; intros registered ran after stopped H x; simpl in H.
  - inversion H; subst. split; [auto|]. intros [Hx|(p & [] & _)]. exact Hx.
  - destruct (fails (body_of c)).
    + inversion H; subst. rewrite register_all_in. split.
      * intros [Hx|Hx]; [auto|]. right. exists c. simpl. auto.
      * intros [Hx|(p & [<-|[]] & Hx)]; auto.
    + destruct (callbacks_run body_of rest _) as [[ran' after'] stopped'] eqn:Hrun.
      inversion H; subst. rewrite (IH _ _ _ _ Hrun x), register_all_in. split.
      * intros [[Hx|Hx]|(p & Hp & Hx)]; [auto| |].
        -- right. exists c. simpl. auto.
        -- right. exists p. simpl. auto.
      * intros [Hx|(p & [<-|Hp] & Hx)]; [auto|auto|].
        right. exists p. auto.
Qed.

Lemma callbacks_run_NoDup pending :
  forall registered ran after stopped,
    callbacks_run body_of pending registered = (ran, after, stopped) ->
    NoDup registered -> NoDup after.
Proof.
  induction pending as [|c rest IH]; intros registered ran after stopped H Hnd; simpl in H.
  - inversion H; subst. exact Hnd.
  - destruct (fails (body_of c)).
    + inversion H; subst. apply register_all_NoDup, Hnd.
    + destruct (callbacks_run body_of rest _) as [[ran' after'] stopped'] eqn:Hrun.
      inversion H; subst. eapply IH; [exact Hrun|]. apply register_all_NoDup, Hnd.
Qed.

End CallbackRuns.

(** *** The operations of the scope *)

Section ScopeFacts.

Import Scope.

Variable drv : driver.
Variable body_of : nat -> callback_body.
Variable fs : string -> option string.
Variable run_script : string -> Migration.database -> option exn * Migration.database.
Variable peer : nat -> Migration.database -> Migration.database.

(** C10. Entering a scope that holds a connection raises
    "Connection already in progress"; nothing is acquired and neither the
    scope nor the world changes. *)
Theorem C10_reentry_is_rejected (fuel : nat) (e : env) (con : Connection) :
  connection (self e) = Some con ->
  __aenter__ drv fs run_script peer fuel e
  = (Raise (DatabaseError "Connection already in progress"), e).
Proof.
  intros Hcon. unfold __aenter__, bind, read_self, gets. rewrite Hcon. reflexivity.
Qed.

Lemma try_finally_state {S A} (m : M S A) (f : M S unit) (P : S -> Prop) s :
  (forall s1, P (snd (f s1))) ->
  fst (m s) <> OutOfFuel ->
  P (snd (try_finally m f s)).
Proof.
  intros Hf Hm. unfold try_finally.
  destruct (m s) as [[a|e|] s1]; simpl in Hm; try congruence;
    specialize (Hf s1); destruct (f s1) as [[[]|e'|] s2]; exact Hf.
Qed.

Lemma registrations_total l :
  forall e, fst (fold_right (fun c k => on_commit c ;;; k) (ret tt) l e) = Ok tt.
Proof.
  induction l as [|c l IH]; intros e; simpl; [reflexivity|].
  unfold bind. simpl. apply IH.
Qed.

Lemma run_body_not_diverging c e : fst (run_body body_of c e) <> OutOfFuel.
Proof.
  unfold run_body, bind. simpl.
  match goal with
  | |- context [fold_right ?f ?b ?l ?x] =>
      assert (H : fst (fold_right f b l x) = Ok tt) by apply registrations_total;
      destruct (fold_right f b l x) as [r x1]
  end.
  simpl in H. subst r.
  destruct (fails (body_of c)); discriminate.
Qed.

Lemma run_callbacks_not_diverging l :
  forall e, fst (run_callbacks body_of l e) <> OutOfFuel.
Proof.
  induction l as [|c l IH]; intros e; simpl; [discriminate|].
  unfold bind, call.
  destruct (is_coroutine (body_of c)).
  - unfold ret. pose proof (run_body_not_diverging c e) as H.
    destruct (run_body body_of c e) as [[[]| |] e1]; simpl in *;
      [apply IH | discriminate | congruence].
  - unfold bind. pose proof (run_body_not_diverging c e) as H.
    destruct (run_body body_of c e) as [[[]| |] e1]; simpl in *;
      [apply IH | discriminate | congruence].
Qed.

Lemma commit_leaves_no_transaction e :
  transaction (self (snd (commit drv body_of false e))) = None.
Proof.
  unfold commit, bind at 1. unfold read_self at 1, gets.
  destruct (transaction (self e)) as [tx|] eqn:Ht; [|exact Ht].
  apply (try_finally_state _ _ (fun s => transaction (self s) = None)).
  - intros s1. reflexivity.
  - unfold bind, read_self, gets, update_self, modify, on_world, tx_commit. simpl.
    destruct (commit_result drv (outside e) tx); simpl; [discriminate|].
    apply run_callbacks_not_diverging.
Qed.

Lemma commit_not_diverging b e : fst (commit drv body_of b e) <> OutOfFuel.
Proof.
  unfold commit, bind at 1. unfold read_self at 1, gets.
  destruct (transaction (self e)) as [tx|]; [|discriminate].
  unfold try_finally.
  match goal with |- context [match ?m with _ => _ end] => destruct m as [[[]|err|] e1] eqn:Hm end.
  - destruct b.
    + unfold the_connection, bind, read_self, gets, update_self, modify, on_world, tx_start.
      simpl. destruct (connection (self e1)); simpl; [|discriminate].
      destruct (start_result drv _ _); discriminate.
    + simpl. discriminate.
  - destruct b.
    + unfold the_connection, bind, read_self, gets, update_self, modify, on_world, tx_start.
      simpl. destruct (connection (self e1)); simpl; [|discriminate].
      destruct (start_result drv _ _); discriminate.
    + simpl. discriminate.
  - exfalso.
    unfold bind, read_self, gets, update_self, modify, on_world, tx_commit in Hm.
    simpl in Hm.
    destruct (commit_result drv (outside e) tx); simpl in Hm; [discriminate|].
    pose proof (run_callbacks_not_diverging (callbacks (self e))
      {| self := set_callbacks [] (self e); outside := emit (Commit tx) (outside e) |}) as H.
    rewrite Hm in H. apply H. reflexivity.
Qed.

Lemma exit_body_not_diverging (extype : option exn) (e : env) :
  fst ((t <- read_self transaction ;;
        match t with
        | Some tx =>
            a <- read_self autocommit ;;
            if (match extype with Some _ => true | None => false end) || negb a
            then on_world (tx_rollback drv tx)
            else if a then commit drv body_of false
            else ret tt
        | None => ret tt
        end) e) <> OutOfFuel.
Proof.
  unfold bind, read_self, gets.
  destruct (transaction (self e)) as [tx|]; [|discriminate].
  destruct ((match extype with Some _ => true | None => false end)
            || negb (autocommit (self e))).
  - unfold on_world, tx_rollback. simpl.
    destruct (rollback_result drv (outside e) tx); discriminate.
  - destruct (autocommit (self e)); [apply commit_not_diverging | discriminate].
Qed.

Lemma exit_leaves_no_transaction extype e :
  transaction (self (snd (__aexit__ drv body_of extype e))) = None.
Proof.
  unfold __aexit__.
  apply (try_finally_state _ _ (fun s => transaction (self s) = None)).
  - intros s1. unfold bind, read_self, gets, update_self, modify, on_world, pool_release.
    simpl. reflexivity.
  - apply exit_body_not_diverging.
Qed.

(** C5. A scope without a transaction is what [__init__] builds, what
    [__aexit__] leaves and what [commit] without a new transaction leaves.
    On such a scope every query operation raises "No transaction in
    progress" and [commit] raises "No transaction to commit"; the scope and
    the world stay as they were. *)
Theorem C5_no_transaction_is_an_error :
  (forall p a t, transaction (__init__ p a t) = None) /\
  (forall extype e, transaction (self (snd (__aexit__ drv body_of extype e))) = None) /\
  (forall e, transaction (self (snd (commit drv body_of false e))) = None) /\
  (forall e, transaction (self e) = None ->
     (forall q args,
        execute drv q args e = (Raise (DatabaseError "No transaction in progress"), e)) /\
     (forall q args,
        executemany drv q args e = (Raise (DatabaseError "No transaction in progress"), e)) /\
     (forall q args,
        fetch drv q args e = (Raise (DatabaseError "No transaction in progress"), e)) /\
     (forall q args column,
        fetchval drv q args column e
        = (Raise (DatabaseError "No transaction in progress"), e)) /\
     (forall q args,
        fetchrow drv q args e = (Raise (DatabaseError "No transaction in progress"), e)) /\
     (forall table update_args query_args,
        update drv table update_args query_args e
        = (Raise (DatabaseError "No transaction in progress"), e)) /\
     (forall b,
        commit drv body_of b e = (Raise (DatabaseError "No transaction to commit"), e))).
Proof.
  split; [reflexivity|].
  split; [apply exit_leaves_no_transaction|].
  split; [apply commit_leaves_no_transaction|].
  intros e Ht.
  repeat split; intros;
    unfold execute, executemany, fetch, fetchval, fetchrow, update, commit,
      bind, read_self, gets;
    rewrite Ht; reflexivity.
Qed.

(** What [send] does with the answer of the driver. *)
Lemma send_answer e con query arglist :
  connection (self e) = Some con ->
  send drv query arglist e
  = match execute_result drv (outside e) con query arglist with
    | Ok resp =>
        (if reports_error resp then Raise (DatabaseErrorResp resp) else Ok resp,
         {| self := self e; outside := emit (ConExecute con query arglist) (outside e) |})
    | Raise err =>
        (Raise err,
         {| self := self e; outside := emit (ConExecute con query arglist) (outside e) |})
    | OutOfFuel =>
        (OutOfFuel,
         {| self := self e; outside := emit (ConExecute con query arglist) (outside e) |})
    end.
Proof.
  intros Hcon.
  unfold send, the_connection, bind, read_self, gets, on_world, con_execute.
  rewrite Hcon. unfold ret. simpl.
  destruct (execute_result drv (outside e) con query arglist) as [resp|err|];
    try reflexivity.
  destruct (reports_error resp); reflexivity.
Qed.

Lemma bind_run {S A B} (m : M S A) (k : A -> M S B) (s : S) :
  bind m k s
  = match m s with
    | (Ok a, s1) => k a s1
    | (Raise e, s1) => (Raise e, s1)
    | (OutOfFuel, s1) => (OutOfFuel, s1)
    end.
Proof. reflexivity. Qed.

(** [update] up to its second argument, in a scope with a transaction. *)
Lemma update_assignments e tx table update_args query_args :
  transaction (self e) = Some tx ->
  update drv table update_args query_args e
  = match read_items update_args with
    | Rejected => (Raise (DatabaseError "expected dict or list for update_args"), e)
    | Unpacking x => (Raise x, e)
    | Accepted assignments =>
        match read_conditions query_args with
        | Rejected =>
            (Raise (DatabaseError "expected dict or list or None for query_args"), e)
        | Unpacking x => (Raise x, e)
        | Accepted conditions =>
            send drv (update_statement table assignments conditions)
              (bound_values assignments conditions) e
        end
    end.
Proof.
  intros Ht.
  unfold update. rewrite bind_run. unfold read_self at 1, gets. rewrite Ht.
  cbv zeta. unfold read_items at 1.
  destruct (as_items update_args) as [elems|]; [|reflexivity].
  destruct (unpack_all elems) as [x|assignments] eqn:Helems.
  - rewrite (render_unpacking elems x _ _ _ Helems). reflexivity.
  - rewrite (render_numbered elems assignments _ _ _ Helems). rewrite !app_nil_l.
    destruct query_args as [items|conds| |v]; cbn [as_items read_conditions read_items].
    + destruct (unpack_all (pairs items)) as [x|cs] eqn:Hc.
      * rewrite (render_unpacking _ x _ _ _ Hc). reflexivity.
      * rewrite (render_numbered _ cs _ _ _ Hc). rewrite app_nil_l.
        unfold update_statement, bound_values. rewrite !string_app_assoc.
        reflexivity.
    + destruct (unpack_all conds) as [x|cs] eqn:Hc.
      * rewrite (render_unpacking _ x _ _ _ Hc). reflexivity.
      * rewrite (render_numbered _ cs _ _ _ Hc). rewrite app_nil_l.
        unfold update_statement, bound_values. rewrite !string_app_assoc.
        reflexivity.
    + unfold update_statement, bound_values. rewrite string_app_empty, app_nil_r.
      rewrite !string_app_assoc. reflexivity.
    + reflexivity.
Qed.

(** C8, as the code has it.  In a scope with a transaction, [update]
    rejects with a database error an argument that is neither a dict nor a
    list, tuple or ItemsView (for the conditions, nor [None]); an element
    of a list or tuple that is no pair raises the [TypeError] or
    [ValueError] of its unpacking instead; in each of these cases nothing
    is sent and the scope is as it was.  Otherwise [update] sends one
    statement, [UPDATE table SET k1 = $1, ...] with [ WHERE c1 = $n AND ...]
    when conditions are given, and binds the assignment values and then
    the condition values; empty assignments are sent like any others.  An
    answer that is a sequence of lines whose first line starts with
    "ERROR:" is raised as a database error that carries the answer; an
    error of the driver is raised as it is. *)
Theorem C8_update_renders_and_binds (e : env) (tx : Transaction) (con : Connection)
  (table : string) (update_args query_args : pyarg) :
  transaction (self e) = Some tx ->
  connection (self e) = Some con ->
  (read_items update_args = Rejected ->
   update drv table update_args query_args e
   = (Raise (DatabaseError "expected dict or list for update_args"), e)) /\
  (forall x,
     read_items update_args = Unpacking x ->
     update drv table update_args query_args e = (Raise x, e) /\
     ((exists msg, x = TypeError msg) \/ (exists msg, x = ValueError msg))) /\
  (forall assignments,
     read_items update_args = Accepted assignments ->
     read_conditions query_args = Rejected ->
     update drv table update_args query_args e
     = (Raise (DatabaseError "expected dict or list or None for query_args"), e)) /\
  (forall assignments x,
     read_items update_args = Accepted assignments ->
     read_conditions query_args = Unpacking x ->
     update drv table update_args query_args e = (Raise x, e) /\
     ((exists msg, x = TypeError msg) \/ (exists msg, x = ValueError msg))) /\
  (forall assignments conditions,
     read_items update_args = Accepted assignments ->
     read_conditions query_args = Accepted conditions ->
     let query := update_statement table assignments conditions in
     let values := bound_values assignments conditions in
     let e' := {| self := self e;
                  outside := emit (ConExecute con query values) (outside e) |} in
     update drv table update_args query_args e
     = match execute_result drv (outside e) con query values with
       | Ok resp =>
           (if reports_error resp then Raise (DatabaseErrorResp resp) else Ok resp, e')
       | Raise err => (Raise err, e')
       | OutOfFuel => (OutOfFuel, e')
       end) /\
  (forall line rest,
     reports_error (RespLines (line :: rest)) = String.prefix "ERROR:" line).
Proof.
  intros Ht Hcon.
  assert (Hclass : forall a x, read_items a = Unpacking x ->
            (exists msg, x = TypeError msg) \/ (exists msg, x = ValueError msg)).
  { intros a x H. unfold read_items in H.
    destruct (as_items a) as [elems|]; [|discriminate H].
    destruct (unpack_all elems) as [x0|items] eqn:Helems; [|discriminate H].
    inversion H; subst x0. exact (unpack_all_raises elems x Helems). }
  rewrite (update_assignments e tx table update_args query_args Ht).
  split; [|split; [|split; [|split; [|split]]]].
  - intros ->. reflexivity.
  - intros x Hx. rewrite Hx. split; [reflexivity|]. exact (Hclass _ _ Hx).
  - intros assignments -> ->. reflexivity.
  - intros assignments x -> Hx. rewrite Hx. split; [reflexivity|].
    destruct query_args as [items|conds| |v]; cbn [read_conditions] in Hx;
      try discriminate Hx;
      [destruct (read_items (ArgDict items)) eqn:Hr
      |destruct (read_items (ArgList conds)) eqn:Hr];
      try discriminate Hx; inversion Hx; subst; exact (Hclass _ _ Hr).
  - intros assignments conditions -> -> query values e'.
    apply send_answer. exact Hcon.
  - reflexivity.
Qed.

Lemma scope_eta (s : scope) : set_callbacks (callbacks s) s = s.
Proof. destruct s; reflexivity. Qed.

Lemma on_commit_registers c e :
  on_commit c e
  = (Ok tt, {| self := set_callbacks (register c (callbacks (self e))) (self e);
               outside := outside e |}).
Proof.
  unfold on_commit, update_self, modify, register.
  destruct (existsb (Nat.eqb c) (callbacks (self e))); [|reflexivity].
  now rewrite scope_eta.
Qed.

Lemma registrations_register cs :
  forall e,
    fold_right (fun c k => on_commit c ;;; k) (ret tt) cs e
    = (Ok tt, {| self := set_callbacks (register_all cs (callbacks (self e))) (self e);
                 outside := outside e |}).
Proof.
  induction cs as [|c cs IH]; intros e; simpl.
  - unfold ret. rewrite scope_eta. now destruct e.
  - unfold bind. rewrite on_commit_registers, IH. reflexivity.
Qed.

Lemma run_body_effect c e :
  run_body body_of c e
  = (outcome (fails (body_of c)),
     {| self := set_callbacks
                  (register_all (registers (body_of c)) (callbacks (self e))) (self e);
        outside := emit (Fired c) (outside e) |}).
Proof.
  unfold run_body, bind at 1. unfold on_world, modify. simpl.
  unfold bind. rewrite registrations_register. simpl.
  destruct (fails (body_of c)); reflexivity.
Qed.

Lemma add_events_nil w : add_events [] w = w.
Proof. unfold add_events. rewrite app_nil_r. now destruct w. Qed.

Lemma add_events_emit ev evs w :
  add_events evs (emit ev w) = add_events (ev :: evs) w.
Proof. unfold add_events, emit. simpl. now rewrite <- app_assoc. Qed.

Lemma run_callbacks_effect pending :
  forall e,
    run_callbacks body_of pending e
    = (let '(ran, after, stopped) := callbacks_run body_of pending (callbacks (self e)) in
       (outcome stopped,
        {| self := set_callbacks after (self e);
           outside := add_events (map Fired ran) (outside e) |})).
Proof.
  induction pending as [|c rest IH]; intros e; cbn [run_callbacks callbacks_run].
  - unfold ret. rewrite scope_eta, add_events_nil. now destruct e.
  - assert (Hstep : run_callbacks body_of (c :: rest) e
                     = (run_body body_of c ;;; run_callbacks body_of rest) e).
    { cbn [run_callbacks]. unfold call. rewrite bind_run.
      destruct (is_coroutine (body_of c)); [reflexivity|].
      rewrite !bind_run. destruct (run_body body_of c e) as [[[]| |] e1]; reflexivity. }
    cbn [run_callbacks] in Hstep. rewrite Hstep, bind_run, run_body_effect.
    destruct (fails (body_of c)) as [err|]; cbn [outcome].
    + unfold add_events, emit. reflexivity.
    + rewrite IH. cbn [self outside callbacks set_callbacks].
      destruct (callbacks_run body_of rest
                  (register_all (registers (body_of c)) (callbacks (self e))))
        as [[ran after] stopped].
      rewrite add_events_emit. reflexivity.
Qed.

(** *** What [commit] does *)

Lemma commit_without_new_transaction e tx :
  transaction (self e) = Some tx ->
  commit drv body_of false e
  = match commit_result drv (outside e) tx with
    | Some err =>
        (Raise err,
         {| self := set_transaction None (set_done true (set_callbacks [] (self e)));
            outside := add_events [Commit tx] (outside e) |})
    | None =>
        let '(ran, after, stopped) := callbacks_run body_of (callbacks (self e)) [] in
        (outcome stopped,
         {| self := set_transaction None (set_done true (set_callbacks after (self e)));
            outside := add_events (Commit tx :: map Fired ran) (outside e) |})
    end.
Proof.
  intros Ht. unfold commit. rewrite bind_run. unfold read_self at 1, gets. rewrite Ht.
  unfold try_finally. rewrite bind_run. unfold read_self at 1, gets.
  rewrite bind_run. unfold update_self at 1, modify.
  rewrite bind_run. unfold on_world at 1, tx_commit. cbn [self outside].
  destruct (commit_result drv (outside e) tx) as [err|]; cbn [outcome].
  - reflexivity.
  - rewrite run_callbacks_effect. cbn [self outside callbacks set_callbacks].
    destruct (callbacks_run body_of (callbacks (self e)) []) as [[ran after] stopped].
    rewrite add_events_emit.
    destruct stopped; reflexivity.
Qed.

Lemma commit_with_new_transaction e tx con :
  transaction (self e) = Some tx ->
  connection (self e) = Some con ->
  commit drv body_of true e
  = match commit_result drv (outside e) tx with
    | Some err =>
        (match start_result drv (add_events [Commit tx] (outside e)) (transaction_on con) with
         | Some err' => Raise err'
         | None => Raise err
         end,
         {| self := set_transaction (Some (transaction_on con))
                      (set_callbacks [] (self e));
            outside := add_events [Commit tx; Start (transaction_on con)] (outside e) |})
    | None =>
        let '(ran, after, stopped) := callbacks_run body_of (callbacks (self e)) [] in
        (match start_result drv (add_events (Commit tx :: map Fired ran) (outside e))
                 (transaction_on con) with
         | Some err' => Raise err'
         | None => outcome stopped
         end,
         {| self := set_transaction (Some (transaction_on con))
                      (set_callbacks after (self e));
            outside := add_events (Commit tx :: map Fired ran ++ [Start (transaction_on con)])
                         (outside e) |})
    end.
Proof.
  intros Ht Hcon. unfold commit. rewrite bind_run. unfold read_self at 1, gets. rewrite Ht.
  unfold try_finally. rewrite bind_run. unfold read_self at 1, gets.
  rewrite bind_run. unfold update_self at 1, modify.
  rewrite bind_run. unfold on_world at 1, tx_commit. cbn [self outside].
  destruct (commit_result drv (outside e) tx) as [err|]; cbn [outcome].
  - unfold the_connection, bind, read_self, gets, update_self, modify, on_world, tx_start.
    cbn [self outside connection set_callbacks]. rewrite Hcon. unfold ret.
    cbn [self outside]. unfold add_events, emit. cbn [registry events server].
    rewrite <- app_assoc. cbn [app].
    destruct (start_result drv _ _); reflexivity.
  - rewrite run_callbacks_effect. cbn [self outside callbacks set_callbacks].
    destruct (callbacks_run body_of (callbacks (self e)) []) as [[ran after] stopped].
    rewrite add_events_emit.
    unfold the_connection, bind, read_self, gets, update_self, modify, on_world, tx_start.
    cbn [self outside connection set_callbacks]. rewrite Hcon. unfold ret.
    cbn [self outside]. unfold add_events, emit. cbn [registry events server].
    rewrite <- !app_assoc. cbn [app].
    destruct stopped; cbn [outcome]; destruct (start_result drv _ _); reflexivity.
Qed.

(** *** Exit *)

Lemma no_release_in_fired l : Forall (fun ev => is_release ev = false) (map Fired l).
Proof. induction l; simpl; constructor; auto. Qed.

(** The [finally] block of [__aexit__]. *)
Lemma exit_finally e1 :
  (con <- read_self connection ;;
   update_self (set_transaction None) ;;;
   update_self (set_connection None) ;;;
   update_self (set_done true) ;;;
   p <- read_self pool ;;
   on_world (pool_release drv p con)) e1
  = (outcome (release_result drv (outside e1) (pool (self e1)) (connection (self e1))),
     {| self := set_done true (set_connection None (set_transaction None (self e1)));
        outside := emit (Release (pool (self e1)) (connection (self e1))) (outside e1) |}).
Proof. reflexivity. Qed.

Lemma try_finally_run {S A} (m : M S A) (f : M S unit) (s : S) :
  try_finally m f s
  = match m s with
    | (OutOfFuel, s1) => (OutOfFuel, s1)
    | (r, s1) =>
        match f s1 with
        | (Ok _, s2) => (r, s2)
        | (Raise e, s2) => (Raise e, s2)
        | (OutOfFuel, s2) => (OutOfFuel, s2)
        end
    end.
Proof. reflexivity. Qed.

(** The [finally] block keeps the pending result unless the release
    raises. *)
Lemma after_release {A} (r : result A) (o : option exn) (s : env) :
  match (outcome o, s) with
  | (Ok _, s2) => (r, s2)
  | (Raise e, s2) => (Raise e, s2)
  | (OutOfFuel, s2) => (OutOfFuel, s2)
  end
  = (match o with Some err => Raise err | None => r end, s).
Proof. destruct o; reflexivity. Qed.

(** C2. Leaving a scope that holds a connection: a transaction that is
    still active is rolled back when an error is in flight or autocommit is
    off, and committed otherwise (its callbacks then run); after that, and
    also when no transaction is active or the resolution raised, the
    connection is released to the pool of the scope, once, as the last
    call; the scope ends without connection and transaction, and done. *)
Theorem C2_exit_resolves_then_releases_once (e : env) (con : Connection)
  (extype : option exn) :
  connection (self e) = Some con ->
  exists resolution,
    events (outside (snd (__aexit__ drv body_of extype e)))
    = events (outside e) ++ resolution ++ [Release (pool (self e)) (Some con)] /\
    Forall (fun ev => is_release ev = false) resolution /\
    match transaction (self e) with
    | None => resolution = []
    | Some tx =>
        if (match extype with Some _ => true | None => false end)
           || negb (autocommit (self e))
        then resolution = [Rollback tx]
        else exists ran, resolution = Commit tx :: map Fired ran
    end /\
    connection (self (snd (__aexit__ drv body_of extype e))) = None /\
    transaction (self (snd (__aexit__ drv body_of extype e))) = None /\
    done (self (snd (__aexit__ drv body_of extype e))) = true.
Proof.
  intros Hcon.
  destruct (__aexit__ drv body_of extype e) as [r e'] eqn:Hexit. cbn [snd].
  unfold __aexit__ in Hexit. rewrite try_finally_run, bind_run in Hexit.
  unfold read_self at 1, gets in Hexit.
  destruct (transaction (self e)) as [tx|] eqn:Ht.
  - rewrite bind_run in Hexit. unfold read_self at 1, gets in Hexit.
    destruct ((match extype with Some _ => true | None => false end)
              || negb (autocommit (self e))) eqn:Hcond.
    + unfold on_world, tx_rollback in Hexit. cbn [self outside] in Hexit.
      exists [Rollback tx].
      destruct (rollback_result drv (outside e) tx) as [err|]; cbn [outcome] in Hexit;
        rewrite exit_finally, after_release in Hexit; inversion Hexit; subst r e';
        cbn [self outside events emit pool connection set_done set_connection
             set_transaction transaction done];
        rewrite Hcon, <- app_assoc;
        (split; [reflexivity|]); (split; [repeat constructor|]); auto.
    + assert (Ha : autocommit (self e) = true).
      { destruct (autocommit (self e)); [reflexivity|].
        destruct extype; discriminate. }
      rewrite Ha, (commit_without_new_transaction e tx Ht) in Hexit.
      destruct (commit_result drv (outside e) tx) as [err|].
      * exists [Commit tx].
        rewrite exit_finally, after_release in Hexit. inversion Hexit; subst r e'.
        cbn [self outside events emit pool connection set_done set_connection
             set_transaction set_callbacks transaction done add_events].
        rewrite Hcon, <- app_assoc.
        split; [reflexivity|]. split; [repeat constructor|].
        split; [exists []; reflexivity|]. auto.
      * destruct (callbacks_run body_of (callbacks (self e)) []) as [[ran after] stopped].
        exists (Commit tx :: map Fired ran).
        destruct stopped as [err|]; cbn [outcome] in Hexit;
          rewrite exit_finally, after_release in Hexit; inversion Hexit; subst r e';
          cbn [self outside events emit pool connection set_done set_connection
               set_transaction set_callbacks transaction done add_events];
          rewrite Hcon, <- app_assoc;
          (split; [reflexivity|]);
          (split; [constructor; [reflexivity | apply no_release_in_fired]|]);
          (split; [exists ran; reflexivity|]); auto.
  - unfold ret in Hexit. exists [].
    rewrite exit_finally, after_release in Hexit. inversion Hexit; subst r e'.
    cbn [self outside events emit pool connection set_done set_connection
         set_transaction transaction done].
    rewrite Hcon. repeat split; constructor.
Qed.

(** *** Commit callbacks *)

Lemma commit_needs_connection e tx :
  transaction (self e) = Some tx ->
  connection (self e) = None ->
  fst (commit drv body_of true e) <> Ok tt.
Proof.
  intros Ht Hcon. unfold commit. rewrite bind_run. unfold read_self at 1, gets. rewrite Ht.
  unfold try_finally. rewrite bind_run. unfold read_self at 1, gets.
  rewrite bind_run. unfold update_self at 1, modify.
  rewrite bind_run. unfold on_world at 1, tx_commit. cbn [self outside].
  destruct (commit_result drv (outside e) tx) as [err|]; cbn [outcome].
  - unfold the_connection, bind, read_self, gets.
    cbn [self outside connection set_callbacks]. rewrite Hcon. discriminate.
  - rewrite run_callbacks_effect. cbn [self outside callbacks set_callbacks].
    destruct (callbacks_run body_of (callbacks (self e)) []) as [[ran after] stopped].
    unfold the_connection, bind, read_self, gets.
    cbn [self outside connection set_callbacks]. rewrite Hcon.
    destruct stopped; discriminate.
Qed.

(** A failed commit in a scope without connection, with a new transaction
    asked for. *)
Lemma commit_failed_without_connection e tx err :
  transaction (self e) = Some tx ->
  commit_result drv (outside e) tx = Some err ->
  connection (self e) = None ->
  commit drv body_of true e
  = (Raise (AttributeError "'NoneType' object has no attribute 'transaction'"),
     {| self := set_callbacks [] (self e);
        outside := add_events [Commit tx] (outside e) |}).
Proof.
  intros Ht Herr Hcon.
  unfold commit. rewrite bind_run. unfold read_self at 1, gets. rewrite Ht.
  unfold try_finally. rewrite bind_run. unfold read_self at 1, gets.
  rewrite bind_run. unfold update_self at 1, modify.
  rewrite bind_run. unfold on_world at 1, tx_commit. cbn [self outside].
  rewrite Herr. cbn [outcome].
  unfold the_connection, bind, read_self, gets.
  cbn [self outside connection set_callbacks]. rewrite Hcon. reflexivity.
Qed.

(** A commit that returns. *)
Lemma returning_commit e tx b e' :
  transaction (self e) = Some tx ->
  commit drv body_of b e = (Ok tt, e') ->
  exists tail,
    events (outside e')
    = events (outside e) ++ Commit tx :: map Fired (callbacks (self e)) ++ tail /\
    fired tail = [] /\
    fired (events (outside e')) = fired (events (outside e)) ++ callbacks (self e) /\
    (forall c, In c (callbacks (self e')) <->
               exists p, In p (callbacks (self e)) /\ In c (registers (body_of p))) /\
    NoDup (callbacks (self e')).
Proof.
  intros Ht Hcommit.
assert (Hrun : exists tail after,
           callbacks_run body_of (callbacks (self e)) []
           = (callbacks (self e), after, None) /\
           fired tail = [] /\
           events (outside e')
           = events (outside e) ++ Commit tx :: map Fired (callbacks (self e)) ++ tail /\
           callbacks (self e') = after).
{ destruct b.
  - destruct (connection (self e)) as [con|] eqn:Hcon.
    + rewrite (commit_with_new_transaction e tx con Ht Hcon) in Hcommit.
      destruct (commit_result drv (outside e) tx) as [err|].
      * destruct (start_result drv _ _); inversion Hcommit.
      * destruct (callbacks_run body_of (callbacks (self e)) [])
          as [[ran after] stopped] eqn:Hrun.
        destruct (start_result drv _ _); [inversion Hcommit|].
        destruct stopped; [inversion Hcommit|].
        pose proof (callbacks_run_all body_of _ _ _ _ Hrun) as ->.
        inversion Hcommit; subst e'.
        exists [Start (transaction_on con)], after.
        repeat split; reflexivity.
    + exfalso. apply (commit_needs_connection e tx Ht Hcon).
      now rewrite Hcommit.
  - rewrite (commit_without_new_transaction e tx Ht) in Hcommit.
    destruct (commit_result drv (outside e) tx) as [err|]; [inversion Hcommit|].
    destruct (callbacks_run body_of (callbacks (self e)) [])
      as [[ran after] stopped] eqn:Hrun.
    destruct stopped; [inversion Hcommit|].
    pose proof (callbacks_run_all body_of _ _ _ _ Hrun) as ->.
    inversion Hcommit; subst e'.
    exists [], after.
    cbn [self outside events add_events callbacks set_transaction set_done
         set_callbacks]. rewrite app_nil_r.
    repeat split; reflexivity. }
destruct Hrun as (tail & after & Hrun & Htail & Hev & Hafter).
exists tail. split; [exact Hev|]. split; [exact Htail|]. split; [|split].
+ rewrite Hev, fired_app. f_equal. simpl fired.
  rewrite fired_app, fired_map, Htail. apply app_nil_r.
+ intros c. rewrite Hafter, (callbacks_run_after body_of _ _ _ _ _ Hrun c).
  split; [intros [[]|H]; exact H | intros H; right; exact H].
+ rewrite Hafter. eapply (callbacks_run_NoDup body_of); [exact Hrun | constructor].
Qed.

(** A commit that the driver refuses. *)
Lemma refused_commit b e tx err :
  transaction (self e) = Some tx ->
  commit_result drv (outside e) tx = Some err ->
  exists err' e1 tail,
    commit drv body_of b e = (Raise err', e1) /\
    callbacks (self e1) = [] /\
    events (outside e1) = events (outside e) ++ Commit tx :: tail /\
    fired tail = [].
Proof.
  intros Ht Herr. destruct b.
  - destruct (connection (self e)) as [con|] eqn:Hcon.
    + rewrite (commit_with_new_transaction e tx con Ht Hcon), Herr.
      destruct (start_result drv _ (transaction_on con)) as [err'|];
        do 2 eexists; exists [Start (transaction_on con)];
        (split; [reflexivity|]); repeat split.
    + rewrite (commit_failed_without_connection e tx err Ht Herr Hcon).
      do 2 eexists. exists []. split; [reflexivity|]. repeat split.
  - rewrite (commit_without_new_transaction e tx Ht), Herr.
    do 2 eexists. exists []. split; [reflexivity|]. repeat split.
Qed.

Lemma commit_needs_transaction b e :
  transaction (self e) = None ->
  commit drv body_of b e = (Raise (DatabaseError "No transaction to commit"), e).
Proof.
  intros Ht. unfold commit, bind, read_self, gets. rewrite Ht. reflexivity.
Qed.

(** C4, as the code has it.  [on_commit] appends a callback to the list
    unless the list holds it already.  When a commit returns without an
    error, every callback that was in the list has run, after the commit
    of the driver, in the order of the list and each once, and nothing ran
    after them; the list then holds, each once, the callbacks that were
    registered while they ran, which did not run for this commit unless
    they were also in the list before.  The list is cleared before the
    driver is asked to commit: when the driver refuses, [commit] raises,
    no callback has run and the list is empty all the same.  The callbacks
    that were pending then are dropped: when the scope goes on with a new
    transaction, callbacks [cs] are registered and a later commit returns,
    that commit runs the callbacks of [cs] and none of the earlier ones. *)
Theorem C4_pending_callbacks_fire_in_order :
  (forall c e,
     callbacks (self (snd (on_commit c e)))
     = (if existsb (Nat.eqb c) (callbacks (self e)) then callbacks (self e)
        else callbacks (self e) ++ [c]) /\
     (NoDup (callbacks (self e)) -> NoDup (callbacks (self (snd (on_commit c e)))))) /\
  (forall e tx b e',
     transaction (self e) = Some tx ->
     commit drv body_of b e = (Ok tt, e') ->
     exists tail,
       events (outside e')
       = events (outside e) ++ Commit tx :: map Fired (callbacks (self e)) ++ tail /\
       fired tail = [] /\
       fired (events (outside e')) = fired (events (outside e)) ++ callbacks (self e) /\
       (forall c, In c (callbacks (self e')) <->
                  exists p, In p (callbacks (self e)) /\ In c (registers (body_of p))) /\
       NoDup (callbacks (self e'))) /\
  (forall e tx b err,
     transaction (self e) = Some tx ->
     commit_result drv (outside e) tx = Some err ->
     (exists err', fst (commit drv body_of b e) = Raise err') /\
     callbacks (self (snd (commit drv body_of b e))) = [] /\
     fired (events (outside (snd (commit drv body_of b e)))) = fired (events (outside e)) /\
     exists tail,
       events (outside (snd (commit drv body_of b e)))
       = events (outside e) ++ Commit tx :: tail) /\
  (forall e tx err cs b e3,
     transaction (self e) = Some tx ->
     commit_result drv (outside e) tx = Some err ->
     (try_except (commit drv body_of true) (fun _ => Some (ret tt)) ;;;
      fold_right (fun c k => on_commit c ;;; k) (ret tt) cs ;;;
      commit drv body_of b) e = (Ok tt, e3) ->
     fired (events (outside e3)) = fired (events (outside e)) ++ register_all cs []).
Proof.
  split; [|split; [|split]].
  - intros c e. rewrite on_commit_registers. cbn [snd self callbacks set_callbacks].
    split; [reflexivity|]. apply register_NoDup.
  - intros e tx b e'. apply returning_commit.
  - intros e tx b err Ht Herr.
    destruct (refused_commit b e tx err Ht Herr)
      as (err' & e1 & tail & Hrun & Hcbs & Hev & Htail).
    rewrite Hrun. cbn [fst snd].
    split; [exists err'; reflexivity|]. split; [exact Hcbs|]. split.
    + rewrite Hev, fired_app. cbn [fired]. rewrite Htail. apply app_nil_r.
    + exists tail. exact Hev.
  - intros e tx err cs b e3 Ht Herr Hrun.
    destruct (refused_commit true e tx err Ht Herr)
      as (err' & e1 & tail & Hfail & Hcbs & Hev & Htail).
    rewrite bind_run in Hrun. unfold try_except at 1 in Hrun.
    rewrite Hfail in Hrun. unfold ret at 1 in Hrun.
    rewrite bind_run, registrations_register in Hrun. rewrite Hcbs in Hrun.
    destruct (transaction
                (self {| self := set_callbacks (register_all cs []) (self e1);
                         outside := outside e1 |})) as [tx2|] eqn:Ht2.
    + destruct (returning_commit _ tx2 b e3 Ht2 Hrun) as (tail2 & _ & _ & Hfired & _).
      rewrite Hfired. cbn [self outside callbacks set_callbacks].
      rewrite Hev, fired_app. cbn [fired]. rewrite Htail, app_nil_r. reflexivity.
    + rewrite (commit_needs_transaction b _ Ht2) in Hrun. discriminate Hrun.
Qed.

(** *** Entry when the connection does not exist *)

(** Runs [__aenter__] up to the comparison with the default pool, given
    that the scope holds no connection ([Hcon]) and that the acquisition
    raises [ConnectionDoesNotExistError] ([Hacq]). *)
Ltac run_to_handler Hcon Hacq :=
  unfold __aenter__; rewrite bind_run; unfold read_self at 1, gets; rewrite Hcon;
  rewrite bind_run; unfold try_except;
  rewrite bind_run; unfold read_self at 1, gets;
  rewrite bind_run; unfold read_self at 1, gets;
  rewrite bind_run; unfold on_world at 1, pool_acquire; rewrite Hacq;
  rewrite bind_run; unfold on_world at 1, log_exception, modify;
  rewrite bind_run; unfold read_self at 1, gets;
  rewrite bind_run; unfold on_world at 1, get_database_pool;
  cbn [self outside registry emit].

Lemma aenter_other_pool fuel e g :
  connection (self e) = None ->
  acquire_result drv (outside e) (pool (self e)) (timeout (self e))
    = Raise ConnectionDoesNotExistError ->
  registry (outside e) = Some g ->
  pool (self e) <> g ->
  __aenter__ drv fs run_script peer fuel e
  = (Raise ConnectionDoesNotExistError, after_failed_acquire e).
Proof.
  intros Hcon Hacq Hreg Hg. apply Nat.eqb_neq in Hg.
  run_to_handler Hcon Hacq. rewrite Hreg, Hg.
  unfold raise, after_failed_acquire, add_events, emit.
  cbn [registry events server]. rewrite <- app_assoc. reflexivity.
Qed.

(** C9, where the code departs from it.  No default pool is registered and
    the acquisition fails because the connection does not exist: the
    handler asks [get_database_pool] for the default pool, and the caller
    gets its assertion error instead of the acquisition error. *)
Theorem C9_unset_registry_hides_acquisition_error fuel e :
  connection (self e) = None ->
  acquire_result drv (outside e) (pool (self e)) (timeout (self e))
    = Raise ConnectionDoesNotExistError ->
  registry (outside e) = None ->
  __aenter__ drv fs run_script peer fuel e
  = (Raise (AssertionError "database not prepared before use"),
     after_failed_acquire e).
Proof.
  intros Hcon Hacq Hreg.
  run_to_handler Hcon Hacq. rewrite Hreg.
  unfold after_failed_acquire, add_events, emit.
  cbn [registry events server]. rewrite <- app_assoc. reflexivity.
Qed.


End ScopeFacts.

(** ** The scope on concrete runs *)

(** A scope that holds connection 7 is entered again. *)
Lemma C10_witness :
  Scope.__aenter__ (Scope.test_driver [] [] RespNone) (Migration.test_fs 0)
    (Migration.test_server []) Migration.test_peer 1
    {| Scope.self := Scope.entered 5 false 7 [1];
       Scope.outside := Scope.quiet_world (Some 5) |}
  = (Raise (DatabaseError "Connection already in progress"),
     {| Scope.self := Scope.entered 5 false 7 [1];
        Scope.outside := Scope.quiet_world (Some 5) |}).
Proof.
  exact (C10_reentry_is_rejected (Scope.test_driver [] [] RespNone)
           (Migration.test_fs 0) (Migration.test_server []) Migration.test_peer 1
           {| Scope.self := Scope.entered 5 false 7 [1];
              Scope.outside := Scope.quiet_world (Some 5) |} 7 eq_refl).
Defined.

(** A scope that was never entered: a query and a commit. *)
Lemma C5_witness :
  let e := {| Scope.self := Scope.__init__ 5 false None;
              Scope.outside := Scope.quiet_world (Some 5) |} in
  Scope.fetchval (Scope.test_driver [] [] RespNone) "SELECT 1" [] 0 e
  = (Raise (DatabaseError "No transaction in progress"), e) /\
  Scope.commit (Scope.test_driver [] [] RespNone) Scope.test_callbacks true e
  = (Raise (DatabaseError "No transaction to commit"), e).
Proof.
  intros e.
  pose proof (proj2 (proj2 (proj2
    (C5_no_transaction_is_an_error (Scope.test_driver [] [] RespNone)
       Scope.test_callbacks))) e eq_refl) as H.
  split.
  - exact (proj1 (proj2 (proj2 (proj2 H))) "SELECT 1" [] 0).
  - exact (proj2 (proj2 (proj2 (proj2 (proj2 (proj2 H))))) true).
Defined.

(** An autocommit scope is left without an error while callback 9, which
    raises, is pending after callbacks 1 and 2: the connection is still
    released, once and last. *)
Lemma C2_witness :
  let e := {| Scope.self := Scope.entered 5 true 7 [1; 2; 9; 4];
              Scope.outside := Scope.quiet_world (Some 5) |} in
  let e' := snd (Scope.__aexit__ (Scope.test_driver [] [] RespNone)
                   Scope.test_callbacks None e) in
  exists resolution,
    Scope.events (Scope.outside e')
    = [] ++ resolution ++ [Scope.Release 5 (Some 7)] /\
    Forall (fun ev => Scope.is_release ev = false) resolution /\
    (exists ran, resolution = Scope.Commit (Scope.transaction_on 7)
                              :: map Scope.Fired ran) /\
    Scope.connection (Scope.self e') = None /\
    Scope.transaction (Scope.self e') = None /\
    Scope.done (Scope.self e') = true.
Proof.
  intros e e'.
  exact (C2_exit_resolves_then_releases_once (Scope.test_driver [] [] RespNone)
           Scope.test_callbacks e 7 None eq_refl).
Defined.

(** Callbacks 1, 2 and 4 are pending and callback 1 registers callback 3:
    the commit runs 1, 2 and 4, and 3 waits for the next commit. *)
Lemma C4_witness :
  let e := {| Scope.self := Scope.entered 5 true 7 [1; 2; 4];
              Scope.outside := Scope.quiet_world (Some 5) |} in
  let e' := snd (Scope.commit (Scope.test_driver [] [] RespNone)
                   Scope.test_callbacks true e) in
  exists tail,
    Scope.events (Scope.outside e')
    = [] ++ Scope.Commit (Scope.transaction_on 7)
         :: map Scope.Fired [1; 2; 4] ++ tail /\
    Scope.fired tail = [] /\
    Scope.fired (Scope.events (Scope.outside e')) = [] ++ [1; 2; 4] /\
    (forall c, In c (Scope.callbacks (Scope.self e')) <->
               exists p, In p [1; 2; 4] /\
                         In c (Scope.registers (Scope.test_callbacks p))) /\
    NoDup (Scope.callbacks (Scope.self e')).
Proof.
  intros e e'.
  exact (proj1 (proj2 (C4_pending_callbacks_fire_in_order
                         (Scope.test_driver [] [] RespNone) Scope.test_callbacks))
           e (Scope.transaction_on 7) true e' eq_refl eq_refl).
Defined.

(** Callback 4 is registered; the commit of the driver fails, and the
    scope goes on with a new transaction; the next commit succeeds.
    Callback 4 has not run and is no longer in the list. *)
Lemma C4_counterexample :
  (Scope.on_commit 4 ;;;
   try_except (Scope.commit (Scope.test_driver [] [1] RespNone)
                 Scope.test_callbacks true)
     (fun _ => Some (ret tt)) ;;;
   Scope.commit (Scope.test_driver [] [1] RespNone) Scope.test_callbacks false)
    {| Scope.self := Scope.entered 5 false 7 [];
       Scope.outside := Scope.quiet_world (Some 5) |}
  = (Ok tt,
     {| Scope.self :=
          {| Scope.timeout := None; Scope.connection := Some 7;
             Scope.transaction := None; Scope.autocommit := false;
             Scope.pool := 5; Scope.done := true; Scope.callbacks := [] |};
        Scope.outside :=
          {| Scope.registry := Some 5;
             Scope.events := [Scope.Commit (Scope.transaction_on 7);
                              Scope.Start (Scope.transaction_on 7);
                              Scope.Commit (Scope.transaction_on 7)];
             Scope.server := Migration.start Migration.empty_database |} |}).
Proof. reflexivity. Qed.

(** The commit of the driver succeeds and callback 9 raises: callback 4,
    registered after it, does not run and is no longer in the list. *)
Example raising_callback_stops_the_run :
  Scope.commit (Scope.test_driver [] [] RespNone) Scope.test_callbacks true
    {| Scope.self := Scope.entered 5 false 7 [9; 4];
       Scope.outside := Scope.quiet_world (Some 5) |}
  = (Raise (CallbackError "callback 9"),
     {| Scope.self := Scope.entered 5 false 7 [];
        Scope.outside :=
          {| Scope.registry := Some 5;
             Scope.events := [Scope.Commit (Scope.transaction_on 7); Scope.Fired 9;
                              Scope.Start (Scope.transaction_on 7)];
             Scope.server := Migration.start Migration.empty_database |} |}).
Proof. reflexivity. Qed.

(** The example of the description: assignments [status] and [score],
    condition [id]. *)
Lemma C8_witness :
  let e := {| Scope.self := Scope.entered 5 false 7 [];
              Scope.outside := Scope.quiet_world (Some 5) |} in
  Scope.update (Scope.test_driver [] [] (RespStatus "UPDATE 1")) "t"
    (Scope.ArgDict [("status", PyStr "active"); ("score", PyInt 5)])
    (Scope.ArgDict [("id", PyInt 42)]) e
  = (Ok (RespStatus "UPDATE 1"),
     {| Scope.self := Scope.self e;
        Scope.outside :=
          Scope.emit
            (Scope.ConExecute 7 "UPDATE t SET status = $1, score = $2 WHERE id = $3"
               [PyStr "active"; PyInt 5; PyInt 42])
            (Scope.outside e) |}).
Proof.
  intros e.
  exact (proj1 (proj2 (proj2 (proj2 (proj2
           (C8_update_renders_and_binds (Scope.test_driver [] [] (RespStatus "UPDATE 1"))
              e (Scope.transaction_on 7) 7 "t"
              (Scope.ArgDict [("status", PyStr "active"); ("score", PyInt 5)])
              (Scope.ArgDict [("id", PyInt 42)]) eq_refl eq_refl)))))
           [("status", PyStr "active"); ("score", PyInt 5)]
           (Some [("id", PyInt 42)]) eq_refl eq_refl).
Defined.

(** Empty assignments are not rejected by [update]: the statement without
    any assignment goes to the driver, and what the caller gets is the
    syntax error of the server, not a database error.  And a list whose
    element is a tuple of one is not rejected with a database error either:
    the caller gets the [ValueError] of the unpacking. *)
Lemma C8_counterexample :
  Scope.update Doubles.parsing_driver "t" (Scope.ArgDict []) Scope.ArgNone
    {| Scope.self := Scope.entered 5 false 7 [];
       Scope.outside := Scope.quiet_world (Some 5) |}
  = (Raise (DriverError "PostgresSyntaxError: syntax error at end of input"),
     {| Scope.self := Scope.entered 5 false 7 [];
        Scope.outside :=
          {| Scope.registry := Some 5;
             Scope.events := [Scope.ConExecute 7 "UPDATE t SET " []];
             Scope.server := Migration.start Migration.empty_database |} |}) /\
  Scope.update Doubles.parsing_driver "t"
    (Scope.ArgList [Scope.ElemSeq [PyStr "status"]]) Scope.ArgNone
    {| Scope.self := Scope.entered 5 false 7 [];
       Scope.outside := Scope.quiet_world (Some 5) |}
  = (Raise (ValueError "not enough values to unpack (expected 2, got 1)"),
     {| Scope.self := Scope.entered 5 false 7 [];
        Scope.outside := Scope.quiet_world (Some 5) |}).
Proof. split; reflexivity. Qed.

(** An answer that is one status string, as asyncpg gives it, is never
    taken for an error: [resp[0]] is its first character. *)
Example status_string_is_not_an_error :
  Scope.reports_error (RespStatus "ERROR: relation does not exist") = false /\
  Scope.reports_error (RespLines ["ERROR: relation does not exist"]) = true.
Proof. split; reflexivity. Qed.

(** The scope is on pool 0, no default pool is registered, and the
    acquisition fails because the connection does not exist. *)
Lemma C9_witness :
  Scope.__aenter__ (Scope.test_driver [0] [] RespNone) (Migration.test_fs 3)
    (Migration.test_server []) Migration.test_peer 5
    {| Scope.self := Scope.__init__ 0 false None;
       Scope.outside := Scope.quiet_world None |}
  = (Raise (AssertionError "database not prepared before use"),
     {| Scope.self := Scope.__init__ 0 false None;
        Scope.outside :=
          {| Scope.registry := None;
             Scope.events := [Scope.Acquire 0 None;
                              Scope.LogException "Error acquiring connection"];
             Scope.server := Migration.start Migration.empty_database |} |}).
Proof.
  exact (C9_unset_registry_hides_acquisition_error
           (Scope.test_driver [0] [] RespNone) (Migration.test_fs 3)
           (Migration.test_server []) Migration.test_peer 5
           {| Scope.self := Scope.__init__ 0 false None;
              Scope.outside := Scope.quiet_world None |}
           eq_refl eq_refl eq_refl).
Defined.

(** With pool 5 registered as the default pool, the same failure on pool 0
    reaches the caller as it is. *)
Example other_pool_propagates :
  Scope.__aenter__ (Scope.test_driver [0] [] RespNone) (Migration.test_fs 3)
    (Migration.test_server []) Migration.test_peer 5
    {| Scope.self := Scope.__init__ 0 false None;
       Scope.outside := Scope.quiet_world (Some 5) |}
  = (Raise ConnectionDoesNotExistError,
     {| Scope.self := Scope.__init__ 0 false None;
        Scope.outside :=
          {| Scope.registry := Some 5;
             Scope.events := [Scope.Acquire 0 None;
                              Scope.LogException "Error acquiring connection"];
             Scope.server := Migration.start Migration.empty_database |} |}).
Proof. reflexivity. Qed.

(** Pool 0 is the default pool: the registry is cleared, pool 0 is closed,
    a new pool is created and registered, the migration is waited for on
    one of its connections, and the scope acquires from the new pool. *)
Example default_pool_is_recovered :
  let r := Scope.__aenter__ (Scope.test_driver [0] [] RespNone) (Migration.test_fs 3)
             (Migration.test_server []) Migration.test_peer 5
             {| Scope.self := Scope.__init__ 0 false None;
                Scope.outside := Scope.quiet_world (Some 0) |} in
  fst r = Ok tt /\
  Scope.events (Scope.outside (snd r))
  = [Scope.Acquire 0 None; Scope.LogException "Error acquiring connection";
     Scope.ClosePool 0; Scope.CreatePool None; Scope.Acquire 3 None;
     Scope.Release 3 (Some 4); Scope.Acquire 3 None;
     Scope.Start (Scope.transaction_on 6)] /\
  Scope.registry (Scope.outside (snd r)) = Some 3 /\
  Scope.pool (Scope.self (snd r)) = 3 /\
  Migration.calls (Scope.server (Scope.outside (snd r))) = repeat Migration.Fetchrow 5.
Proof. repeat split; reflexivity. Qed.

(** The new pool is dead as well: the process exits. *)
Example failed_recovery_exits :
  fst (Scope.__aenter__ (Scope.test_driver [0; 3] [] RespNone) (Migration.test_fs 3)
         (Migration.test_server []) Migration.test_peer 5
         {| Scope.self := Scope.__init__ 0 false None;
            Scope.outside := Scope.quiet_world (Some 0) |})
  = Raise (SystemExit 1).
Proof. reflexivity. Qed.

(** * Further properties *)

(** ** The waiter *)

Section WaiterBehaviour.

Import Migration.

Variable fs : string -> option string.
Variable peer : nat -> database -> database.

Lemma latest_script_world fuel :
  forall version w, snd (latest_script fs fuel version w) = w.
Proof.
  induction fuel as [|fuel IH]; intros version w; simpl; [reflexivity|].
  destruct (negb (path_exists fs (migrate_path (version + 1)))); [reflexivity|].
  apply IH.
Qed.

Lemma db_after_step k t d :
  db_after peer (S k) t d = peer (k + t) (db_after peer k t d).
Proof.
  revert t d. induction k as [|k IH]; intros t d; [reflexivity|].
  change (db_after peer (S (S k)) t d) with (db_after peer (S k) (S t) (peer t d)).
  rewrite IH. simpl. f_equal. lia.
Qed.

(** One round of [poll]: it returns or raises after the read, or goes on
    from [waited]. *)
Lemma poll_round fuel expected w :
  poll peer (S fuel) expected w
  = match version_table (db w) with
    | None => poll peer fuel expected (waited peer w)
    | Some [] =>
        (Raise (TypeError "'NoneType' object is not subscriptable"), sent Fetchrow w)
    | Some (v :: _) =>
        if (expected =? v)%Z then (Ok tt, sent Fetchrow w)
        else poll peer fuel expected (waited peer w)
    end.
Proof.
  simpl poll. unfold bind at 1. unfold try_except, bind at 1. unfold fetchrow.
  destruct (version_table (db w)) as [[|v rows]|]; try reflexivity.
  unfold version_number, bind, ret.
  destruct (expected =? v)%Z; reflexivity.
Qed.

Lemma poll_reads_only fuel :
  forall expected w,
  exists polls sleeps,
    calls (snd (poll peer fuel expected w)) = calls w ++ repeat Fetchrow polls /\
    clock (snd (poll peer fuel expected w)) = clock w + sleeps /\
    db (snd (poll peer fuel expected w)) = db_after peer sleeps (clock w) (db w).
Proof.
  induction fuel as [|fuel IH]; intros expected w.
  - exists 0, 0. simpl. now rewrite app_nil_r, Nat.add_0_r.
  - rewrite poll_round.
    assert (Hgo : exists polls sleeps,
      calls (snd (poll peer fuel expected (waited peer w)))
        = calls w ++ repeat Fetchrow polls /\
      clock (snd (poll peer fuel expected (waited peer w))) = clock w + sleeps /\
      db (snd (poll peer fuel expected (waited peer w)))
        = db_after peer sleeps (clock w) (db w)).
    { destruct (IH expected (waited peer w)) as (polls & sleeps & Hc & Ht & Hd).
      exists (S polls), (S sleeps). rewrite Hc, Ht, Hd. unfold waited. simpl.
      rewrite <- app_assoc. repeat split; try reflexivity. lia. }
    assert (Hstop : forall r : result unit, exists polls sleeps,
      calls (snd (r, sent Fetchrow w)) = calls w ++ repeat Fetchrow polls /\
      clock (snd (r, sent Fetchrow w)) = clock w + sleeps /\
      db (snd (r, sent Fetchrow w)) = db_after peer sleeps (clock w) (db w)).
    { intros r. exists 1, 0. simpl. now rewrite Nat.add_0_r. }
    destruct (version_table (db w)) as [[|v rows]|]; [apply Hstop| |exact Hgo].
    destruct (expected =? v)%Z; [apply Hstop | exact Hgo].
Qed.

(** X1. [wait_for_migration] only reads: whatever happens, each call it
    sends on its connection is the query of the version, and the database
    it leaves is the one the other processes made during its sleeps. *)
Theorem X1_waiter_only_reads (fuel : nat) (w : world) :
  exists polls sleeps,
    calls (snd (wait_for_migration fs peer fuel w)) = calls w ++ repeat Fetchrow polls /\
    clock (snd (wait_for_migration fs peer fuel w)) = clock w + sleeps /\
    db (snd (wait_for_migration fs peer fuel w)) = db_after peer sleeps (clock w) (db w).
Proof.
  destruct (wait_for_migration fs peer fuel w) as [r w'] eqn:Hrun. cbn [snd].
  unfold wait_for_migration in Hrun.
  destruct (negb (path_exists fs bootstrap_path)).
  - inversion Hrun; subst. exists 0, 0. simpl. now rewrite app_nil_r, Nat.add_0_r.
  - unfold bind at 1 in Hrun.
    pose proof (latest_script_world fuel 0%Z w) as Hw.
    destruct (latest_script fs fuel 0 w) as [[version| |] w1]; simpl in Hw; subst w1;
      try (inversion Hrun; subst; exists 0, 0; simpl;
           now rewrite app_nil_r, Nat.add_0_r).
    destruct (poll_reads_only fuel version w) as (polls & sleeps & Hc & Ht & Hd).
    exists polls, sleeps. unfold bind in Hrun.
    destruct (poll peer fuel version w) as [[[]| |] w2]; inversion Hrun; subst;
      simpl in *; auto.
Qed.

(** The world after [T] rounds of waiting. *)
Lemma poll_after_waiting T :
  forall fuel expected w,
    (forall k, k < T -> not_ready expected (db_after peer k (clock w) (db w))) ->
    poll peer (T + fuel) expected w
    = poll peer fuel expected
        {| db := db_after peer T (clock w) (db w);
           clock := clock w + T;
           calls := calls w ++ repeat Fetchrow T;
           log := log w ++ repeat (LogInfo waiting_message) T |}.
Proof.
  induction T as [|T IH]; intros fuel expected w Hwait.
  - simpl. rewrite Nat.add_0_r, !app_nil_r. now destruct w.
  - simpl Nat.add. rewrite (poll_wait peer) by (apply (Hwait 0); lia).
    rewrite IH.
    + unfold waited. cbn [db clock calls log]. simpl repeat.
      rewrite <- !app_assoc. simpl app.
      replace (S (clock w) + T) with (clock w + S T) by lia. reflexivity.
    + intros k Hk. apply (Hwait (S k)). lia.
Qed.

(** X2. The waiter takes only a missing table for "not ready yet".  When
    the version table exists without a row, as it does between the
    [CREATE TABLE] and the [INSERT] of [create_tables], the poll that sees
    it raises [TypeError] and the waiter ends. *)
Theorem X2_waiter_fails_on_empty_version_table (w : world) (fuel T : nat)
  (texts : list string) :
  fs bootstrap_path <> None ->
  scripts_present fs 0 texts ->
  fs (migrate_path (0 + 1 + Z.of_nat (length texts))) = None ->
  (forall k, k < T ->
     not_ready (Z.of_nat (length texts)) (db_after peer k (clock w) (db w))) ->
  version_table (db_after peer T (clock w) (db w)) = Some [] ->
  length texts < fuel ->
  T < fuel ->
  wait_for_migration fs peer fuel w
  = (Raise (TypeError "'NoneType' object is not subscriptable"),
     {| db := db_after peer T (clock w) (db w);
        clock := clock w + T;
        calls := calls w ++ repeat Fetchrow (S T);
        log := log w ++ repeat (LogInfo waiting_message) T |}).
Proof.
  intros Hboot Hp Hgap Hwait Hempty Hfuel HT.
  unfold wait_for_migration, path_exists.
  destruct (fs bootstrap_path); [|congruence]. cbn [negb].
  unfold bind at 1.
  rewrite (latest_script_found fs texts 0%Z fuel w Hp Hgap Hfuel).
  replace (0 + Z.of_nat (length texts))%Z with (Z.of_nat (length texts)) by lia.
  unfold bind.
  replace fuel with (T + S (fuel - T - 1)) by lia.
  rewrite (poll_after_waiting T _ _ w Hwait), poll_round.
  cbn [db]. rewrite Hempty. unfold sent. cbn [db clock calls log].
  rewrite <- app_assoc.
  replace (repeat Fetchrow T ++ [Fetchrow]) with (repeat Fetchrow (S T)).
  - reflexivity.
  - clear. induction T as [|T IH]; simpl; [reflexivity | now rewrite <- IH].
Qed.

End WaiterBehaviour.

(** ** The runner *)

Section RunnerBehaviour.

Import Migration.

Variable fs : string -> option string.
Variable run_script : string -> database -> option exn * database.

(** X3. [create_tables] catches [Exception] only.  When a script ends
    with an exception outside that class ([KeyboardInterrupt], [SystemExit]
    and, from Python 3.8, the [CancelledError] of a cancelled task), the
    scripts before it have run, the exception leaves [create_tables] at
    once, and no [UPDATE] of the version is sent.  The server is asked
    about the databases of this run only. *)
Theorem X3_interrupted_script_records_nothing (V : Z) (w : world) (fuel : nat)
  (good : list string) (bad : string) (later : list string) (e : exn) :
  fs bootstrap_path <> None ->
  recorded_version (db w) = Some V ->
  scripts_present fs V (good ++ bad :: later) ->
  accepted run_script good (db w) = true ->
  fst (run_script bad (db_through run_script good (db w))) = Some e ->
  is_Exception e = false ->
  length good < fuel ->
  exists w',
    create_tables fs run_script fuel w = (Raise e, w') /\
    calls w' = calls w ++ [Fetchrow] ++ map (fun t => Execute (Script t)) (good ++ [bad]) /\
    db w' = snd (run_script bad (db_through run_script good (db w))).
Proof.
  intros Hboot Hv Hp Hok Hbad Hexc Hfuel.
  rewrite (create_tables_existing fs run_script fuel w V Hboot Hv).
  set (w0 := logged (LogInfo ("got database version: " ++ str_of_Z V)) (sent Fetchrow w)).
  replace fuel with (length good + S (fuel - length good - 1)) by lia.
  set (f := fuel - length good - 1).
  unfold bind at 1.
  rewrite (apply_scripts_good fs run_script good V w0 (S f) (bad :: later) Hp Hok).
  assert (Hfile : fs (migrate_path (V + Z.of_nat (length good) + 1)) = Some bad).
  { replace (V + Z.of_nat (length good) + 1)%Z
      with (V + 1 + Z.of_nat (length good))%Z by lia.
    apply Hp. apply nth_error_middle. }
  rewrite (apply_scripts_step fs run_script _ _ f bad Hfile), ran_db.
  change (db w0) with (db w).
  destruct (run_script bad (db_through run_script good (db w))) as [o d'].
  cbn [fst snd] in *. subst o. rewrite Hexc.
  eexists. split; [reflexivity|]. split.
  - simpl calls. rewrite ran_calls. unfold w0. simpl calls.
    rewrite map_app. simpl map. now rewrite <- !app_assoc.
  - reflexivity.
Qed.

Lemma map_const_twice (N : Z) (rows : list Z) :
  map (fun _ => N) (map (fun _ : Z => N) rows) = map (fun _ => N) rows.
Proof. induction rows as [|r rows IH]; simpl; [reflexivity | now rewrite IH]. Qed.

Lemma updated_twice (v : Z) (d : database) : updated v (updated v d) = updated v d.
Proof.
  unfold updated, with_version_table. cbn [version_table objects].
  destruct (version_table d) as [rows|]; cbn [option_map]; [|reflexivity].
  now rewrite map_const_twice.
Qed.

(** [create_tables] on a database whose version table has a row and whose
    next script is missing: one read, one [UPDATE]. *)
Lemma create_tables_up_to_date fuel w V :
  fs bootstrap_path <> None ->
  recorded_version (db w) = Some V ->
  fs (migrate_path (V + 1)) = None ->
  0 < fuel ->
  create_tables fs run_script fuel w
  = (Ok tt,
     {| db := with_version_table
                (option_map (map (fun _ => V)) (version_table (db w))) (db w);
        clock := clock w;
        calls := calls w ++ [Fetchrow; Execute (UpdateVersion V)];
        log := log w ++ [LogInfo ("got database version: " ++ str_of_Z V)] |}).
Proof.
  intros Hboot Hv Hgap Hfuel.
  rewrite (create_tables_existing fs run_script fuel w V Hboot Hv).
  destruct fuel as [|fuel]; [lia|].
  unfold bind at 1. rewrite (apply_scripts_stop fs run_script _ _ _ Hgap). cbn [fst snd].
  set (w0 := logged _ _).
  assert (Hrec : recorded_version (db w0) <> None) by (simpl; congruence).
  destruct (update_version_recorded run_script V w0 Hrec) as [Hex _].
  unfold bind. rewrite Hex. unfold ret, w0, updated, with_db, sent, logged.
  cbn [db clock calls log]. rewrite <- app_assoc. reflexivity.
Qed.

(** X4. Migrating twice is migrating once: after a run in which the
    server accepted every script in its turn, a second run executes no
    script, sends one read and one [UPDATE] with the same version, and
    leaves the database as the first run left it.  Nothing is asked of the
    scripts for the second run: they may well fail on the database they
    have changed. *)
Theorem X4_second_run_applies_nothing (V : Z) (w : world) (fuel : nat)
  (texts : list string) :
  fs bootstrap_path <> None ->
  recorded_version (db w) = Some V ->
  scripts_present fs V texts ->
  fs (migrate_path (V + 1 + Z.of_nat (length texts))) = None ->
  accepted run_script texts (db w) = true ->
  recorded_version (db_through run_script texts (db w)) <> None ->
  length texts < fuel ->
  exists w1 w2,
    create_tables fs run_script fuel w = (Ok tt, w1) /\
    create_tables fs run_script fuel w1 = (Ok tt, w2) /\
    db w2 = db w1 /\
    calls w2 = calls w1 ++ [Fetchrow;
                            Execute (UpdateVersion (V + Z.of_nat (length texts)))].
Proof.
  intros Hboot Hv Hp Hgap Hok Hrow Hfuel.
  set (N := (V + Z.of_nat (length texts))%Z).
  eexists. eexists.
  split; [apply (create_tables_all_run fs run_script V w fuel texts
                   Hboot Hv Hp Hgap Hok Hrow Hfuel)|].
  fold N.
  set (w1 := with_db (updated N (db_through run_script texts (db w))) _).
  assert (Hv1 : recorded_version (db w1) = Some N).
  { apply (update_version_recorded run_script N
             (with_db (db_through run_script texts (db w)) w)). exact Hrow. }
  assert (Hgap1 : fs (migrate_path (N + 1)) = None).
  { unfold N. replace (V + Z.of_nat (length texts) + 1)%Z
      with (V + 1 + Z.of_nat (length texts))%Z by lia. exact Hgap. }
  rewrite (create_tables_up_to_date fuel w1 N Hboot Hv1 Hgap1) by lia.
  split; [reflexivity|]. split; [|reflexivity].
  cbn [db]. apply (updated_twice N (db_through run_script texts (db w))).
Qed.



End RunnerBehaviour.

(** ** What an operation leaves as it is *)

Section Preservation.

Context {S : Type} (R : S -> S -> Prop) `{!RelationClasses.PreOrder R}.

Lemma keeps_ret {A} (a : A) : keeps R (ret a).
Proof. intros s. reflexivity. Qed.

Lemma keeps_raise {A} (e : exn) : keeps R (@raise S A e).
Proof. intros s. reflexivity. Qed.

Lemma keeps_diverge {A} : keeps R (@diverge S A).
Proof. intros s. reflexivity. Qed.

Lemma keeps_gets {A} (f : S -> A) : keeps R (gets f).
Proof. intros s. reflexivity. Qed.

Lemma keeps_bind {A B} (m : M S A) (k : A -> M S B) :
  keeps R m -> (forall a, keeps R (k a)) -> keeps R (bind m k).
Proof.
  intros Hm Hk s. unfold bind. specialize (Hm s).
  destruct (m s) as [[a|e|] s1]; simpl in Hm; try exact Hm.
  etransitivity; [exact Hm | apply Hk].
Qed.

Lemma keeps_try_except {A} (m : M S A) (h : exn -> option (M S A)) :
  keeps R m -> (forall e handler, h e = Some handler -> keeps R handler) ->
  keeps R (try_except m h).
Proof.
  intros Hm Hh s. unfold try_except. specialize (Hm s).
  destruct (m s) as [[a|e|] s1]; simpl in Hm; try exact Hm.
  destruct (h e) as [handler|] eqn:He; [|exact Hm].
  etransitivity; [exact Hm | eapply Hh; exact He].
Qed.

Lemma keeps_try_finally {A} (m : M S A) (f : M S unit) :
  keeps R m -> keeps R f -> keeps R (try_finally m f).
Proof.
  intros Hm Hf s. unfold try_finally. specialize (Hm s).
  destruct (m s) as [[a|e|] s1]; simpl in Hm; try exact Hm;
    specialize (Hf s1); destruct (f s1) as [[[]|e'|] s2]; simpl in Hf;
    etransitivity; eassumption.
Qed.

End Preservation.

#[local] Instance kept_registry_preorder : RelationClasses.PreOrder Kept.registry.
Proof.
  split; [intros w; reflexivity|].
  intros w1 w2 w3 H12 H23. unfold Kept.registry in *. congruence.
Qed.

#[local] Instance kept_fired_preorder : RelationClasses.PreOrder Kept.fired.
Proof.
  split; [intros w; reflexivity|].
  intros w1 w2 w3 H12 H23. unfold Kept.fired in *. congruence.
Qed.

#[local] Instance kept_server_preorder : RelationClasses.PreOrder Kept.server.
Proof.
  split; [intros w; reflexivity|].
  intros w1 w2 w3 H12 H23. unfold Kept.server in *. congruence.
Qed.

#[local] Instance kept_outside_preorder R `{!RelationClasses.PreOrder R} :
  RelationClasses.PreOrder (Kept.outside R).
Proof.
  split; [intros e; unfold Kept.outside; reflexivity|].
  intros e1 e2 e3 H12 H23. unfold Kept.outside in *. etransitivity; eassumption.
Qed.

#[local] Instance kept_callbacks_preorder : RelationClasses.PreOrder Kept.callbacks.
Proof.
  split; [intros e; split; reflexivity|].
  intros e1 e2 e3 [H12 F12] [H23 F23]. unfold Kept.callbacks, Kept.fired in *.
  split; congruence.
Qed.

(** *** The driver and the registry *)

Section KeptByTheDriver.

Import Scope.

Variable drv : driver.
Variable fs : string -> option string.
Variable run_script : string -> Migration.database -> option exn * Migration.database.
Variable peer : nat -> Migration.database -> Migration.database.

Lemma fired_emit ev w :
  (forall c, ev <> Fired c) -> Kept.fired w (emit ev w).
Proof.
  intros Hev. unfold Kept.fired, emit. cbn [events]. rewrite fired_app.
  destruct ev; simpl; try apply app_nil_r. exfalso. eapply Hev. reflexivity.
Qed.

Lemma on_server_keeps_registry {A} (m : M Migration.world A) :
  keeps Kept.registry (on_server m).
Proof. intros w. unfold on_server. destruct (m (server w)). reflexivity. Qed.

Lemma on_server_keeps_fired {A} (m : M Migration.world A) :
  keeps Kept.fired (on_server m).
Proof. intros w. unfold on_server. destruct (m (server w)). reflexivity. Qed.

Lemma get_database_pool_keeps (R : world -> world -> Prop)
  `{!RelationClasses.PreOrder R} : keeps R get_database_pool.
Proof. intros w. unfold get_database_pool. destruct (Scope.registry w); reflexivity. Qed.

Lemma on_world_keeps (R : world -> world -> Prop) {A} (m : M world A) :
  keeps R m -> keeps (Kept.outside R) (on_world m).
Proof.
  intros Hm e. unfold on_world, Kept.outside. specialize (Hm (outside e)).
  destruct (m (outside e)). exact Hm.
Qed.

Lemma update_self_keeps (R : world -> world -> Prop)
  `{!RelationClasses.PreOrder R} (f : scope -> scope) :
  keeps (Kept.outside R) (update_self f).
Proof. intros e. unfold Kept.outside. reflexivity. Qed.

Lemma on_world_keeps_callbacks {A} (m : M world A) :
  keeps Kept.fired m -> keeps Kept.callbacks (on_world m).
Proof.
  intros Hm e. unfold on_world. specialize (Hm (outside e)).
  destruct (m (outside e)). split; [reflexivity | exact Hm].
Qed.

Lemma update_self_keeps_callbacks (f : scope -> scope) :
  (forall s, callbacks (f s) = callbacks s) ->
  keeps Kept.callbacks (update_self f).
Proof. intros Hf e. split; [apply Hf | reflexivity]. Qed.

End KeptByTheDriver.

Create HintDb kept.

#[local] Hint Extern 0 (RelationClasses.PreOrder _) => typeclasses eauto : kept.

#[local] Hint Resolve keeps_ret keeps_raise keeps_diverge keeps_gets
  on_server_keeps_registry on_server_keeps_fired get_database_pool_keeps
  on_world_keeps update_self_keeps on_world_keeps_callbacks : kept.

(** The calls of the driver emit an event that is no callback, and leave
    the registry alone. *)
#[local] Hint Extern 1 (keeps Kept.registry _) => (intros ?; reflexivity) : kept.
#[local] Hint Extern 1 (keeps Kept.fired _) =>
  (intros ?; apply fired_emit; discriminate) : kept.
#[local] Hint Extern 1 (keeps Kept.callbacks (Scope.update_self _)) =>
  (apply update_self_keeps_callbacks; intros ?; reflexivity) : kept.
#[local] Hint Extern 1 (keeps _ (Scope.read_self _)) => (apply keeps_gets) : kept.

(** Goes through a coroutine, operation by operation. *)
Ltac kept :=
  repeat first
    [ solve [auto with kept]
    | apply keeps_bind; [ typeclasses eauto | | intro ]
    | apply keeps_try_finally; [ typeclasses eauto | | ]
    | match goal with
      | |- keeps _ (match ?x with _ => _ end) => destruct x
      | |- keeps _ (if ?x then _ else _) => destruct x
      end ].

Section KeptByTheScope.

Import Scope.

Variable drv : driver.
Variable body_of : nat -> callback_body.
Variable fs : string -> option string.
Variable run_script : string -> Migration.database -> option exn * Migration.database.
Variable peer : nat -> Migration.database -> Migration.database.

(** X6. A pool that [prepare_database] creates from an explicit
    configuration is never registered as the default pool: whatever the
    driver and the migration do, the registry is as it was. *)
Theorem X6_explicit_pool_is_not_registered (fuel c : nat)
  (handle_migration : option bool) (w : world) :
  registry (snd (prepare_database drv fs run_script peer fuel (Some c)
                   handle_migration w))
  = registry w.
Proof.
  assert (H : keeps Kept.registry
                (prepare_database drv fs run_script peer fuel (Some c) handle_migration)).
  { unfold prepare_database. kept. }
  apply H.
Qed.

(** [prepare_database] once it has its pool and its connection. *)
Lemma prepare_database_run fuel config handle_migration w p w1 con :
  match config with
  | None => _prepare_global_pool drv
  | Some c => create_pool drv (Some c)
  end w = (Ok p, w1) ->
  acquire_result drv w1 p None = Ok con ->
  prepare_database drv fs run_script peer fuel config handle_migration w
  = match
      match handle_migration, config with
      | Some true, _ | None, None =>
          on_server (Migration.create_tables fs run_script fuel)
      | _, _ => on_server (Migration.wait_for_migration fs peer fuel)
      end (emit (Acquire p None) w1)
    with
    | (OutOfFuel, w2) => (OutOfFuel, w2)
    | (r, w2) =>
        (match release_result drv w2 p (Some con) with
         | Some err => Raise err
         | None => match r with
                   | Ok _ => Ok p
                   | Raise e => Raise e
                   | OutOfFuel => OutOfFuel
                   end
         end, emit (Release p (Some con)) w2)
    end.
Proof.
  intros Hpool Hacq. unfold prepare_database.
  rewrite bind_run, Hpool, bind_run. unfold pool_acquire at 1. rewrite Hacq.
  rewrite bind_run, try_finally_run.
  match goal with |- context [match ?m (emit (Acquire p None) w1) with _ => _ end] =>
    destruct (m (emit (Acquire p None) w1)) as [[[]|e|] w2] end;
    unfold pool_release, ret; destruct (release_result drv w2 p (Some con)); reflexivity.
Qed.


(** X8. [_prepare_global_pool] creates the default pool once: when it
    returns a pool, that pool is registered, [get_database_pool] answers
    it, and a second call answers it again without creating a pool; and
    when a pool is registered already, it is answered and nothing is
    created. *)
Theorem X8_global_pool_is_created_once (w : world) :
  (forall p w1,
     _prepare_global_pool drv w = (Ok p, w1) ->
     registry w1 = Some p /\
     get_database_pool w1 = (Ok p, w1) /\
     _prepare_global_pool drv w1 = (Ok p, w1)) /\
  (forall q, registry w = Some q -> _prepare_global_pool drv w = (Ok q, w)).
Proof.
  split.
  - intros p w1 H. unfold _prepare_global_pool in H. rewrite bind_run in H.
    unfold gets at 1 in H.
    assert (Hreg : registry w1 = Some p).
    { destruct (registry w) as [q|] eqn:Hq.
      - inversion H; subst. exact Hq.
      - rewrite bind_run in H. unfold create_pool at 1 in H.
        destruct (create_pool_result drv w None); inversion H. reflexivity. }
    split; [exact Hreg|].
    unfold get_database_pool, _prepare_global_pool.
    rewrite bind_run. unfold gets. rewrite Hreg. split; reflexivity.
  - intros q Hq. unfold _prepare_global_pool. rewrite bind_run. unfold gets at 1.
    rewrite Hq. reflexivity.
Qed.

End KeptByTheScope.

(** ** Entering a scope *)

#[local] Instance kept_history_preorder : RelationClasses.PreOrder Kept.history.
Proof.
  split.
  - intros w. exists []. now rewrite app_nil_r.
  - intros w1 w2 w3 [evs Hevs] [evs' Hevs']. exists (evs ++ evs').
    rewrite Hevs', Hevs. now rewrite app_assoc.
Qed.

Lemma on_server_keeps_history {A} (m : M Migration.world A) :
  keeps Kept.history (Scope.on_server m).
Proof.
  intros w. unfold Scope.on_server. destruct (m (Scope.server w)).
  exists []. simpl. now rewrite app_nil_r.
Qed.

#[local] Hint Resolve on_server_keeps_history : kept.
#[local] Hint Extern 1 (keeps Kept.history _) =>
  (intros ?; eexists; reflexivity) : kept.
#[local] Hint Extern 2 (keeps Kept.history _) =>
  (intros ?; exists []; symmetry; apply app_nil_r) : kept.
#[local] Hint Extern 2 (keeps Kept.fired _) => (intros ?; reflexivity) : kept.

(** Also through the handlers of [try: ... except: ...]. *)
Ltac kept_all :=
  repeat first
    [ solve [auto with kept]
    | apply keeps_bind; [ typeclasses eauto | | intro ]
    | apply keeps_try_finally; [ typeclasses eauto | | ]
    | apply keeps_try_except;
      [ typeclasses eauto | |
        let e := fresh "e" in let h := fresh "h" in let He := fresh "He" in
        intros e h He; try destruct e; inversion He; subst; clear He ]
    | match goal with
      | |- keeps _ (match ?x with _ => _ end) => destruct x
      | |- keeps _ (if ?x then _ else _) => destruct x
      end ].

Section EntryBehaviour.

Import Scope.

Variable drv : driver.
Variable body_of : nat -> callback_body.
Variable fs : string -> option string.
Variable run_script : string -> Migration.database -> option exn * Migration.database.
Variable peer : nat -> Migration.database -> Migration.database.

Lemma prepare_database_keeps_fired fuel config handle_migration :
  keeps Kept.fired (prepare_database drv fs run_script peer fuel config handle_migration).
Proof. unfold prepare_database, _prepare_global_pool. kept_all. Qed.


Lemma aenter_keeps_callbacks fuel :
  keeps Kept.callbacks (__aenter__ drv fs run_script peer fuel).
Proof.
  pose proof prepare_database_keeps_fired.
  unfold __aenter__, recover, the_connection, set_database_pool, log_exception.
  kept_all.
Qed.

(** Entry when the pool hands a connection. *)
Lemma aenter_acquired fuel e con :
  connection (self e) = None ->
  acquire_result drv (outside e) (pool (self e)) (timeout (self e)) = Ok con ->
  __aenter__ drv fs run_script peer fuel e
  = (outcome (start_result drv (emit (Acquire (pool (self e)) (timeout (self e)))
                                  (outside e)) (transaction_on con)),
     {| self := set_transaction (Some (transaction_on con))
                  (set_connection (Some con) (self e));
        outside := add_events [Acquire (pool (self e)) (timeout (self e));
                               Start (transaction_on con)] (outside e) |}).
Proof.
  intros Hcon Hacq.
  unfold __aenter__. rewrite bind_run. unfold read_self at 1, gets. rewrite Hcon.
  rewrite bind_run. unfold try_except.
  rewrite bind_run. unfold read_self at 1, gets.
  rewrite bind_run. unfold read_self at 1, gets.
  rewrite bind_run. unfold on_world at 1, pool_acquire. rewrite Hacq.
  unfold update_self at 1, modify. cbn [self outside].
  unfold the_connection, bind, read_self, gets, update_self, modify, ret, on_world,
    tx_start. cbn [self outside connection set_connection].
  unfold add_events, emit. cbn [registry events server]. rewrite <- app_assoc.
  reflexivity.
Qed.

(** X9. When the transaction cannot be started, [__aenter__] raises while
    the scope keeps the connection it has just acquired: nothing releases
    it, and entering the scope again is refused. *)
Theorem X9_failed_start_keeps_the_connection (fuel : nat) (e : env)
  (con : Connection) (err : exn) :
  connection (self e) = None ->
  acquire_result drv (outside e) (pool (self e)) (timeout (self e)) = Ok con ->
  start_result drv (emit (Acquire (pool (self e)) (timeout (self e))) (outside e))
    (transaction_on con) = Some err ->
  exists e1,
    __aenter__ drv fs run_script peer fuel e = (Raise err, e1) /\
    connection (self e1) = Some con /\
    events (outside e1)
    = events (outside e) ++ [Acquire (pool (self e)) (timeout (self e));
                             Start (transaction_on con)] /\
    __aenter__ drv fs run_script peer fuel e1
    = (Raise (DatabaseError "Connection already in progress"), e1).
Proof.
  intros Hcon Hacq Hstart.
  rewrite (aenter_acquired fuel e con Hcon Hacq), Hstart.
  eexists. split; [reflexivity|]. split; [reflexivity|]. split; [reflexivity|].
  reflexivity.
Qed.

(** X10. Only [ConnectionDoesNotExistError] starts the recovery: any other
    error of the acquisition, a timeout for one, reaches the caller as it
    is, also on the default pool; nothing is logged, closed or created, and
    the scope is as it was. *)
Theorem X10_other_acquisition_errors_propagate (fuel : nat) (e : env) (err : exn) :
  connection (self e) = None ->
  acquire_result drv (outside e) (pool (self e)) (timeout (self e)) = Raise err ->
  err <> ConnectionDoesNotExistError ->
  __aenter__ drv fs run_script peer fuel e
  = (Raise err,
     {| self := self e;
        outside := emit (Acquire (pool (self e)) (timeout (self e))) (outside e) |}).
Proof.
  intros Hcon Hacq Herr.
  unfold __aenter__. rewrite bind_run. unfold read_self at 1, gets. rewrite Hcon.
  rewrite bind_run. unfold try_except.
  rewrite bind_run. unfold read_self at 1, gets.
  rewrite bind_run. unfold read_self at 1, gets.
  rewrite bind_run. unfold on_world at 1, pool_acquire. rewrite Hacq.
  destruct err; try reflexivity. congruence.
Qed.

Lemma bind_ok {S A B} (m : M S A) (k : A -> M S B) s b s' :
  bind m k s = (Ok b, s') ->
  exists a s1, m s = (Ok a, s1) /\ k a s1 = (Ok b, s').
Proof.
  unfold bind. destruct (m s) as [[a|e|] s1]; intros H; try discriminate.
  exists a, s1. split; [reflexivity | exact H].
Qed.





End EntryBehaviour.

(** ** Commit, callbacks and exit *)

Section CommitBehaviour.

Import Scope.

Variable drv : driver.
Variable body_of : nat -> callback_body.
Variable fs : string -> option string.
Variable run_script : string -> Migration.database -> option exn * Migration.database.
Variable peer : nat -> Migration.database -> Migration.database.

(** X12. [commit(create_new_transaction=True)] leaves the scope in use
    whatever happens to the commit: when it returns or raises, the scope
    has a new transaction on its connection, the start of that transaction
    is the last call made, and the scope is not marked done. *)
Theorem X12_commit_with_new_transaction_stays_usable (e : env) (tx : Transaction)
  (con : Connection) :
  transaction (self e) = Some tx ->
  connection (self e) = Some con ->
  transaction (self (snd (commit drv body_of true e))) = Some (transaction_on con) /\
  connection (self (snd (commit drv body_of true e))) = Some con /\
  done (self (snd (commit drv body_of true e))) = done (self e) /\
  exists evs,
    events (outside (snd (commit drv body_of true e)))
    = events (outside e) ++ Commit tx :: evs ++ [Start (transaction_on con)].
Proof.
  intros Ht Hcon. rewrite (commit_with_new_transaction drv body_of e tx con Ht Hcon).
  destruct (commit_result drv (outside e) tx) as [err|].
  - cbn [snd self outside transaction connection done set_transaction set_callbacks
         add_events events].
    repeat split; try assumption. exists []. reflexivity.
  - destruct (callbacks_run body_of (callbacks (self e)) []) as [[ran after] stopped].
    cbn [snd self outside transaction connection done set_transaction set_callbacks
         add_events events].
    repeat split; try assumption. exists (map Fired ran). reflexivity.
Qed.

(** A commit that returns has run the pending callbacks, in order. *)
Lemma commit_fires_pending b e tx e' :
  transaction (self e) = Some tx ->
  commit drv body_of b e = (Ok tt, e') ->
  fired (events (outside e')) = fired (events (outside e)) ++ callbacks (self e).
Proof.
  intros Ht Hcommit. destruct b.
  - destruct (connection (self e)) as [con|] eqn:Hcon.
    + rewrite (commit_with_new_transaction drv body_of e tx con Ht Hcon) in Hcommit.
      destruct (commit_result drv (outside e) tx) as [err|].
      * destruct (start_result drv _ _); inversion Hcommit.
      * destruct (callbacks_run body_of (callbacks (self e)) [])
          as [[ran after] stopped] eqn:Hrun.
        destruct (start_result drv _ _); [inversion Hcommit|].
        destruct stopped; [inversion Hcommit|].
        pose proof (callbacks_run_all body_of _ _ _ _ Hrun) as ->.
        inversion Hcommit; subst e'. cbn [outside add_events events].
        rewrite fired_app. f_equal. simpl fired.
        rewrite fired_app, fired_map. simpl. apply app_nil_r.
    + exfalso. apply (commit_needs_connection drv body_of e tx Ht Hcon).
      now rewrite Hcommit.
  - rewrite (commit_without_new_transaction drv body_of e tx Ht) in Hcommit.
    destruct (commit_result drv (outside e) tx) as [err|]; [inversion Hcommit|].
    destruct (callbacks_run body_of (callbacks (self e)) [])
      as [[ran after] stopped] eqn:Hrun.
    destruct stopped; [inversion Hcommit|].
    pose proof (callbacks_run_all body_of _ _ _ _ Hrun) as ->.
    inversion Hcommit; subst e'. cbn [outside add_events events].
    rewrite fired_app. f_equal. simpl fired. apply fired_map.
Qed.

(** An exit that rolls back, or finds no transaction, runs no callback and
    leaves the callback list as it is. *)
Lemma exit_without_commit_keeps_callbacks extype e :
  (forall tx, transaction (self e) = Some tx ->
     (match extype with Some _ => true | None => false end)
     || negb (autocommit (self e)) = true) ->
  Kept.callbacks e (snd (__aexit__ drv body_of extype e)).
Proof.
  intros Hcond.
  destruct (__aexit__ drv body_of extype e) as [r e1] eqn:Hexit. cbn [snd].
  unfold __aexit__ in Hexit. rewrite try_finally_run, bind_run in Hexit.
  unfold read_self at 1, gets in Hexit.
  destruct (transaction (self e)) as [tx|] eqn:Ht.
  - rewrite bind_run in Hexit. unfold read_self at 1, gets in Hexit.
    rewrite (Hcond tx eq_refl) in Hexit.
    unfold on_world at 1, tx_rollback in Hexit. cbn [self outside] in Hexit.
    destruct (rollback_result drv (outside e) tx) as [err|]; cbn [outcome] in Hexit;
      rewrite exit_finally, after_release in Hexit; inversion Hexit; subst r e1;
      (split; [reflexivity|]); unfold Kept.fired; cbn [self outside events emit];
      rewrite !fired_app; simpl; now rewrite !app_nil_r.
  - unfold ret in Hexit. rewrite exit_finally, after_release in Hexit.
    inversion Hexit; subst r e1.
    split; [reflexivity|]. unfold Kept.fired. cbn [self outside events emit].
    rewrite fired_app. simpl. now rewrite app_nil_r.
Qed.

(** X13. Callbacks outlive a rollback.  [__aexit__] does not clear the
    callback list when it rolls back: when the scope is then entered again
    and a commit returns, the callbacks that were registered before the
    rollback run at that commit, in their order. *)
Theorem X13_callbacks_outlive_a_rollback (fuel : nat) (e e3 : env) (extype : option exn)
  (b : bool) :
  (forall tx, transaction (self e) = Some tx ->
     (match extype with Some _ => true | None => false end)
     || negb (autocommit (self e)) = true) ->
  (__aexit__ drv body_of extype ;;;
   __aenter__ drv fs run_script peer fuel ;;;
   commit drv body_of b) e = (Ok tt, e3) ->
  fired (events (outside e3)) = fired (events (outside e)) ++ callbacks (self e).
Proof.
  intros Hcond Hrun.
  apply bind_ok in Hrun. destruct Hrun as ([] & e1 & Hexit & Hrun).
  apply bind_ok in Hrun. destruct Hrun as ([] & e2 & Henter & Hcommit).
  pose proof (exit_without_commit_keeps_callbacks extype e Hcond) as [Hc1 Hf1].
  rewrite Hexit in Hc1, Hf1. cbn [snd] in Hc1, Hf1.
  pose proof (aenter_keeps_callbacks drv fs run_script peer fuel e1) as [Hc2 Hf2].
  rewrite Henter in Hc2, Hf2. cbn [snd] in Hc2, Hf2.
  unfold Kept.fired in Hf1, Hf2.
  destruct (transaction (self e2)) as [tx2|] eqn:Ht2.
  - rewrite (commit_fires_pending b e2 tx2 e3 Ht2 Hcommit). congruence.
  - unfold commit, bind, read_self, gets in Hcommit. rewrite Ht2 in Hcommit.
    discriminate.
Qed.

End CommitBehaviour.

(** ** Handlers *)

Section HandlerBehaviour.

Import Scope Handlers.

Variable drv : driver.
Variable body_of : nat -> callback_body.
Variable fs : string -> option string.
Variable run_script : string -> Migration.database -> option exn * Migration.database.
Variable peer : nat -> Migration.database -> Migration.database.

Lemma on_db_cached {A} (m : M env A) h s :
  _dbcontext (this h) = Some s ->
  on_db m h
  = (fst (m {| self := s; outside := around h |}),
     {| this := {| _dbcontext :=
                     Some (self (snd (m {| self := s; outside := around h |}))) |};
        around := outside (snd (m {| self := s; outside := around h |})) |}).
Proof.
  intros Hs. unfold on_db. rewrite bind_run. unfold db. rewrite Hs.
  destruct (m {| self := s; outside := around h |}). reflexivity.
Qed.

(** The exit of a scope that rolls back. *)
Lemma exit_rolls_back extype s w tx con :
  transaction s = Some tx ->
  connection s = Some con ->
  (match extype with Some _ => true | None => false end) || negb (autocommit s) = true ->
  __aexit__ drv body_of extype {| self := s; outside := w |}
  = (match release_result drv (emit (Rollback tx) w) (pool s) (Some con) with
     | Some err => Raise err
     | None => outcome (rollback_result drv w tx)
     end,
     {| self := set_done true (set_connection None (set_transaction None s));
        outside := add_events [Rollback tx; Release (pool s) (Some con)] w |}).
Proof.
  intros Ht Hcon Hcond.
  unfold __aexit__. rewrite try_finally_run, bind_run.
  unfold read_self at 1, gets. cbn [self]. rewrite Ht.
  rewrite bind_run. unfold read_self at 1, gets. cbn [self]. rewrite Hcond.
  unfold on_world at 1, tx_rollback. cbn [self outside].
  destruct (rollback_result drv w tx) as [err|]; cbn [outcome];
    rewrite exit_finally, after_release; cbn [self outside]; rewrite Hcon;
    unfold add_events, emit; cbn [registry events server]; rewrite <- app_assoc;
    reflexivity.
Qed.

(** X14. [with_database] does not commit for the handler.  When the block
    is left, by a return or by an exception, with the transaction of the
    context still active and autocommit off, as [DatabaseMixin] creates its
    context, the transaction is rolled back and the connection released,
    in this order and as the last calls; and when both calls succeed the
    caller gets what the handler returned or raised. *)
Theorem X14_with_database_rolls_back {A : Type} (fuel : nat) (fn : M henv A)
  (h h1 h2 : henv) (r : result A) (s2 : scope) (tx : Transaction) (con : Connection) :
  on_db (__aenter__ drv fs run_script peer fuel) h = (Ok tt, h1) ->
  fn h1 = (r, h2) ->
  r <> OutOfFuel ->
  _dbcontext (this h2) = Some s2 ->
  transaction s2 = Some tx ->
  connection s2 = Some con ->
  autocommit s2 = false ->
  events (around (snd (with_database drv body_of fs run_script peer fuel fn h)))
  = events (around h2) ++ [Rollback tx; Release (pool s2) (Some con)] /\
  (rollback_result drv (around h2) tx = None ->
   release_result drv (emit (Rollback tx) (around h2)) (pool s2) (Some con) = None ->
   fst (with_database drv body_of fs run_script peer fuel fn h) = r).
Proof.
  intros Henter Hfn Hr Hs2 Ht Hcon Hauto.
  unfold with_database. rewrite bind_run, Henter, Hfn.
  assert (Hcond : forall extype : option exn,
            (match extype with Some _ => true | None => false end)
            || negb (autocommit s2) = true).
  { intros extype. rewrite Hauto. apply orb_true_r. }
  destruct r as [a|x|]; [| |congruence].
  - rewrite bind_run, (on_db_cached _ h2 s2 Hs2).
    rewrite (exit_rolls_back None s2 (around h2) tx con Ht Hcon (Hcond None)).
    cbn [fst snd self outside].
    destruct (release_result drv (emit (Rollback tx) (around h2)) (pool s2) (Some con))
      as [err|] eqn:Hrel;
      destruct (rollback_result drv (around h2) tx) as [err'|] eqn:Hroll;
      cbn [outcome fst snd around add_events events];
      (split; [reflexivity | intros; congruence || reflexivity]).
  - rewrite bind_run, (on_db_cached _ h2 s2 Hs2).
    rewrite (exit_rolls_back (Some x) s2 (around h2) tx con Ht Hcon (Hcond (Some x))).
    cbn [fst snd self outside].
    destruct (release_result drv (emit (Rollback tx) (around h2)) (pool s2) (Some con))
      as [err|] eqn:Hrel;
      destruct (rollback_result drv (around h2) tx) as [err'|] eqn:Hroll;
      cbn [outcome fst snd around add_events events];
      (split; [reflexivity | intros; congruence || reflexivity]).
Qed.

(** X15. The context of a handler is created once, on the pool that was
    the default then.  After the default pool was replaced, the handler
    still enters the old pool, and a connection that does not exist there
    is not recovered: [with_database] raises the error and the handler does
    not run. *)
Theorem X15_cached_context_is_not_recovered {A : Type} (fuel : nat) (fn : M henv A)
  (h : henv) (s : scope) (g : Pool) :
  _dbcontext (this h) = Some s ->
  connection s = None ->
  registry (around h) = Some g ->
  pool s <> g ->
  acquire_result drv (around h) (pool s) (timeout s) = Raise ConnectionDoesNotExistError ->
  fst (db h) = Ok s /\
  with_database drv body_of fs run_script peer fuel fn h
  = (Raise ConnectionDoesNotExistError,
     {| this := {| _dbcontext := Some s |};
        around := add_events [Acquire (pool s) (timeout s);
                              LogException "Error acquiring connection"] (around h) |}).
Proof.
  intros Hs Hcon Hreg Hg Hacq. split.
  - unfold db. rewrite Hs. reflexivity.
  - unfold with_database. rewrite bind_run, (on_db_cached _ h s Hs).
    rewrite (aenter_other_pool drv fs run_script peer fuel
               {| self := s; outside := around h |} g Hcon Hacq Hreg Hg).
    reflexivity.
Qed.

End HandlerBehaviour.

(** ** The acquire loop, read backwards *)

Section SafePoolRuns.

Variable pool : Type.
Variable connection : Type.
Variable super_acquire : option nat -> M pool connection.
Variable release : connection -> M pool unit.
Variable is_closed : connection -> pool -> bool.

(** X16. Every connection that [SafePool._acquire] skipped was closed and
    was released before the driver was asked again: when it returns a
    connection, the pool went through a run of closed connections, each
    acquired and released in turn, and the connection returned is what the
    driver handed back next; the state of the pool is the driver's. *)
Theorem X16_acquire_releases_what_it_skips (timeout : option nat) (fuel : nat)
  (p p' : pool) (con : connection) :
  SafePool._acquire super_acquire release is_closed fuel timeout p = (Ok con, p') ->
  exists cons p1,
    SafePool.discards super_acquire release is_closed timeout p cons p1 /\
    super_acquire timeout p1 = (Ok con, p') /\
    length cons < fuel.
Proof.
  revert p. induction fuel as [|fuel IH]; intros p H.
  - discriminate H.
  - cbn [SafePool._acquire] in H. rewrite bind_run in H.
    destruct (super_acquire timeout p) as [[c| |] q] eqn:Hacq; try discriminate H.
    rewrite bind_run in H. unfold gets at 1 in H.
    destruct (is_closed c q) eqn:Hclosed.
    + rewrite bind_run in H.
      destruct (release c q) as [[[]| |] q2] eqn:Hrel; try discriminate H.
      destruct (IH q2 H) as (cons & p1 & Hd & Hlast & Hlen).
      exists (c :: cons), p1. split; [|split].
      * eapply SafePool.discards_cons; eassumption.
      * exact Hlast.
      * simpl. lia.
    + inversion H; subst. exists [], p. split; [|split].
      * apply SafePool.discards_nil.
      * exact Hacq.
      * simpl. lia.
Qed.

(** X17. [SafePool._acquire] raises nothing of its own: an exception that
    leaves it was raised by the driver, either when a connection was
    acquired or when a closed connection was released, after a run of
    closed connections that were acquired and released; the loop does not
    go on after it. *)
Theorem X17_acquire_errors_are_the_drivers (timeout : option nat) (fuel : nat)
  (p p' : pool) (x : exn) :
  SafePool._acquire super_acquire release is_closed fuel timeout p = (Raise x, p') ->
  exists cons p1,
    SafePool.discards super_acquire release is_closed timeout p cons p1 /\
    (super_acquire timeout p1 = (Raise x, p') \/
     exists con p2,
       super_acquire timeout p1 = (Ok con, p2) /\
       is_closed con p2 = true /\
       release con p2 = (Raise x, p')).
Proof.
  revert p. induction fuel as [|fuel IH]; intros p H.
  - discriminate H.
  - cbn [SafePool._acquire] in H. rewrite bind_run in H.
    destruct (super_acquire timeout p) as [[c|y|] q] eqn:Hacq; try discriminate H.
    + rewrite bind_run in H. unfold gets at 1 in H.
      destruct (is_closed c q) eqn:Hclosed; [|discriminate H].
      rewrite bind_run in H.
      destruct (release c q) as [[[]|y|] q2] eqn:Hrel; try discriminate H.
      * destruct (IH q2 H) as (cons & p1 & Hd & Hlast).
        exists (c :: cons), p1. split; [|exact Hlast].
        eapply SafePool.discards_cons; eassumption.
      * inversion H; subst. exists [], p. split; [apply SafePool.discards_nil|].
        right. exists c, q. auto.
    + inversion H; subst. exists [], p. split; [apply SafePool.discards_nil|].
      left. exact Hacq.
Qed.

End SafePoolRuns.

(** ** Pool construction *)

Section PoolArguments.

Import PoolSetup.

Lemma dict_get_set_same k v d : dict_get k (dict_set k v d) = Some v.
Proof.
  induction d as [|[k' v'] d IH]; simpl.
  - now rewrite String.eqb_refl.
  - destruct (String.eqb k k') eqn:E; simpl.
    + now rewrite String.eqb_refl.
    + now rewrite E.
Qed.

Lemma dict_get_set_other k k' v d :
  k <> k' -> dict_get k (dict_set k' v d) = dict_get k d.
Proof.
  intros Hk. apply String.eqb_neq in Hk.
  induction d as [|[k2 v2] d IH]; simpl.
  - now rewrite Hk.
  - destruct (String.eqb k' k2) eqn:E; simpl.
    + apply String.eqb_eq in E. subst k2. now rewrite Hk.
    + now rewrite IH.
Qed.

Variable int_of_str : string -> option Z.
Variable repr : string -> string.
Variable asyncpg : asyncpg_version.
Variable pool_object : Type.
Variable SafePool : pool_call -> result pool_object.

Lemma version_kwargs_other lifetime init class d k :
  k <> "init"%string -> k <> "connection_class"%string ->
  k <> "max_inactive_connection_lifetime"%string ->
  dict_get k (version_kwargs asyncpg lifetime init class d) = dict_get k d.
Proof.
  intros Hi Hc Hm. unfold version_kwargs.
  destruct (has_connection_class_slot asyncpg), (has_PoolConnectionHolder asyncpg),
    (has_init_slot asyncpg);
    repeat rewrite dict_get_set_other by assumption; reflexivity.
Qed.

(** X18. The pool constructor is never asked for more connections at the
    least than at the most: when both sizes are integers or parse as such,
    [create_pool] answers what [SafePool(...)] answers to a call with
    [max_size] as it is and the smaller of [min_size] and [max_size] as the
    minimum; the checks of the constructor itself are not of this
    repository and apply to that call.  When [int] fails on [min_size], or
    on [max_size] while [min_size] is fine, [create_pool] raises the
    [ValueError] of [int], whatever the constructor would answer; and these
    are the only cases in which it does not get to the constructor. *)
Theorem X18_create_pool_clamps_min_size (dsn : kwvalue) (min_size max_size : size_arg)
  (max_queries lifetime setup loop init : kwvalue) (ssl : ssl_arg)
  (class : kwvalue) (connect_kwargs : kwargs) :
  (forall a b,
     as_int int_of_str min_size = Built a ->
     as_int int_of_str max_size = Built b ->
     exists c,
       pool_arguments int_of_str asyncpg dsn min_size max_size max_queries lifetime
         setup loop init ssl class connect_kwargs = Built c /\
       create_pool int_of_str repr asyncpg pool_object SafePool dsn min_size max_size
         max_queries lifetime setup loop init ssl class connect_kwargs = SafePool c /\
       call_max_size c = b /\
       call_min_size c = Z.min a b /\
       (call_min_size c <= call_max_size c)%Z) /\
  (forall literal,
     as_int int_of_str min_size = NotAnInt literal \/
     ((exists a, as_int int_of_str min_size = Built a) /\
      as_int int_of_str max_size = NotAnInt literal) ->
     create_pool int_of_str repr asyncpg pool_object SafePool dsn min_size max_size
       max_queries lifetime setup loop init ssl class connect_kwargs
     = Raise (int_error repr literal)) /\
  (forall literal,
     pool_arguments int_of_str asyncpg dsn min_size max_size max_queries lifetime
       setup loop init ssl class connect_kwargs = NotAnInt literal <->
     as_int int_of_str min_size = NotAnInt literal \/
     ((exists a, as_int int_of_str min_size = Built a) /\
      as_int int_of_str max_size = NotAnInt literal)).
Proof.
  assert (Hargs : forall literal,
     pool_arguments int_of_str asyncpg dsn min_size max_size max_queries lifetime
       setup loop init ssl class connect_kwargs = NotAnInt literal <->
     as_int int_of_str min_size = NotAnInt literal \/
     ((exists a, as_int int_of_str min_size = Built a) /\
      as_int int_of_str max_size = NotAnInt literal)).
  { intros literal. unfold pool_arguments.
    destruct (as_int int_of_str min_size) as [a|l1];
      [destruct (as_int int_of_str max_size) as [b|l2]|]; cbv zeta.
    + split; [discriminate|]. intros [H|[_ H]]; discriminate H.
    + split.
      * intros H. inversion H; subst. right. split; [now exists a | reflexivity].
      * intros [H|[_ H]]; [discriminate H | now inversion H].
    + split.
      * intros H. inversion H; subst. now left.
      * intros [H|[[a Ha] _]]; [now inversion H | discriminate Ha]. }
  split; [|split].
  - intros a b Ha Hb. unfold create_pool, pool_arguments. rewrite Ha, Hb. cbv zeta.
    eexists. split; [reflexivity|]. split; [reflexivity|].
    cbn [call_max_size call_min_size].
    destruct (Z.ltb_spec b a); repeat split; lia.
  - intros literal H. apply Hargs in H. unfold create_pool. rewrite H. reflexivity.
  - exact Hargs.
Qed.

(** X19. What [create_pool] does to the caller's keyword arguments, in the
    call of [SafePool] that it ends with: [ssl] is handed on exactly when
    it is truthy, [True] as the context that checks neither host name nor
    certificate and a context as it is; [init] is handed on when the
    installed asyncpg has the connection holder or the [_init] slot, and is
    dropped without a word otherwise; every keyword other than [ssl],
    [init], [connection_class] and [max_inactive_connection_lifetime]
    reaches the pool with the value the caller gave. *)
Theorem X19_create_pool_keywords (dsn : kwvalue) (min_size max_size : size_arg)
  (max_queries lifetime setup loop init : kwvalue) (ssl : ssl_arg)
  (class : kwvalue) (connect_kwargs : kwargs) (c : pool_call) :
  pool_arguments int_of_str asyncpg dsn min_size max_size max_queries lifetime
    setup loop init ssl class connect_kwargs = Built c ->
  dict_get "ssl" connect_kwargs = None ->
  dict_get "init" connect_kwargs = None ->
  create_pool int_of_str repr asyncpg pool_object SafePool dsn min_size max_size
    max_queries lifetime setup loop init ssl class connect_kwargs = SafePool c /\
  dict_get "ssl" (call_kwargs c)
  = match ssl with
    | SslBool true => Some (KwContext SSL_CTX)
    | SslContext ctx => Some (KwContext ctx)
    | SslBool false | SslNone => None
    end /\
  dict_get "init" (call_kwargs c)
  = (if has_PoolConnectionHolder asyncpg || has_init_slot asyncpg
     then Some init else None) /\
  (forall k, k <> "ssl"%string -> k <> "init"%string ->
             k <> "connection_class"%string ->
             k <> "max_inactive_connection_lifetime"%string ->
             dict_get k (call_kwargs c) = dict_get k connect_kwargs).
Proof.
  intros Hc Hssl Hinit.
  split; [unfold create_pool; rewrite Hc; reflexivity|].
  unfold pool_arguments in Hc.
  destruct (as_int int_of_str min_size) as [a|]; [|discriminate Hc].
  destruct (as_int int_of_str max_size) as [b|]; [|discriminate Hc].
  cbv zeta in Hc. inversion Hc; subst c; clear Hc. cbn [call_kwargs].
  assert (Hv : dict_get "ssl" (version_kwargs asyncpg lifetime init class connect_kwargs)
               = None).
  { rewrite version_kwargs_other by discriminate. exact Hssl. }
  split; [|split].
  - unfold ssl_kwargs. destruct ssl as [|[|]|ctx];
      try exact Hv; apply dict_get_set_same.
  - assert (Hs : dict_get "init"
                   (ssl_kwargs ssl (version_kwargs asyncpg lifetime init class
                                      connect_kwargs))
                 = dict_get "init" (version_kwargs asyncpg lifetime init class
                                      connect_kwargs)).
    { unfold ssl_kwargs. destruct ssl as [|[|]|ctx];
        try reflexivity; apply dict_get_set_other; discriminate. }
    rewrite Hs. unfold version_kwargs.
    destruct (has_connection_class_slot asyncpg), (has_PoolConnectionHolder asyncpg),
      (has_init_slot asyncpg); cbn [orb];
      try apply dict_get_set_same;
      try (rewrite dict_get_set_other by discriminate); exact Hinit.
  - intros k Hk1 Hk2 Hk3 Hk4.
    transitivity (dict_get k (version_kwargs asyncpg lifetime init class connect_kwargs)).
    + unfold ssl_kwargs. destruct ssl as [|[|]|ctx];
        try reflexivity; apply dict_get_set_other; exact Hk1.
    + apply version_kwargs_other; assumption.
Qed.

End PoolArguments.

(** ** Statements of [update] *)

Section UpdateBehaviour.

Import Scope.

Variable drv : driver.

Lemma numbered_keys first items items' :
  map fst items = map fst items' -> numbered first items = numbered first items'.
Proof.
  revert first items'.
  induction items as [|[k v] items IH]; intros first [|[k' v'] items'] H;
    try discriminate H; [reflexivity|].
  simpl in H. inversion H; subst. rewrite !numbered_cons. f_equal. now apply IH.
Qed.

(** [update] with acceptable arguments, in a scope with a transaction. *)
Lemma update_sends e tx table update_args query_args assignments conditions :
  transaction (self e) = Some tx ->
  read_items update_args = Accepted assignments ->
  read_conditions query_args = Accepted conditions ->
  update drv table update_args query_args e
  = send drv (update_statement table assignments conditions)
      (bound_values assignments conditions) e.
Proof.
  intros Ht Hitems Hconds.
  rewrite (update_assignments drv e tx table update_args query_args Ht).
  rewrite Hitems, Hconds. reflexivity.
Qed.

(** X20. [update] never writes a value into the statement: two calls on
    the same table whose assignments have the same keys and whose
    conditions have the same keys send the same text, and each sends its
    own values as bound arguments, the values of the assignments before
    those of the conditions.  So a string value is not quoted either. *)
Theorem X20_update_binds_values_only (e : env) (tx : Transaction) (con : Connection)
  (table : string) (update_args update_args' query_args query_args' : pyarg)
  (a a' : list (string * pyval)) (c c' : option (list (string * pyval))) :
  transaction (self e) = Some tx ->
  connection (self e) = Some con ->
  read_items update_args = Accepted a ->
  read_items update_args' = Accepted a' ->
  read_conditions query_args = Accepted c ->
  read_conditions query_args' = Accepted c' ->
  map fst a = map fst a' ->
  option_map (map fst) c = option_map (map fst) c' ->
  exists query,
    events (outside (snd (update drv table update_args query_args e)))
    = events (outside e) ++ [ConExecute con query (bound_values a c)] /\
    events (outside (snd (update drv table update_args' query_args' e)))
    = events (outside e) ++ [ConExecute con query (bound_values a' c')].
Proof.
  intros Ht Hcon Ha Ha' Hc Hc' Hkeys Hckeys.
  exists (update_statement table a c).
  rewrite (update_sends e tx table update_args query_args a c Ht Ha Hc).
  rewrite (update_sends e tx table update_args' query_args' a' c' Ht Ha' Hc').
  assert (Hq : update_statement table a' c' = update_statement table a c).
  { unfold update_statement. rewrite (numbered_keys 1 a a' Hkeys).
    replace (length a') with (length a)
      by (rewrite <- (length_map fst a), Hkeys; apply length_map).
    destruct c as [c|], c' as [c'|]; simpl in Hckeys; try discriminate Hckeys.
    - inversion Hckeys as [Hk]. now rewrite (numbered_keys _ c c' Hk).
    - reflexivity. }
  rewrite Hq, !(send_answer drv _ con _ _ Hcon).
  split.
  - destruct (execute_result drv (outside e) con (update_statement table a c)
                (bound_values a c)) as [resp| |]; reflexivity.
  - destruct (execute_result drv (outside e) con (update_statement table a c)
                (bound_values a' c')) as [resp| |]; reflexivity.
Qed.

Lemma status_is_no_error s : reports_error (RespStatus s) = false.
Proof.
  destruct s as [|ch s]; [reflexivity|]. cbn [reports_error].
  cbn [String.prefix].
  destruct (Ascii.ascii_dec "E" ch); reflexivity.
Qed.

(** X21. An answer that is a status string, which is what the driver's
    [execute] gives, is returned by [update] whatever it says: the test
    looks at its first character only, so the error branch is taken for no
    status string, not for one that starts with "ERROR:" either. *)
Theorem X21_update_returns_every_status (e : env) (tx : Transaction) (con : Connection)
  (table : string) (update_args query_args : pyarg)
  (a : list (string * pyval)) (c : option (list (string * pyval))) (status : string) :
  transaction (self e) = Some tx ->
  connection (self e) = Some con ->
  read_items update_args = Accepted a ->
  read_conditions query_args = Accepted c ->
  execute_result drv (outside e) con (update_statement table a c) (bound_values a c)
  = Ok (RespStatus status) ->
  fst (update drv table update_args query_args e) = Ok (RespStatus status).
Proof.
  intros Ht Hcon Ha Hc Hex.
  rewrite (update_sends e tx table update_args query_args a c Ht Ha Hc).
  rewrite (send_answer drv _ con _ _ Hcon), Hex, status_is_no_error. reflexivity.
Qed.

End UpdateBehaviour.

(** ** Commits that fail *)

Section FailedCommits.

Import Scope.

Variable drv : driver.
Variable body_of : nat -> callback_body.
Variable fs : string -> option string.
Variable run_script : string -> Migration.database -> option exn * Migration.database.
Variable peer : nat -> Migration.database -> Migration.database.

(** X22. When the driver's commit raises, the pending callbacks are lost:
    none has run, the callback list of the scope is empty, and [commit]
    raises; without a new transaction it raises the driver's error and
    leaves the scope done and without transaction. *)
Theorem X22_failed_commit_drops_callbacks (b : bool) (e : env) (tx : Transaction)
  (err : exn) :
  transaction (self e) = Some tx ->
  commit_result drv (outside e) tx = Some err ->
  callbacks (self (snd (commit drv body_of b e))) = [] /\
  fired (events (outside (snd (commit drv body_of b e)))) = fired (events (outside e)) /\
  (exists err', fst (commit drv body_of b e) = Raise err') /\
  (b = false ->
   fst (commit drv body_of b e) = Raise err /\
   transaction (self (snd (commit drv body_of b e))) = None /\
   done (self (snd (commit drv body_of b e))) = true).
Proof.
  intros Ht Herr. destruct b.
  - destruct (connection (self e)) as [con|] eqn:Hcon.
    + rewrite (commit_with_new_transaction drv body_of e tx con Ht Hcon), Herr.
      cbn [fst snd self outside callbacks set_transaction set_callbacks].
      unfold add_events. cbn [events]. rewrite fired_app. cbn [fired]. rewrite app_nil_r.
      repeat split; try discriminate.
      destruct (start_result drv _ (transaction_on con)); eexists; reflexivity.
    + rewrite (commit_failed_without_connection drv body_of e tx err Ht Herr Hcon).
      cbn [fst snd self outside callbacks set_callbacks].
      unfold add_events. cbn [events]. rewrite fired_app. cbn [fired]. rewrite app_nil_r.
      repeat split; try discriminate. eexists; reflexivity.
  - rewrite (commit_without_new_transaction drv body_of e tx Ht), Herr.
    cbn [fst snd self outside callbacks transaction done set_transaction set_done
         set_callbacks].
    unfold add_events. cbn [events]. rewrite fired_app. cbn [fired]. rewrite app_nil_r.
    repeat split. eexists; reflexivity.
Qed.

Lemma callbacks_run_stops before c rest x :
  (forall p, In p before -> fails (body_of p) = None) ->
  fails (body_of c) = Some x ->
  forall registered,
    exists after,
      callbacks_run body_of (before ++ c :: rest) registered
      = (before ++ [c], after, Some x).
Proof.
  intros Hbefore Hc. induction before as [|p before IH]; intros registered.
  - cbn [app callbacks_run]. rewrite Hc. eexists; reflexivity.
  - cbn [app callbacks_run]. rewrite (Hbefore p (or_introl eq_refl)).
    destruct (IH (fun q Hq => Hbefore q (or_intror Hq))
                 (register_all (registers (body_of p)) registered)) as [after Hrun].
    rewrite Hrun. eexists; reflexivity.
Qed.

(** X23. A callback that raises ends the run of the callbacks: [commit]
    raises its exception after the transaction is committed, the callbacks
    behind it in the list have not run, and they are no longer pending:
    what the list holds afterwards was registered by a callback that ran. *)
Theorem X23_raising_callback_stops_the_rest (e : env) (tx : Transaction)
  (before rest : list nat) (c : nat) (x : exn) :
  transaction (self e) = Some tx ->
  commit_result drv (outside e) tx = None ->
  callbacks (self e) = before ++ c :: rest ->
  (forall p, In p before -> fails (body_of p) = None) ->
  fails (body_of c) = Some x ->
  fst (commit drv body_of false e) = Raise x /\
  events (outside (snd (commit drv body_of false e)))
  = events (outside e) ++ Commit tx :: map Fired (before ++ [c]) /\
  (forall q, In q (callbacks (self (snd (commit drv body_of false e)))) ->
             exists p, In p (before ++ [c]) /\ In q (registers (body_of p))).
Proof.
  intros Ht Hok Hcbs Hbefore Hc.
  rewrite (commit_without_new_transaction drv body_of e tx Ht), Hok, Hcbs.
  destruct (callbacks_run_stops before c rest x Hbefore Hc []) as [after Hrun].
  rewrite Hrun. cbn [fst snd outcome self outside callbacks set_transaction set_done
                     set_callbacks add_events events].
  split; [reflexivity|]. split; [reflexivity|].
  intros q Hq.
  destruct (proj1 (callbacks_run_after body_of _ _ _ _ _ Hrun q) Hq) as [[]|H].
  exact H.
Qed.

(** X24. [acquire] gives a context of its own on the same pool: it takes
    the pool and the timeout of the scope, and the autocommit flag unless
    one is given, but neither connection, transaction, callbacks nor the
    done flag.  So it can be entered while the scope it came from holds its
    connection: a second connection is acquired from the same pool. *)
Theorem X24_acquired_context_enters_beside_its_parent (fuel : nat) (s : scope)
  (a : option bool) (w : world) (con : Connection) :
  acquire_result drv w (pool s) (timeout s) = Ok con ->
  start_result drv (emit (Acquire (pool s) (timeout s)) w) (transaction_on con) = None ->
  __aenter__ drv fs run_script peer fuel {| self := acquire s a; outside := w |}
  = (Ok tt,
     {| self := {| timeout := timeout s; connection := Some con;
                   transaction := Some (transaction_on con);
                   autocommit := match a with Some b => b | None => autocommit s end;
                   pool := pool s; done := false; callbacks := [] |};
        outside := add_events [Acquire (pool s) (timeout s); Start (transaction_on con)]
                     w |}).
Proof.
  intros Hacq Hstart.
  rewrite (aenter_acquired drv fs run_script peer fuel
             {| self := acquire s a; outside := w |} con eq_refl Hacq).
  cbn [self outside acquire __init__ pool timeout]. rewrite Hstart.
  destruct a; reflexivity.
Qed.

(** X25. Without [sql/create_tables.sql], [prepare_database] does no
    migration and does not wait for one: in either mode it logs one
    warning, sends nothing to the database, releases the connection and
    returns the pool. *)
Theorem X25_missing_bootstrap_skips_migration (fuel : nat) (config : option nat)
  (handle_migration : option bool) (w w1 : world) (p : Pool) (con : Connection) :
  fs Migration.bootstrap_path = None ->
  match config with
  | None => _prepare_global_pool drv
  | Some c => create_pool drv (Some c)
  end w = (Ok p, w1) ->
  acquire_result drv w1 p None = Ok con ->
  release_result drv
    {| registry := registry w1; events := events w1 ++ [Acquire p None];
       server := Migration.logged (Migration.LogWarning Migration.missing_message)
                   (server w1) |} p (Some con) = None ->
  prepare_database drv fs run_script peer fuel config handle_migration w
  = (Ok p,
     {| registry := registry w1;
        events := events w1 ++ [Acquire p None; Release p (Some con)];
        server := Migration.logged (Migration.LogWarning Migration.missing_message)
                    (server w1) |}).
Proof.
  intros Hboot Hpool Hacq Hrel.
  rewrite (prepare_database_run drv fs run_script peer fuel config handle_migration
             w p w1 con Hpool Hacq).
  assert (Hm : forall m, m = Migration.create_tables fs run_script fuel \/
                         m = Migration.wait_for_migration fs peer fuel ->
               on_server m (emit (Acquire p None) w1)
               = (Ok tt,
                  {| registry := registry w1; events := events w1 ++ [Acquire p None];
                     server := Migration.logged
                                 (Migration.LogWarning Migration.missing_message)
                                 (server w1) |})).
  { intros m [-> | ->]; unfold on_server, Migration.create_tables,
      Migration.wait_for_migration, Migration.path_exists; rewrite Hboot; reflexivity. }
  destruct handle_migration as [[|]|], config as [cfg|];
    (rewrite Hm by (auto; fail)); rewrite Hrel; unfold emit; cbn [registry events server];
    rewrite <- app_assoc; reflexivity.
Qed.

End FailedCommits.

Section UnpreparedHandlers.

Import Scope Handlers.

Variable drv : driver.
Variable body_of : nat -> callback_body.
Variable fs : string -> option string.
Variable run_script : string -> Migration.database -> option exn * Migration.database.
Variable peer : nat -> Migration.database -> Migration.database.

(** X26. A handler that is used before a default pool is registered:
    [with_database] raises the assertion error of [get_database_pool],
    the handler does not run, nothing is asked of the driver, and the
    handler is left without a context, so that it gets one on the default
    pool once that is registered. *)
Theorem X26_unprepared_handler_gets_no_context {A : Type} (fuel : nat) (fn : M henv A)
  (h : henv) :
  _dbcontext (this h) = None ->
  registry (around h) = None ->
  with_database drv body_of fs run_script peer fuel fn h
  = (Raise (AssertionError "database not prepared before use"), h) /\
  (forall p,
     fst (db {| this := this h; around := set_registry (Some p) (around h) |})
     = Ok (__init__ p false None)).
Proof.
  intros Hctx Hreg. split.
  - unfold with_database, on_db. rewrite !bind_run. unfold db at 1.
    rewrite Hctx. unfold get_database_pool. rewrite Hreg. now destruct h.
  - intros p. unfold db. cbn [this around]. rewrite Hctx. reflexivity.
Qed.

End UnpreparedHandlers.

(** ** A bootstrap that fails *)

Section FailedBootstrap.

Import Migration.

Variable fs : string -> option string.
Variable run_script : string -> database -> option exn * database.

(** [create_tables] on a fresh database whose bootstrap script fails. *)
Lemma create_tables_failing_bootstrap fuel w boot e d2 :
  fs bootstrap_path = Some boot ->
  version_table (db w) = None ->
  run_script boot (with_version_table (Some [0%Z]) (db w)) = (Some e, d2) ->
  create_tables fs run_script fuel w
  = (Raise e, {| db := d2; clock := clock w; calls := calls w ++ fresh_calls boot;
                 log := log w |}).
Proof.
  intros Hboot Ht Hrun.
  unfold with_version_table in Hrun.
  unfold create_tables, fresh_database, path_exists, read_file.
  rewrite Hboot. cbn [negb].
  unfold bind, try_except, fetchrow, execute, ret, with_version_table, with_db, sent.
  rewrite Ht. cbn [db version_table objects clock calls log app].
  rewrite Ht. cbn [db version_table objects clock calls log app].
  rewrite Hrun. cbn [db version_table objects clock calls log app].
  unfold fresh_calls. rewrite <- !app_assoc. reflexivity.
Qed.

(** X27. A bootstrap that failed is not tried again.  On a fresh database
    [create_tables] creates the version table and its row before it runs
    [sql/create_tables.sql]; when that script fails and the server keeps
    the table, the error is raised, and the next run finds version 0: it
    does not run the script again and, without migration scripts, returns
    as if the database were set up. *)
Theorem X27_failed_bootstrap_is_not_retried (w : world) (fuel : nat) (boot : string)
  (e : exn) (d2 : database) :
  fs bootstrap_path = Some boot ->
  version_table (db w) = None ->
  run_script boot (with_version_table (Some [0%Z]) (db w)) = (Some e, d2) ->
  recorded_version d2 = Some 0%Z ->
  fs (migrate_path 1) = None ->
  0 < fuel ->
  exists w1 w2,
    create_tables fs run_script fuel w = (Raise e, w1) /\
    calls w1 = calls w ++ fresh_calls boot /\
    create_tables fs run_script fuel w1 = (Ok tt, w2) /\
    calls w2 = calls w1 ++ [Fetchrow; Execute (UpdateVersion 0)] /\
    objects (db w2) = objects d2.
Proof.
  intros Hboot Ht Hrun Hkept Hgap Hfuel.
  assert (Hb : fs bootstrap_path <> None) by congruence.
  set (w1 := {| db := d2; clock := clock w; calls := calls w ++ fresh_calls boot;
                log := log w |}).
  exists w1. eexists.
  split; [apply (create_tables_failing_bootstrap fuel w boot e d2 Hboot Ht Hrun)|].
  split; [reflexivity|].
  rewrite (create_tables_up_to_date fs run_script fuel w1 0%Z Hb Hkept Hgap Hfuel).
  split; [reflexivity|]. split; reflexivity.
Qed.

End FailedBootstrap.

(** ** The migration on concrete runs *)

(** No script exists, so version 0 is expected.  The table is missing at
    the first poll; at the second it is there without a row, and the
    waiter ends with the [TypeError]. *)
Lemma X2_witness :
  Migration.wait_for_migration (Migration.test_fs 0) Doubles.bootstrapping_peer 2
    (Migration.start Migration.empty_database)
  = (Raise (TypeError "'NoneType' object is not subscriptable"),
     {| Migration.db := {| Migration.version_table := Some [];
                           Migration.objects := [] |};
        Migration.clock := 1;
        Migration.calls := [Migration.Fetchrow; Migration.Fetchrow];
        Migration.log := [Migration.LogInfo Migration.waiting_message] |}).
Proof.
  refine (X2_waiter_fails_on_empty_version_table (Migration.test_fs 0)
            Doubles.bootstrapping_peer (Migration.start Migration.empty_database)
            2 1 [] _ _ _ _ _ _ _).
  - discriminate.
  - intros [|i] text H; discriminate.
  - reflexivity.
  - intros [|k] Hk; [left; reflexivity | exfalso; lia].
  - reflexivity.
  - simpl. lia.
  - lia.
Defined.

(** The process is interrupted while script 2 runs on a database at
    version 1: no [UPDATE] follows the script. *)
Lemma X3_witness :
  exists w',
    Migration.create_tables (Migration.test_fs 3) (Doubles.interrupted_server "2") 4
      (Migration.start (Migration.at_version 1)) = (Raise KeyboardInterrupt, w') /\
    Migration.calls w'
    = [Migration.Fetchrow; Migration.Execute (Migration.Script "2")] /\
    Migration.db w' = Migration.at_version 1.
Proof.
  refine (X3_interrupted_script_records_nothing (Migration.test_fs 3)
            (Doubles.interrupted_server "2") 1%Z
            (Migration.start (Migration.at_version 1)) 4 [] "2" ["3"] KeyboardInterrupt
            _ _ _ _ _ _ _).
  - discriminate.
  - reflexivity.
  - intros [|[|[|i]]] text H; simpl in H; try discriminate; inversion H; reflexivity.
  - reflexivity.
  - reflexivity.
  - reflexivity.
  - simpl. lia.
Defined.

(** Scripts 2 and 3 on a database at version 1, twice, on the server where
    a script fails when its object exists: the second run reads the
    version and writes 3 again, and runs neither script. *)
Lemma X4_witness :
  exists w1 w2,
    Migration.create_tables (Migration.test_fs 3) Doubles.creating_server 4
      (Migration.start (Migration.at_version 1)) = (Ok tt, w1) /\
    Migration.create_tables (Migration.test_fs 3) Doubles.creating_server 4 w1
    = (Ok tt, w2) /\
    Migration.db w2 = Migration.db w1 /\
    Migration.calls w2
    = Migration.calls w1 ++ [Migration.Fetchrow;
                             Migration.Execute (Migration.UpdateVersion 3)].
Proof.
  refine (X4_second_run_applies_nothing (Migration.test_fs 3)
            Doubles.creating_server 1%Z
            (Migration.start (Migration.at_version 1)) 4 ["2"; "3"] _ _ _ _ _ _ _).
  - discriminate.
  - reflexivity.
  - intros [|[|[|i]]] text H; simpl in H; try discriminate; inversion H; reflexivity.
  - reflexivity.
  - reflexivity.
  - discriminate.
  - simpl. lia.
Defined.


(** ** The scope and the handlers on concrete runs *)


(** The first call creates pool 0 and registers it; the second answers it. *)
Lemma X8_witness :
  let drv := Scope.test_driver [] [] RespNone in
  let w1 := {| Scope.registry := Some 0; Scope.events := [Scope.CreatePool None];
               Scope.server := Migration.start Migration.empty_database |} in
  Scope.registry w1 = Some 0 /\
  Scope.get_database_pool w1 = (Ok 0, w1) /\
  Scope._prepare_global_pool drv w1 = (Ok 0, w1).
Proof.
  intros drv w1.
  exact (proj1 (X8_global_pool_is_created_once drv (Scope.quiet_world None))
           0 w1 eq_refl).
Defined.

(** The server refuses the transaction: the scope keeps connection 0. *)
Lemma X9_witness :
  let drv := Doubles.refusing_start (DriverError "too many clients") in
  let e := {| Scope.self := Scope.__init__ 5 false None;
              Scope.outside := Scope.quiet_world (Some 5) |} in
  exists e1,
    Scope.__aenter__ drv (Migration.test_fs 0) (Migration.test_server [])
      Migration.test_peer 2 e = (Raise (DriverError "too many clients"), e1) /\
    Scope.connection (Scope.self e1) = Some 0 /\
    Scope.events (Scope.outside e1)
    = [Scope.Acquire 5 None; Scope.Start (Scope.transaction_on 0)] /\
    Scope.__aenter__ drv (Migration.test_fs 0) (Migration.test_server [])
      Migration.test_peer 2 e1
    = (Raise (DatabaseError "Connection already in progress"), e1).
Proof.
  intros drv e.
  refine (X9_failed_start_keeps_the_connection drv (Migration.test_fs 0)
            (Migration.test_server []) Migration.test_peer 2 e 0
            (DriverError "too many clients") _ _ _); reflexivity.
Defined.

(** A timeout on the default pool is raised as it is. *)
Lemma X10_witness :
  let drv := Doubles.refusing_acquire (DriverError "TimeoutError") in
  let e := {| Scope.self := Scope.__init__ 5 false (Some 3);
              Scope.outside := Scope.quiet_world (Some 5) |} in
  Scope.__aenter__ drv (Migration.test_fs 0) (Migration.test_server [])
    Migration.test_peer 2 e
  = (Raise (DriverError "TimeoutError"),
     {| Scope.self := Scope.__init__ 5 false (Some 3);
        Scope.outside :=
          {| Scope.registry := Some 5; Scope.events := [Scope.Acquire 5 (Some 3)];
             Scope.server := Migration.start Migration.empty_database |} |}).
Proof.
  intros drv e.
  refine (X10_other_acquisition_errors_propagate drv (Migration.test_fs 0)
            (Migration.test_server []) Migration.test_peer 2 e
            (DriverError "TimeoutError") _ _ _);
    [reflexivity | reflexivity | discriminate].
Defined.


(** A commit that goes on with a new transaction on connection 7. *)
Lemma X12_witness :
  let drv := Scope.test_driver [] [] RespNone in
  let e := {| Scope.self := Scope.entered 5 false 7 [1; 2];
              Scope.outside := Scope.quiet_world (Some 5) |} in
  let e' := snd (Scope.commit drv Scope.test_callbacks true e) in
  Scope.transaction (Scope.self e') = Some (Scope.transaction_on 7) /\
  Scope.connection (Scope.self e') = Some 7 /\
  Scope.done (Scope.self e') = false /\
  exists evs,
    Scope.events (Scope.outside e')
    = [] ++ Scope.Commit (Scope.transaction_on 7) :: evs
         ++ [Scope.Start (Scope.transaction_on 7)].
Proof.
  intros drv e e'.
  refine (X12_commit_with_new_transaction_stays_usable drv Scope.test_callbacks e
            (Scope.transaction_on 7) 7 _ _); reflexivity.
Defined.

(** Callbacks 1 and 2 are pending when the scope rolls back; they run at
    the commit of the next use of the scope. *)
Lemma X13_witness :
  let drv := Scope.test_driver [] [] RespNone in
  let e := {| Scope.self := Scope.entered 5 false 7 [1; 2];
              Scope.outside := Scope.quiet_world (Some 5) |} in
  let e3 := snd ((Scope.__aexit__ drv Scope.test_callbacks None ;;;
                  Scope.__aenter__ drv (Migration.test_fs 0) (Migration.test_server [])
                    Migration.test_peer 2 ;;;
                  Scope.commit drv Scope.test_callbacks false) e) in
  Scope.fired (Scope.events (Scope.outside e3)) = [] ++ [1; 2].
Proof.
  intros drv e e3.
  refine (X13_callbacks_outlive_a_rollback drv Scope.test_callbacks (Migration.test_fs 0)
            (Migration.test_server []) Migration.test_peer 2 e e3 None false _ _).
  - intros tx _. reflexivity.
  - reflexivity.
Defined.

(** A handler that runs one statement and does not commit. *)
Lemma X14_witness :
  let drv := Scope.test_driver [] [] (RespStatus "INSERT 0 1") in
  let fn := Handlers.on_db (Scope.execute drv "INSERT INTO t VALUES (1)" []) in
  let run := Handlers.with_database drv Scope.test_callbacks (Migration.test_fs 0)
               (Migration.test_server []) Migration.test_peer 2 fn
               (Doubles.new_handler (Some 5)) in
  Scope.events (Handlers.around (snd run))
  = [Scope.Acquire 5 None; Scope.Start (Scope.transaction_on 0);
     Scope.ConExecute 0 "INSERT INTO t VALUES (1)" []]
    ++ [Scope.Rollback (Scope.transaction_on 0); Scope.Release 5 (Some 0)] /\
  fst run = Ok (RespStatus "INSERT 0 1").
Proof.
  intros drv fn run.
  pose (h1 := snd (Handlers.on_db
                     (Scope.__aenter__ drv (Migration.test_fs 0) (Migration.test_server [])
                        Migration.test_peer 2) (Doubles.new_handler (Some 5)))).
  destruct (X14_with_database_rolls_back drv Scope.test_callbacks (Migration.test_fs 0)
              (Migration.test_server []) Migration.test_peer 2 fn
              (Doubles.new_handler (Some 5)) h1 (snd (fn h1)) (fst (fn h1))
              (Scope.entered 5 false 0 []) (Scope.transaction_on 0) 0
              eq_refl eq_refl ltac:(discriminate) eq_refl eq_refl eq_refl eq_refl)
    as [Hevents Hresult].
  split.
  - exact Hevents.
  - exact (Hresult eq_refl eq_refl).
Defined.

(** The context of the handler is on pool 5, which is dead; the default
    pool is 6 by now. *)
Lemma X15_witness :
  let drv := Scope.test_driver [5] [] RespNone in
  let s := Scope.__init__ 5 false None in
  let h := {| Handlers.this := {| Handlers._dbcontext := Some s |};
              Handlers.around := Scope.quiet_world (Some 6) |} in
  fst (Handlers.db h) = Ok s /\
  Handlers.with_database drv Scope.test_callbacks (Migration.test_fs 0)
    (Migration.test_server []) Migration.test_peer 2 (ret tt) h
  = (Raise ConnectionDoesNotExistError,
     {| Handlers.this := {| Handlers._dbcontext := Some s |};
        Handlers.around :=
          Scope.add_events [Scope.Acquire 5 None;
                            Scope.LogException "Error acquiring connection"]
            (Scope.quiet_world (Some 6)) |}).
Proof.
  intros drv s h.
  refine (X15_cached_context_is_not_recovered drv Scope.test_callbacks
            (Migration.test_fs 0) (Migration.test_server []) Migration.test_peer
            2 (ret tt) h s 6 _ _ _ _ _); try reflexivity.
  discriminate.
Defined.

(** ** The pool on concrete runs *)

(** Connection 1 died while idle; connection 2 is returned after 1 was
    released. *)
Lemma X16_witness :
  let dead k := {| SafePool.con_id := k; SafePool.con_closed := true |} in
  let live k := {| SafePool.con_id := k; SafePool.con_closed := false |} in
  let p := {| SafePool.idle := [dead 1; live 2]; SafePool.released := [] |} in
  exists cons p1,
    SafePool.discards SafePool.test_acquire SafePool.test_release
      SafePool.test_is_closed (Some 10) p cons p1 /\
    SafePool.test_acquire (Some 10) p1
    = (Ok (live 2), {| SafePool.idle := []; SafePool.released := [1] |}) /\
    length cons < 2.
Proof.
  intros dead live p.
  refine (X16_acquire_releases_what_it_skips _ _ SafePool.test_acquire
            SafePool.test_release SafePool.test_is_closed (Some 10) 2 p
            {| SafePool.idle := []; SafePool.released := [1] |} (live 2) _).
  reflexivity.
Defined.

(** The only idle connection is dead: after its release the driver has
    none left, and its timeout is what the caller gets. *)
Lemma X17_witness :
  let dead k := {| SafePool.con_id := k; SafePool.con_closed := true |} in
  let p := {| SafePool.idle := [dead 1]; SafePool.released := [] |} in
  let p' := {| SafePool.idle := []; SafePool.released := [1] |} in
  exists cons p1,
    SafePool.discards SafePool.test_acquire SafePool.test_release
      SafePool.test_is_closed None p cons p1 /\
    (SafePool.test_acquire None p1 = (Raise (DriverError "TimeoutError"), p') \/
     exists con p2,
       SafePool.test_acquire None p1 = (Ok con, p2) /\
       SafePool.test_is_closed con p2 = true /\
       SafePool.test_release con p2 = (Raise (DriverError "TimeoutError"), p')).
Proof.
  intros dead p p'.
  refine (X17_acquire_errors_are_the_drivers _ _ SafePool.test_acquire
            SafePool.test_release SafePool.test_is_closed None 5 p p'
            (DriverError "TimeoutError") _).
  reflexivity.
Defined.

(** [min_size="20"] from a configuration file with [max_size=10]: the pool
    is made with 10 and 10. *)
Lemma X18_witness :
  exists c,
    PoolSetup.pool_arguments PoolSetup.test_int PoolSetup.asyncpg_0_12
      (PoolSetup.KwObject 0) (PoolSetup.SizeStr "20") (PoolSetup.SizeInt 10)
      (PoolSetup.KwObject 3) (PoolSetup.KwObject 4) PoolSetup.KwNone
      PoolSetup.KwNone PoolSetup.KwNone PoolSetup.SslNone (PoolSetup.KwObject 1) []
    = PoolSetup.Built c /\
    PoolSetup.create_pool PoolSetup.test_int PoolSetup.test_repr PoolSetup.asyncpg_0_12
      PoolSetup.pool_call PoolSetup.test_SafePool
      (PoolSetup.KwObject 0) (PoolSetup.SizeStr "20") (PoolSetup.SizeInt 10)
      (PoolSetup.KwObject 3) (PoolSetup.KwObject 4) PoolSetup.KwNone
      PoolSetup.KwNone PoolSetup.KwNone PoolSetup.SslNone (PoolSetup.KwObject 1) []
    = PoolSetup.test_SafePool c /\
    PoolSetup.call_max_size c = 10%Z /\
    PoolSetup.call_min_size c = Z.min 20 10 /\
    (PoolSetup.call_min_size c <= PoolSetup.call_max_size c)%Z.
Proof.
  exact (proj1 (X18_create_pool_clamps_min_size PoolSetup.test_int PoolSetup.test_repr
                  PoolSetup.asyncpg_0_12 PoolSetup.pool_call PoolSetup.test_SafePool
                  (PoolSetup.KwObject 0) (PoolSetup.SizeStr "20") (PoolSetup.SizeInt 10)
                  (PoolSetup.KwObject 3) (PoolSetup.KwObject 4) PoolSetup.KwNone
                  PoolSetup.KwNone PoolSetup.KwNone PoolSetup.SslNone
                  (PoolSetup.KwObject 1) [])
           20%Z 10%Z eq_refl eq_refl).
Defined.

(** Sizes that the constructor refuses, and a size that is no number. *)
Example create_pool_refused :
  PoolSetup.create_pool PoolSetup.test_int PoolSetup.test_repr PoolSetup.asyncpg_0_12
    PoolSetup.pool_call PoolSetup.test_SafePool
    (PoolSetup.KwObject 0) (PoolSetup.SizeInt 0) (PoolSetup.SizeInt 0)
    (PoolSetup.KwObject 3) (PoolSetup.KwObject 4) PoolSetup.KwNone
    PoolSetup.KwNone PoolSetup.KwNone PoolSetup.SslNone (PoolSetup.KwObject 1) []
  = Raise (ValueError "max_size is expected to be greater than zero") /\
  PoolSetup.create_pool PoolSetup.test_int PoolSetup.test_repr PoolSetup.asyncpg_0_12
    PoolSetup.pool_call PoolSetup.test_SafePool
    (PoolSetup.KwObject 0) (PoolSetup.SizeStr "ten") (PoolSetup.SizeInt 10)
    (PoolSetup.KwObject 3) (PoolSetup.KwObject 4) PoolSetup.KwNone
    PoolSetup.KwNone PoolSetup.KwNone PoolSetup.SslNone (PoolSetup.KwObject 1) []
  = Raise (ValueError "invalid literal for int() with base 10: 'ten'").
Proof. split; reflexivity. Qed.

(** [ssl=True] and a [host] keyword, on asyncpg 0.12. *)
Lemma X19_witness :
  let c := {| PoolSetup.call_dsn := PoolSetup.KwObject 0;
              PoolSetup.call_min_size := 10; PoolSetup.call_max_size := 10;
              PoolSetup.call_max_queries := PoolSetup.KwObject 3;
              PoolSetup.call_loop := PoolSetup.KwNone;
              PoolSetup.call_setup := PoolSetup.KwNone;
              PoolSetup.call_kwargs :=
                [("host", PoolSetup.KwObject 7);
                 ("connection_class", PoolSetup.KwObject 1);
                 ("max_inactive_connection_lifetime", PoolSetup.KwObject 4);
                 ("init", PoolSetup.KwObject 2);
                 ("ssl", PoolSetup.KwContext PoolSetup.SSL_CTX)] |} in
  PoolSetup.create_pool PoolSetup.test_int PoolSetup.test_repr PoolSetup.asyncpg_0_12
    PoolSetup.pool_call PoolSetup.test_SafePool
    (PoolSetup.KwObject 0) (PoolSetup.SizeInt 10) (PoolSetup.SizeInt 10)
    (PoolSetup.KwObject 3) (PoolSetup.KwObject 4) PoolSetup.KwNone
    PoolSetup.KwNone (PoolSetup.KwObject 2) (PoolSetup.SslBool true)
    (PoolSetup.KwObject 1) [("host", PoolSetup.KwObject 7)]
  = PoolSetup.test_SafePool c /\
  PoolSetup.dict_get "ssl" (PoolSetup.call_kwargs c)
  = Some (PoolSetup.KwContext PoolSetup.SSL_CTX) /\
  PoolSetup.dict_get "init" (PoolSetup.call_kwargs c) = Some (PoolSetup.KwObject 2) /\
  (forall k, k <> "ssl"%string -> k <> "init"%string ->
             k <> "connection_class"%string ->
             k <> "max_inactive_connection_lifetime"%string ->
             PoolSetup.dict_get k (PoolSetup.call_kwargs c)
             = PoolSetup.dict_get k [("host", PoolSetup.KwObject 7)]).
Proof.
  intros c.
  refine (X19_create_pool_keywords PoolSetup.test_int PoolSetup.test_repr
            PoolSetup.asyncpg_0_12 PoolSetup.pool_call PoolSetup.test_SafePool
            (PoolSetup.KwObject 0) (PoolSetup.SizeInt 10) (PoolSetup.SizeInt 10)
            (PoolSetup.KwObject 3) (PoolSetup.KwObject 4) PoolSetup.KwNone
            PoolSetup.KwNone (PoolSetup.KwObject 2) (PoolSetup.SslBool true)
            (PoolSetup.KwObject 1) [("host", PoolSetup.KwObject 7)] c _ _ _);
    reflexivity.
Defined.

(** ** Statements and commits on concrete runs *)

(** Two updates of [status] where [id] is given: the same text, with the
    string and the number each bound as arguments. *)
Lemma X20_witness :
  let drv := Scope.test_driver [] [] (RespStatus "UPDATE 1") in
  let e := {| Scope.self := Scope.entered 5 false 7 [];
              Scope.outside := Scope.quiet_world (Some 5) |} in
  exists query,
    Scope.events (Scope.outside (snd (Scope.update drv "t"
      (Scope.ArgDict [("status", PyStr "active")]) (Scope.ArgDict [("id", PyInt 42)]) e)))
    = [] ++ [Scope.ConExecute 7 query [PyStr "active"; PyInt 42]] /\
    Scope.events (Scope.outside (snd (Scope.update drv "t"
      (Scope.ArgList [Scope.ElemSeq [PyStr "status"; PyInt 0]])
      (Scope.ArgList [Scope.ElemSeq [PyStr "id"; PyStr "x"]]) e)))
    = [] ++ [Scope.ConExecute 7 query [PyInt 0; PyStr "x"]].
Proof.
  intros drv e.
  refine (X20_update_binds_values_only drv e (Scope.transaction_on 7) 7 "t"
            (Scope.ArgDict [("status", PyStr "active")])
            (Scope.ArgList [Scope.ElemSeq [PyStr "status"; PyInt 0]])
            (Scope.ArgDict [("id", PyInt 42)])
            (Scope.ArgList [Scope.ElemSeq [PyStr "id"; PyStr "x"]])
            [("status", PyStr "active")] [("status", PyInt 0)]
            (Some [("id", PyInt 42)]) (Some [("id", PyStr "x")])
            _ _ _ _ _ _ _ _); reflexivity.
Defined.

(** The driver answers with a status that starts with "ERROR:". *)
Lemma X21_witness :
  let drv := Scope.test_driver [] [] (RespStatus "ERROR: relation t does not exist") in
  let e := {| Scope.self := Scope.entered 5 false 7 [];
              Scope.outside := Scope.quiet_world (Some 5) |} in
  fst (Scope.update drv "t" (Scope.ArgDict [("status", PyStr "active")]) Scope.ArgNone e)
  = Ok (RespStatus "ERROR: relation t does not exist").
Proof.
  intros drv e.
  refine (X21_update_returns_every_status drv e (Scope.transaction_on 7) 7 "t"
            (Scope.ArgDict [("status", PyStr "active")]) Scope.ArgNone
            [("status", PyStr "active")] None "ERROR: relation t does not exist"
            _ _ _ _ _); reflexivity.
Defined.

(** The first commit fails while callbacks 1 and 2 are pending. *)
Lemma X22_witness :
  let drv := Scope.test_driver [] [1] RespNone in
  let e := {| Scope.self := Scope.entered 5 false 7 [1; 2];
              Scope.outside := Scope.quiet_world (Some 5) |} in
  let run := Scope.commit drv Scope.test_callbacks false e in
  Scope.callbacks (Scope.self (snd run)) = [] /\
  Scope.fired (Scope.events (Scope.outside (snd run))) = [] /\
  (exists err', fst run = Raise err') /\
  (false = false ->
   fst run = Raise (DriverError "could not serialize access") /\
   Scope.transaction (Scope.self (snd run)) = None /\
   Scope.done (Scope.self (snd run)) = true).
Proof.
  intros drv e run.
  refine (X22_failed_commit_drops_callbacks drv Scope.test_callbacks false e
            (Scope.transaction_on 7) (DriverError "could not serialize access") _ _);
    reflexivity.
Defined.

(** Callbacks 2, 9 and 4 are pending and 9 raises: 4 does not run. *)
Lemma X23_witness :
  let drv := Scope.test_driver [] [] RespNone in
  let e := {| Scope.self := Scope.entered 5 false 7 [2; 9; 4];
              Scope.outside := Scope.quiet_world (Some 5) |} in
  let run := Scope.commit drv Scope.test_callbacks false e in
  fst run = Raise (CallbackError "callback 9") /\
  Scope.events (Scope.outside (snd run))
  = [] ++ Scope.Commit (Scope.transaction_on 7) :: map Scope.Fired ([2] ++ [9]) /\
  (forall q, In q (Scope.callbacks (Scope.self (snd run))) ->
             exists p, In p ([2] ++ [9]) /\
                       In q (Scope.registers (Scope.test_callbacks p))).
Proof.
  intros drv e run.
  refine (X23_raising_callback_stops_the_rest drv Scope.test_callbacks e
            (Scope.transaction_on 7) [2] [4] 9 (CallbackError "callback 9")
            _ _ _ _ _); try reflexivity.
  intros p [<-|[]]. reflexivity.
Defined.

(** A context with autocommit, acquired from a scope that holds
    connection 7 and two callbacks. *)
Lemma X24_witness :
  let drv := Scope.test_driver [] [] RespNone in
  Scope.__aenter__ drv (Migration.test_fs 0) (Migration.test_server [])
    Migration.test_peer 2
    {| Scope.self := Scope.acquire (Scope.entered 5 false 7 [1; 2]) (Some true);
       Scope.outside := Scope.quiet_world (Some 5) |}
  = (Ok tt,
     {| Scope.self := Scope.entered 5 true 0 [];
        Scope.outside :=
          Scope.add_events [Scope.Acquire 5 None; Scope.Start (Scope.transaction_on 0)]
            (Scope.quiet_world (Some 5)) |}).
Proof.
  intros drv.
  refine (X24_acquired_context_enters_beside_its_parent drv (Migration.test_fs 0)
            (Migration.test_server []) Migration.test_peer 2
            (Scope.entered 5 false 7 [1; 2]) (Some true) (Scope.quiet_world (Some 5)) 0
            _ _); reflexivity.
Defined.

(** The first start of a process in a directory without [sql/]. *)
Lemma X25_witness :
  let drv := Scope.test_driver [] [] RespNone in
  Scope.prepare_database drv Doubles.empty_fs (Migration.test_server [])
    Migration.test_peer 2 None None (Scope.quiet_world None)
  = (Ok 0,
     {| Scope.registry := Some 0;
        Scope.events := [Scope.CreatePool None]
                        ++ [Scope.Acquire 0 None; Scope.Release 0 (Some 1)];
        Scope.server :=
          Migration.logged (Migration.LogWarning Migration.missing_message)
            (Migration.start Migration.empty_database) |}).
Proof.
  intros drv.
  refine (X25_missing_bootstrap_skips_migration drv Doubles.empty_fs
            (Migration.test_server []) Migration.test_peer 2 None None
            (Scope.quiet_world None)
            {| Scope.registry := Some 0; Scope.events := [Scope.CreatePool None];
               Scope.server := Migration.start Migration.empty_database |}
            0 1 _ _ _ _); reflexivity.
Defined.

(** A handler is called before [prepare_database]. *)
Lemma X26_witness :
  let drv := Scope.test_driver [] [] RespNone in
  Handlers.with_database drv Scope.test_callbacks (Migration.test_fs 0)
    (Migration.test_server []) Migration.test_peer 2 (ret tt)
    (Doubles.new_handler None)
  = (Raise (AssertionError "database not prepared before use"),
     Doubles.new_handler None) /\
  (forall p,
     fst (Handlers.db
            {| Handlers.this := Handlers.this (Doubles.new_handler None);
               Handlers.around :=
                 Scope.set_registry (Some p)
                   (Handlers.around (Doubles.new_handler None)) |})
     = Ok (Scope.__init__ p false None)).
Proof.
  intros drv.
  refine (X26_unprepared_handler_gets_no_context drv Scope.test_callbacks
            (Migration.test_fs 0) (Migration.test_server []) Migration.test_peer
            2 (ret tt) (Doubles.new_handler None) _ _); reflexivity.
Defined.

(** The bootstrap script is refused on a fresh database; the second run
    answers without an error. *)
Lemma X27_witness :
  exists w1 w2,
    Migration.create_tables (Migration.test_fs 0) (Migration.test_server ["bootstrap"]) 1
      (Migration.start Migration.empty_database)
    = (Raise (DriverError "syntax error in bootstrap"), w1) /\
    Migration.calls w1 = [] ++ Migration.fresh_calls "bootstrap" /\
    Migration.create_tables (Migration.test_fs 0) (Migration.test_server ["bootstrap"]) 1
      w1 = (Ok tt, w2) /\
    Migration.calls w2
    = Migration.calls w1 ++ [Migration.Fetchrow;
                             Migration.Execute (Migration.UpdateVersion 0)] /\
    Migration.objects (Migration.db w2) = [].
Proof.
  refine (X27_failed_bootstrap_is_not_retried (Migration.test_fs 0)
            (Migration.test_server ["bootstrap"])
            (Migration.start Migration.empty_database) 1 "bootstrap"
            (DriverError "syntax error in bootstrap") (Migration.at_version 0)
            _ _ _ _ _ _); try reflexivity.
  lia.
Defined.
